(** * GnuPG [g10/ecdh.c]: the OpenPGP ECDH key-wrapping glue

    A shallow embedding of [pk_ecdh_default_params],
    [pk_ecdh_encrypt_with_shared_point] and [pk_ecdh_decrypt], and the
    properties of them that the specification states.

    Conventions.
    - C [int], [unsigned int] and [size_t] values are [Z]; every value that
      occurs is far below 2^31, truncation to a [byte] is written out.
    - An MPI is its unsigned value ([N]); a pointer that may be NULL is an
      [option].
    - Heap buffers are lists of cells, a cell being [None] until it is
      written; reading an unwritten cell or touching memory outside the
      buffer is [UndefinedBehaviour].
    - libgcrypt, the allocator and the helpers of other GnuPG files are the
      fields of a [Backend]; the calls made to it are recorded in a trace. *)

From Stdlib Require Import ZArith NArith List Bool Lia.
From Stdlib Require Import Strings.Byte.
From AAC_tactics Require Import AAC.
Import ListNotations.
Local Open Scope Z_scope.

(* ================================================================== *)
(** ** Bytes and C integers *)

Definition byte_of_Z (z : Z) : byte :=
  match Byte.of_N (Z.to_N (z mod 256)) with
  | Some b => b
  | None => x00
  end.

Definition Z_of_byte (b : byte) : Z := Z.of_N (Byte.to_N b).

(** [sizeof]/[strlen]-style length of a list, as a C integer. *)
Definition zlen {A : Type} (l : list A) : Z := Z.of_nat (length l).

(* ================================================================== *)
(** ** libgpg-error codes that ecdh.c and its backend produce *)

Inductive gpg_error_t : Set :=
| GPG_ERR_NO_ERROR
| GPG_ERR_BAD_PUBKEY
| GPG_ERR_CHECKSUM
| GPG_ERR_BAD_KEY
| GPG_ERR_BAD_MPI
| GPG_ERR_INV_ARG
| GPG_ERR_INV_DATA
| GPG_ERR_TOO_SHORT
| GPG_ERR_TOO_LARGE
| GPG_ERR_ENOMEM
| GPG_ERR_CIPHER_ALGO
| GPG_ERR_INV_KEYLEN
| GPG_ERR_BUFFER_TOO_SHORT.

Definition gpg_error_eqb (a b : gpg_error_t) : bool :=
  match a, b with
  | GPG_ERR_NO_ERROR, GPG_ERR_NO_ERROR
  | GPG_ERR_BAD_PUBKEY, GPG_ERR_BAD_PUBKEY
  | GPG_ERR_CHECKSUM, GPG_ERR_CHECKSUM
  | GPG_ERR_BAD_KEY, GPG_ERR_BAD_KEY
  | GPG_ERR_BAD_MPI, GPG_ERR_BAD_MPI
  | GPG_ERR_INV_ARG, GPG_ERR_INV_ARG
  | GPG_ERR_INV_DATA, GPG_ERR_INV_DATA
  | GPG_ERR_TOO_SHORT, GPG_ERR_TOO_SHORT
  | GPG_ERR_TOO_LARGE, GPG_ERR_TOO_LARGE
  | GPG_ERR_ENOMEM, GPG_ERR_ENOMEM
  | GPG_ERR_CIPHER_ALGO, GPG_ERR_CIPHER_ALGO
  | GPG_ERR_INV_KEYLEN, GPG_ERR_INV_KEYLEN
  | GPG_ERR_BUFFER_TOO_SHORT, GPG_ERR_BUFFER_TOO_SHORT => true
  | _, _ => false
  end.

(** C's [if (rc)]. *)
Definition is_error (rc : gpg_error_t) : bool :=
  negb (gpg_error_eqb rc GPG_ERR_NO_ERROR).

(** The error kinds of the specification (its section 7); whatever the
    backend reports that is none of the first four is a [CryptoError]. *)
Inductive error_kind : Set :=
| BadPublicKey | BadMpi | BadKey | OutOfMemory | CryptoError.

Definition kind_of (rc : gpg_error_t) : option error_kind :=
  match rc with
  | GPG_ERR_NO_ERROR => None
  | GPG_ERR_BAD_PUBKEY => Some BadPublicKey
  | GPG_ERR_BAD_MPI => Some BadMpi
  | GPG_ERR_BAD_KEY => Some BadKey
  | GPG_ERR_ENOMEM => Some OutOfMemory
  | _ => Some CryptoError
  end.

(* ================================================================== *)
(** ** Algorithm identifiers

    The headers that define them are not among the sources; the values are
    those of the OpenPGP registry (RFC 4880, 9.1 to 9.4, and RFC 6637 for
    ECDH), which libgcrypt shares for these algorithms. *)

Definition DIGEST_ALGO_SHA256 : Z := 8.
Definition DIGEST_ALGO_SHA384 : Z := 9.
Definition DIGEST_ALGO_SHA512 : Z := 10.
Definition CIPHER_ALGO_AES    : Z := 7.
Definition CIPHER_ALGO_AES192 : Z := 8.
Definition CIPHER_ALGO_AES256 : Z := 9.
Definition PUBKEY_ALGO_ECDH   : Z := 18.

Definition GCRY_MD_SHA256 : Z := 8.
Definition GCRY_MD_SHA384 : Z := 9.
Definition GCRY_MD_SHA512 : Z := 10.
Definition GCRY_CIPHER_AES128 : Z := 7.
Definition GCRY_CIPHER_AES192 : Z := 8.
Definition GCRY_CIPHER_AES256 : Z := 9.

(** [gcry_md_get_algo_dlen] and [gcry_cipher_get_algo_keylen], on the
    algorithms that ecdh.c lets through (0 stands for "unknown"). *)
Definition gcry_md_get_algo_dlen (algo : Z) : Z :=
  if algo =? GCRY_MD_SHA256 then 32
  else if algo =? GCRY_MD_SHA384 then 48
  else if algo =? GCRY_MD_SHA512 then 64
  else 0.

Definition gcry_cipher_get_algo_keylen (algo : Z) : Z :=
  if algo =? GCRY_CIPHER_AES128 then 16
  else if algo =? GCRY_CIPHER_AES192 then 24
  else if algo =? GCRY_CIPHER_AES256 then 32
  else 0.

(* ================================================================== *)
(** ** MPIs in libgcrypt's unsigned format (GCRYMPI_FMT_USG) *)

Definition gcry_mpi_t : Set := N.

(** [gcry_mpi_get_nbits]: the number of significant bits, 0 for 0. *)
Definition gcry_mpi_get_nbits (a : gcry_mpi_t) : Z := Z.of_N (N.size a).

(** The [n] low-order octets of [a], most significant first. *)
Fixpoint be_bytes (n : nat) (a : N) : list byte :=
  match n with
  | O => []
  | S k => be_bytes k (a / 256) ++ [byte_of_Z (Z.of_N (a mod 256))]
  end.

(** The natural serialization: no leading zero octet, nothing for 0. *)
Definition mpi_octets (a : gcry_mpi_t) : list byte :=
  be_bytes (Z.to_nat ((gcry_mpi_get_nbits a + 7) / 8)) a.

(** [gcry_mpi_print (GCRYMPI_FMT_USG, buf, buflen, &nwritten, a)]: the error
    code and the octets written (their number is [*nwritten]). *)
Definition gcry_mpi_print (buflen : Z) (a : gcry_mpi_t)
  : gpg_error_t * list byte :=
  let n := (gcry_mpi_get_nbits a + 7) / 8 in
  if n >? buflen then (GPG_ERR_TOO_SHORT, [])
  else (GPG_ERR_NO_ERROR, mpi_octets a).

(** [gcry_mpi_scan (&result, GCRYMPI_FMT_USG, buf, len, NULL)]. *)
Definition gcry_mpi_scan (bs : list byte) : gcry_mpi_t :=
  fold_left (fun acc b => (acc * 256 + Byte.to_N b)%N) bs 0%N.

(* ================================================================== *)
(** ** Heap buffers *)

Abbreviation cell := (option byte).

(** A freshly allocated block: nothing written yet. *)
Definition fresh (n : Z) : list cell := repeat None (Z.to_nat n).

Fixpoint all_written (cs : list cell) : option (list byte) :=
  match cs with
  | [] => Some []
  | Some b :: r =>
      match all_written r with Some bs => Some (b :: bs) | None => None end
  | None :: _ => None
  end.

(** Read [n] octets at offset [off]; [None] outside the block or on an
    unwritten cell. *)
Definition peek (buf : list cell) (off n : Z) : option (list byte) :=
  if (0 <=? off) && (0 <=? n) && (off + n <=? zlen buf)
  then all_written (firstn (Z.to_nat n) (skipn (Z.to_nat off) buf))
  else None.

(** Write [bs] at offset [off]; [None] outside the block. *)
Definition poke (buf : list cell) (off : Z) (bs : list byte)
  : option (list cell) :=
  if (0 <=? off) && (off + zlen bs <=? zlen buf)
  then Some (firstn (Z.to_nat off) buf ++ map Some bs
             ++ skipn (Z.to_nat (off + zlen bs)) buf)
  else None.

(** [memset (buf+off, c, n)], the arguments in C's order. *)
Definition memset (buf : list cell) (off : Z) (c : Z) (n : Z)
  : option (list cell) :=
  if 0 <=? n then poke buf off (repeat (byte_of_Z c) (Z.to_nat n)) else None.

(** [memmove (buf+dst, buf+src, n)]. *)
Definition memmove (buf : list cell) (dst src n : Z) : option (list cell) :=
  match peek buf src n with
  | Some bs => poke buf dst bs
  | None => None
  end.

(* ================================================================== *)
(** ** How a C function ends, and the calls it makes on the way *)

Inductive outcome (A : Type) : Type :=
| Returns (a : A)        (* the function returned [a] *)
| AssertionFailed        (* an [assert] tripped: the process aborts *)
| LogBug                 (* [log_bug]: fatal, the process aborts *)
| UndefinedBehaviour.    (* memory touched outside a block or unwritten *)
Arguments Returns {A} a.
Arguments AssertionFailed {A}.
Arguments LogBug {A}.
Arguments UndefinedBehaviour {A}.

(** The library calls of [pk_ecdh_encrypt_with_shared_point] that the
    specification speaks about. *)
Inductive call : Set :=
| Call_mpi_print          (* export of the shared point *)
| Call_md_open
| Call_md_final           (* the digest is computed *)
| Call_cipher_open
| Call_cipher_setkey
| Call_cipher_encrypt     (* AES key wrap *)
| Call_cipher_decrypt     (* AES key unwrap *)
| Call_mpi_scan.          (* the result MPI is made *)

Definition call_eqb (a b : call) : bool :=
  match a, b with
  | Call_mpi_print, Call_mpi_print
  | Call_md_open, Call_md_open
  | Call_md_final, Call_md_final
  | Call_cipher_open, Call_cipher_open
  | Call_cipher_setkey, Call_cipher_setkey
  | Call_cipher_encrypt, Call_cipher_encrypt
  | Call_cipher_decrypt, Call_cipher_decrypt
  | Call_mpi_scan, Call_mpi_scan => true
  | _, _ => false
  end.

(** What [pk_ecdh_encrypt_with_shared_point] hands back: its return code
    and [*out] ([None] is NULL). *)
Definition retval : Set := (gpg_error_t * option gcry_mpi_t)%type.

(** A statement sequence either goes on with a value or has left the
    function; the calls made so far are recorded. *)
Inductive step (A : Type) : Type :=
| Next (a : A)
| Stop (o : outcome retval).
Arguments Next {A} a.
Arguments Stop {A} o.

Definition M (A : Type) : Type := (list call * step A)%type.

Definition ret {A} (a : A) : M A := ([], Next a).

Definition bind {A B} (m : M A) (f : A -> M B) : M B :=
  match m with
  | (t, Next a) => let (t', r) := f a in (t ++ t', r)
  | (t, Stop o) => (t, Stop o)
  end.

Notation "x <- m ;; k" := (bind m (fun x => k))
  (at level 61, m at next level, right associativity).
Notation "m ;;; k" := (bind m (fun _ => k))
  (at level 61, right associativity).

Definition calling (c : call) : M unit := ([c], Next tt).

(** [return rc;] with [*out] still NULL. *)
Definition return_ {A} (rc : gpg_error_t) : M A :=
  ([], Stop (Returns (rc, None))).

(** [*out = result; return rc;] *)
Definition return_out {A} (rc : gpg_error_t) (result : gcry_mpi_t) : M A :=
  ([], Stop (Returns (rc, Some result))).

Definition assert (b : bool) : M unit :=
  if b then ret tt else ([], Stop AssertionFailed).

Definition log_bug {A} : M A := ([], Stop LogBug).

(** A memory access that must be defined. *)
Definition defined {A} (o : option A) : M A :=
  match o with
  | Some a => ret a
  | None => ([], Stop UndefinedBehaviour)
  end.

(** [if (rc) return rc;] *)
Definition check_rc (rc : gpg_error_t) : M unit :=
  if is_error rc then return_ rc else ret tt.

(** The function body has run: its trace and how it ended. A body that
    falls off its end without [return] has undefined behaviour. *)
Definition run (m : M unit) : list call * outcome retval :=
  match m with
  | (t, Stop o) => (t, o)
  | (t, Next _) => (t, UndefinedBehaviour)
  end.

(* ================================================================== *)
(** ** Key material and the backend *)

(** [gcry_mpi_t *pkey] of an ECDH key: its three MPIs. *)
Record pubkey : Set := {
  pkey_0 : gcry_mpi_t;     (* pkey[0]: the curve OID *)
  pkey_1 : gcry_mpi_t;     (* pkey[1]: the public point *)
  pkey_2 : gcry_mpi_t      (* pkey[2]: the KEK parameters *)
}.

(** What ecdh.c calls and does not define. A returned octet list is what
    the call wrote to its output buffer. *)
Class Backend : Type := {
  (** [unsigned pubkey_nbits (algo, pkey)] of g10/misc.c *)
  pubkey_nbits : Z -> pubkey -> N;
  (** [iobuf_write_size_body_mpi (obuf, a)]: the octets appended to [obuf] *)
  iobuf_write_size_body_mpi : gcry_mpi_t -> gpg_error_t * list byte;
  (** [gcry_md_open (&h, algo, 0)] *)
  gcry_md_open : Z -> gpg_error_t;
  (** [gcry_md_write]s, [gcry_md_final], [gcry_md_read (h, algo)]: the
      digest of all that was written *)
  gcry_md_read : Z -> list byte -> list byte;
  (** [gcry_cipher_open (&hd, algo, GCRY_CIPHER_MODE_AESWRAP, 0)] *)
  gcry_cipher_open : Z -> gpg_error_t;
  (** [gcry_cipher_setkey (hd, key, keylen)] *)
  gcry_cipher_setkey : Z -> list byte -> gpg_error_t;
  (** [gcry_cipher_encrypt (hd, out, outsize, in, inlen)] on a handle
      opened for [algo] and keyed with [key] *)
  gcry_cipher_encrypt : Z -> list byte -> Z -> list byte
                        -> gpg_error_t * list byte;
  (** [gcry_cipher_decrypt (hd, out, outsize, in, inlen)], likewise *)
  gcry_cipher_decrypt : Z -> list byte -> Z -> list byte
                        -> gpg_error_t * list byte;
  (** whether [xtrymalloc (n)] and [xtrymalloc_secure (n)] find memory *)
  xtrymalloc : Z -> bool;
  xtrymalloc_secure : Z -> bool
}.

(* ================================================================== *)
(** ** [kek_params_table] and [pk_ecdh_default_params] *)

Record kek_params_row : Set := {
  qbits : Z;
  openpgp_hash_id : Z;     (* KEK digest algorithm. *)
  openpgp_cipher_id : Z    (* KEK cipher algorithm. *)
}.

Definition kek_params_table : list kek_params_row :=
  [ {| qbits := 256; openpgp_hash_id := DIGEST_ALGO_SHA256;
       openpgp_cipher_id := CIPHER_ALGO_AES |};
    {| qbits := 384; openpgp_hash_id := DIGEST_ALGO_SHA384;
       openpgp_cipher_id := CIPHER_ALGO_AES256 |};
    {| qbits := 528; openpgp_hash_id := DIGEST_ALGO_SHA512;
       openpgp_cipher_id := CIPHER_ALGO_AES256 |} ].

(** [DIM (kek_params_table)] *)
Definition DIM_kek_params_table : Z := zlen kek_params_table.

(** The [for] loop of [pk_ecdh_default_params] from index [i] on: the value
    of [i] and of [kek_params] when the loop is left. [fuel] bounds the
    iterations that remain and is never exhausted. *)
Fixpoint kek_params_loop (fuel : nat) (q : Z) (i : Z) (kek_params : list cell)
  : option (Z * list cell) :=
  match fuel with
  | O => None
  | S fuel' =>
      if i <? DIM_kek_params_table then
        match nth_error kek_params_table (Z.to_nat i) with
        | None => None
        | Some row =>
            if (qbits row >=? q) || (i + 1 =? DIM_kek_params_table) then
              match poke kek_params 2
                      [byte_of_Z (openpgp_hash_id row)] with
              | None => None
              | Some kp =>
                  match poke kp 3 [byte_of_Z (openpgp_cipher_id row)] with
                  | None => None
                  | Some kp' => Some (i, kp')       (* break *)
                  end
              end
            else kek_params_loop fuel' q (i + 1) kek_params
        end
      else Some (i, kek_params)
  end.

(** [byte *pk_ecdh_default_params (unsigned int qbits, size_t *sizeout)]:
    NULL, or the allocated copy and [*sizeout]. *)
Definition pk_ecdh_default_params {B : Backend} (q : Z)
  : outcome (option (list byte * Z)) :=
  match poke (fresh 4) 0 [byte_of_Z 3; byte_of_Z 1] with
  | None => UndefinedBehaviour
  | Some kek_params0 =>
      match kek_params_loop
              (S (length kek_params_table)) q 0 kek_params0 with
      | None => UndefinedBehaviour
      | Some (i, kek_params) =>
          if i <? DIM_kek_params_table then
            if xtrymalloc (zlen kek_params) then
              match peek kek_params 0 (zlen kek_params) with
              | Some buffer => Returns (Some (buffer, zlen kek_params))
              | None => UndefinedBehaviour
              end
            else Returns None
          else AssertionFailed
      end
  end.

(* ================================================================== *)
(** ** [pk_ecdh_encrypt_with_shared_point], block by block *)

Section Ecdh.
Context {B : Backend}.

(** [iobuf_temp_to_buffer (obuf, buffer, buflen)]: at most [buflen] octets
    of what was written to [obuf]. *)
Definition iobuf_temp_to_buffer (obuf : list byte) (buflen : Z) : list byte :=
  firstn (Z.to_nat buflen) obuf.

(** [sizeof (kdf_params)] *)
Definition sizeof_kdf_params : Z := 256.

(** One octet of a block. *)
Definition peek1 (buf : list cell) (off : Z) : option byte :=
  match peek buf off 1 with
  | Some [b] => Some b
  | _ => None
  end.

(** Lines 117-139: the x component of the shared point. Gives [secret_x]
    and [secret_x_size]. *)
Definition extract_secret_x (nbits : Z) (pkey : pubkey)
    (shared_mpi : gcry_mpi_t) : M (list cell * Z) :=
  let nbytes := (gcry_mpi_get_nbits (pkey_1 pkey) + 7) / 8 in
  let secret_x := fresh nbytes in                       (* xmalloc_secure *)
  calling Call_mpi_print ;;;
  let (rc, octets) := gcry_mpi_print nbytes shared_mpi in
  check_rc rc ;;;
  secret_x <- defined (poke secret_x 0 octets) ;;
  let nbytes := zlen octets in
  let secret_x_size := (nbits + 7) / 8 in
  assert (nbytes >? secret_x_size) ;;;
  secret_x <- defined (memmove secret_x 0 1 secret_x_size) ;;
  secret_x <- defined (memset secret_x secret_x_size 0
                         (nbytes - secret_x_size)) ;;
  ret (secret_x, secret_x_size).

(** Lines 160-179: the checks on the [kdf_params_size] octets of
    [kdf_params]; gives [kdf_hash_algo] and [kdf_encr_algo]. *)
Definition decode_kek_params (kdf_params : list byte)
  : gpg_error_t + (Z * Z) :=
  let kdf_params_size := zlen kdf_params in
  let at_ i := Z_of_byte (nth i kdf_params x00) in
  (* Expect 4 bytes  03 01 hash_alg symm_alg.  *)
  if negb (kdf_params_size =? 4) || negb (at_ 0%nat =? 3)
     || negb (at_ 1%nat =? 1)
  then inl GPG_ERR_BAD_PUBKEY
  else
    let kdf_hash_algo := at_ 2%nat in
    let kdf_encr_algo := at_ 3%nat in
    if negb (kdf_hash_algo =? GCRY_MD_SHA256)
       && negb (kdf_hash_algo =? GCRY_MD_SHA384)
       && negb (kdf_hash_algo =? GCRY_MD_SHA512)
    then inl GPG_ERR_BAD_PUBKEY
    else if negb (kdf_encr_algo =? GCRY_CIPHER_AES128)
            && negb (kdf_encr_algo =? GCRY_CIPHER_AES192)
            && negb (kdf_encr_algo =? GCRY_CIPHER_AES256)
    then inl GPG_ERR_BAD_PUBKEY
    else inr (kdf_hash_algo, kdf_encr_algo).

(** Lines 149-180. The return code of the write is not looked at. *)
Definition read_kek_params (pkey : pubkey) : M (Z * Z) :=
  let (_, obuf) := iobuf_write_size_body_mpi (pkey_2 pkey) in
  let kdf_params := iobuf_temp_to_buffer obuf sizeof_kdf_params in
  match decode_kek_params kdf_params with
  | inl rc => return_ rc
  | inr algos => ret algos
  end.

(** The fixed-length field 4: 20 octets, the terminating NUL not among
    them. *)
Definition anonymous_sender : list byte :=
  [ x41; x6e; x6f; x6e; x79; x6d; x6f; x75; x73; x20;     (* Anonymous_ *)
    x53; x65; x6e; x64; x65; x72; x20; x20; x20; x20 ].   (* Sender____ *)

(** Lines 182-207: [kdf_params] and, as its length, [kdf_params_size]. *)
Definition build_kdf_params (pkey : pubkey) (pk_fp : list byte)
  : M (list byte) :=
  (* variable-length field 1, curve name OID *)
  let (rc, field1) := iobuf_write_size_body_mpi (pkey_0 pkey) in
  (* fixed-length field 2 *)
  let field2 := [byte_of_Z PUBKEY_ALGO_ECDH] in
  (* variable-length field 3, KDF params *)
  let (rc, field3) :=
    if is_error rc then (rc, [])
    else iobuf_write_size_body_mpi (pkey_2 pkey) in
  (* fixed-length field 4 *)
  let field4 := anonymous_sender in
  (* fixed-length field 5, recipient fp *)
  field5 <- defined (peek (map Some pk_fp) 0 20) ;;
  let obuf := field1 ++ field2 ++ field3 ++ field4 ++ field5 in
  let kdf_params := iobuf_temp_to_buffer obuf sizeof_kdf_params in
  check_rc rc ;;;
  ret kdf_params.

(** Lines 209-239: [secret_x] is overwritten with the KEK. Gives
    [secret_x] and the new [secret_x_size]. *)
Definition derive_kek (kdf_hash_algo kdf_encr_algo : Z)
    (secret_x : list cell) (secret_x_size : Z) (kdf_params : list byte)
  : M (list cell * Z) :=
  calling Call_md_open ;;;
  (if is_error (gcry_md_open kdf_hash_algo) then log_bug else ret tt) ;;;
  x <- defined (peek secret_x 0 secret_x_size) ;;
  calling Call_md_final ;;;
  let digest :=
    gcry_md_read kdf_hash_algo
      ([x00; x00; x00; x01]          (* counter = 1 *)
       ++ x                          (* x of the point X *)
       ++ kdf_params) in             (* KDF parameters *)
  assert (gcry_md_get_algo_dlen kdf_hash_algo >=? 32) ;;;
  d <- defined (peek (map Some digest) 0
                  (gcry_md_get_algo_dlen kdf_hash_algo)) ;;
  secret_x <- defined (poke secret_x 0 d) ;;
  let old_size := secret_x_size in
  assert (old_size >=? gcry_cipher_get_algo_keylen kdf_encr_algo) ;;;
  let secret_x_size := gcry_cipher_get_algo_keylen kdf_encr_algo in
  assert (secret_x_size <=? gcry_md_get_algo_dlen kdf_hash_algo) ;;;
  (* We could have allocated more, so clean the tail before returning.  *)
  secret_x <- defined (memset secret_x secret_x_size
                         (old_size - secret_x_size) 0) ;;
  ret (secret_x, secret_x_size).

(** Lines 241-379: aeswrap with key [secret_x]. Always leaves the
    function. *)
Definition aeswrap_data (is_encrypt : bool) (kdf_encr_algo : Z)
    (secret_x : list cell) (secret_x_size : Z) (data : gcry_mpi_t)
  : M unit :=
  calling Call_cipher_open ;;;
  check_rc (gcry_cipher_open kdf_encr_algo) ;;;
  key <- defined (peek secret_x 0 secret_x_size) ;;
  calling Call_cipher_setkey ;;;
  check_rc (gcry_cipher_setkey kdf_encr_algo key) ;;;
  let data_buf_size := (gcry_mpi_get_nbits data + 7) / 8 in
  assert (Z.land data_buf_size 7 =? (if is_encrypt then 0 else 1)) ;;;
  if negb (xtrymalloc_secure (1 + 2 * data_buf_size + 8))
  then return_ GPG_ERR_ENOMEM
  else
    let data_buf := fresh (1 + 2 * data_buf_size + 8) in
    if is_encrypt then
      let in_ := 1 + data_buf_size + 8 in
      (* Write data MPI into the end of data_buf.  *)
      calling Call_mpi_print ;;;
      let (rc, octets) := gcry_mpi_print data_buf_size data in
      check_rc rc ;;;
      data_buf <- defined (poke data_buf in_ octets) ;;
      plain <- defined (peek data_buf in_ data_buf_size) ;;
      calling Call_cipher_encrypt ;;;
      let (rc, wrapped) :=
        gcry_cipher_encrypt kdf_encr_algo key (data_buf_size + 8) plain in
      data_buf <- defined (poke data_buf 1 wrapped) ;;
      data_buf <- defined (memset data_buf in_ 0 data_buf_size) ;;
      check_rc rc ;;;
      data_buf <- defined (poke data_buf 0
                             [byte_of_Z (data_buf_size + 8)]) ;;
      data_buf_0 <- defined (peek1 data_buf 0) ;;
      (* (byte)size + aeswrap of DEK *)
      octets <- defined (peek data_buf 0 (1 + Z_of_byte data_buf_0)) ;;
      calling Call_mpi_scan ;;;
      return_out GPG_ERR_NO_ERROR (gcry_mpi_scan octets)
    else
      calling Call_mpi_print ;;;
      let (rc, octets) := gcry_mpi_print data_buf_size data in
      (* rc is not looked at; after a failure nbytes is not set *)
      nbytes <- defined (if is_error rc then None else Some (zlen octets)) ;;
      data_buf <- defined (poke data_buf 0 octets) ;;
      if negb (nbytes =? data_buf_size) then return_ GPG_ERR_BAD_MPI
      else
        data_buf_0 <- defined (peek1 data_buf 0) ;;
        if negb (Z_of_byte data_buf_0 =? data_buf_size - 1)
        then return_ GPG_ERR_BAD_MPI
        else
          let in_ := data_buf_size in
          let data_buf_size := Z_of_byte data_buf_0 in
          wrapped <- defined (peek data_buf 1 data_buf_size) ;;
          calling Call_cipher_decrypt ;;;
          let (rc, plain) :=
            gcry_cipher_decrypt kdf_encr_algo key data_buf_size wrapped in
          data_buf <- defined (poke data_buf in_ plain) ;;
          check_rc rc ;;;
          let data_buf_size := data_buf_size - 8 in
          (* Padding is removed later.  *)
          octets <- defined (peek data_buf in_ data_buf_size) ;;
          calling Call_mpi_scan ;;;
          return_out GPG_ERR_NO_ERROR (gcry_mpi_scan octets).

(** The KEK derivation, lines 115-239: [kdf_encr_algo], [secret_x] and
    [secret_x_size] as the aeswrap block finds them. *)
Definition kek_of (shared_mpi : gcry_mpi_t) (pk_fp : list byte)
    (pkey : pubkey) : M (Z * list cell * Z) :=
  let nbits := Z.of_N (pubkey_nbits PUBKEY_ALGO_ECDH pkey) in
  sx <- extract_secret_x nbits pkey shared_mpi ;;
  algos <- read_kek_params pkey ;;
  kdf_params <- build_kdf_params pkey pk_fp ;;
  kek <- derive_kek (fst algos) (snd algos) (fst sx) (snd sx) kdf_params ;;
  ret (snd algos, fst kek, snd kek).

(** [static int pk_ecdh_encrypt_with_shared_point (int is_encrypt,
    gcry_mpi_t shared_mpi, const byte pk_fp[MAX_FINGERPRINT_LEN],
    gcry_mpi_t data, gcry_mpi_t *pkey, gcry_mpi_t *out)] *)
Definition pk_ecdh_encrypt_with_shared_point (is_encrypt : bool)
    (shared_mpi : gcry_mpi_t) (pk_fp : list byte) (data : gcry_mpi_t)
    (pkey : pubkey) : list call * outcome retval :=
  run (k <- kek_of shared_mpi pk_fp pkey ;;
       aeswrap_data is_encrypt (fst (fst k)) (snd (fst k)) (snd k) data).

(** [int pk_ecdh_decrypt (gcry_mpi_t *result, const byte sk_fp[],
    gcry_mpi_t data, gcry_mpi_t shared, gcry_mpi_t *skey)]; [gpg_error]
    only adds the error source to the code. *)
Definition pk_ecdh_decrypt (sk_fp : list byte) (data : option gcry_mpi_t)
    (shared : gcry_mpi_t) (skey : pubkey) : list call * outcome retval :=
  match data with
  | None => ([], Returns (GPG_ERR_BAD_MPI, None))
  | Some data =>
      pk_ecdh_encrypt_with_shared_point false shared sk_fp data skey
  end.

End Ecdh.

(* ================================================================== *)
(** * What the specification says, in its own terms *)

(** The octet length of an MPI, [(nbits+7)/8]. *)
Definition mpi_nbytes (a : gcry_mpi_t) : Z := (gcry_mpi_get_nbits a + 7) / 8.

(** The row that the specification selects: the first one whose threshold
    is at least [q], the last one when there is none. *)
Definition select_kek_row (q : Z) : kek_params_row :=
  match find (fun row => qbits row >=? q) kek_params_table with
  | Some row => row
  | None =>
      last kek_params_table
        {| qbits := 0; openpgp_hash_id := 0; openpgp_cipher_id := 0 |}
  end.

(** The canonical encoding 03 01 hash cipher. *)
Definition kek_params_blob (row : kek_params_row) : list byte :=
  [x03; x01; byte_of_Z (openpgp_hash_id row);
   byte_of_Z (openpgp_cipher_id row)].

(** The format of the specification: 03 01 hash cipher, the hash one of
    SHA-256, SHA-384, SHA-512 and the cipher one of AES-128, -192, -256. *)
Definition valid_kek_params (blob : list byte) : Prop :=
  exists h c : byte,
    blob = [x03; x01; h; c]
    /\ In (Z_of_byte h)
         [DIGEST_ALGO_SHA256; DIGEST_ALGO_SHA384; DIGEST_ALGO_SHA512]
    /\ In (Z_of_byte c)
         [CIPHER_ALGO_AES; CIPHER_ALGO_AES192; CIPHER_ALGO_AES256].

(** ** What the callers and the proofs ask of a backend and of a key *)

(** The contract of the libgcrypt calls: the digests have their length, the
    AES handles open and take keys of their length, and the key wrap of
    RFC 3394 adds 8 octets and is undone by the unwrap. *)
Record backend_ok (B : Backend) : Prop := {
  md_open_ok : forall algo,
    gcry_md_get_algo_dlen algo <> 0 -> gcry_md_open algo = GPG_ERR_NO_ERROR;
  md_read_length : forall algo msg,
    zlen (gcry_md_read algo msg) = gcry_md_get_algo_dlen algo;
  cipher_open_ok : forall algo,
    gcry_cipher_get_algo_keylen algo <> 0 ->
    gcry_cipher_open algo = GPG_ERR_NO_ERROR;
  cipher_setkey_ok : forall algo key,
    gcry_cipher_get_algo_keylen algo <> 0 ->
    zlen key = gcry_cipher_get_algo_keylen algo ->
    gcry_cipher_setkey algo key = GPG_ERR_NO_ERROR;
  wrap_ok : forall algo key outsize plain,
    zlen plain mod 8 = 0 -> 16 <= zlen plain -> zlen plain + 8 <= outsize ->
    exists wrapped,
      gcry_cipher_encrypt algo key outsize plain
      = (GPG_ERR_NO_ERROR, wrapped)
      /\ zlen wrapped = zlen plain + 8;
  unwrap_wrap : forall algo key outsize outsize' plain wrapped,
    gcry_cipher_encrypt algo key outsize plain
    = (GPG_ERR_NO_ERROR, wrapped) ->
    zlen wrapped <= outsize' + 8 ->
    gcry_cipher_decrypt algo key outsize' wrapped
    = (GPG_ERR_NO_ERROR, plain);
  decrypt_bounded : forall algo key outsize wrapped,
    0 <= outsize ->
    zlen (snd (gcry_cipher_decrypt algo key outsize wrapped)) <= outsize
}.


Section Key.
Context {B : Backend}.
Variables (shared_mpi : gcry_mpi_t) (pk_fp : list byte) (pkey : pubkey).

(** The octets of a coordinate, [secret_x_size] of lines 132. *)
Definition coordinate_size : Z :=
  (Z.of_N (pubkey_nbits PUBKEY_ALGO_ECDH pkey) + 7) / 8.

(** Key material on which the derivation of the KEK goes through: the
    shared point fits the block that is as long as the public point and
    has more octets than a coordinate; the curve OID [oid] and the KEK
    parameters 03 01 [h] [c] are written without error; the fingerprint
    has its 20 octets; the digest fits the block and the key is no longer
    than a coordinate. *)
Record key_ok (oid : list byte) (h c : byte) : Prop := {
  ko_fits : mpi_nbytes shared_mpi <= mpi_nbytes (pkey_1 pkey);
  ko_framed : coordinate_size < mpi_nbytes shared_mpi;
  ko_oid : iobuf_write_size_body_mpi (pkey_0 pkey) = (GPG_ERR_NO_ERROR, oid);
  ko_kek : iobuf_write_size_body_mpi (pkey_2 pkey)
           = (GPG_ERR_NO_ERROR, [x03; x01; h; c]);
  ko_hash : In (Z_of_byte h)
              [DIGEST_ALGO_SHA256; DIGEST_ALGO_SHA384; DIGEST_ALGO_SHA512];
  ko_cipher : In (Z_of_byte c)
                [CIPHER_ALGO_AES; CIPHER_ALGO_AES192; CIPHER_ALGO_AES256];
  ko_fp : 20 <= zlen pk_fp;
  ko_digest : gcry_md_get_algo_dlen (Z_of_byte h)
              <= mpi_nbytes (pkey_1 pkey);
  ko_keylen : gcry_cipher_get_algo_keylen (Z_of_byte c) <= coordinate_size
}.

(** The shared secret: the octets [1 .. 1+n) of the shared point. *)
Definition shared_secret : list byte :=
  firstn (Z.to_nat coordinate_size) (skipn 1 (mpi_octets shared_mpi)).

(** The KDF parameters as RFC 6637 lays them out, cut to the buffer. *)
Definition kdf_params_of (oid : list byte) (h c : byte) : list byte :=
  firstn 256 (oid ++ [x12] ++ [x03; x01; h; c] ++ anonymous_sender
              ++ firstn 20 pk_fp).

(** The digest of counter, shared secret and KDF parameters. *)
Definition kdf_digest (oid : list byte) (h c : byte) : list byte :=
  gcry_md_read (Z_of_byte h)
    ([x00; x00; x00; x01] ++ shared_secret ++ kdf_params_of oid h c).

(** The KEK: the first octets of that digest, as many as the key takes. *)
Definition kek_octets (oid : list byte) (h c : byte) : list byte :=
  firstn (Z.to_nat (gcry_cipher_get_algo_keylen (Z_of_byte c)))
         (kdf_digest oid h c).

(** The block that holds the KEK after line 236: the whole digest, and
    behind it what the block held before. *)
Definition secret_x_after_kdf (oid : list byte) (h c : byte) : list cell :=
  map Some (kdf_digest oid h c)
  ++ skipn (Z.to_nat (gcry_md_get_algo_dlen (Z_of_byte h)))
       (map Some (shared_secret
                  ++ repeat x00 (Z.to_nat (mpi_nbytes shared_mpi
                                           - coordinate_size)))
        ++ fresh (mpi_nbytes (pkey_1 pkey) - mpi_nbytes shared_mpi)).

End Key.

(* ================================================================== *)
(** * A reference backend

    libgcrypt is not part of GnuPG. To run the functions above on concrete
    keys, its three algorithms are written out here from their standards:
    SHA-2 from FIPS 180-4, AES from FIPS 197 and the key wrap from RFC 3394,
    with the argument checks and return codes of libgcrypt's AESWRAP mode. *)

Module SHA2.

Local Open Scope N_scope.

(** Arithmetic on [w]-bit words. *)
Definition trunc (w x : N) : N := N.land x (N.ones w).
Definition rotr (w n x : N) : N :=
  N.lor (N.shiftr x n) (trunc w (N.shiftl x (w - n))).
Definition add (w a b : N) : N := trunc w (a + b).

Definition Ch (x y z : N) : N := N.lxor z (N.land x (N.lxor y z)).
Definition Maj (x y z : N) : N :=
  N.lxor (N.lxor (N.land x y) (N.land x z)) (N.land y z).

(** The parameters in which SHA-256 and SHA-384/512 differ. *)
Record variant : Set := {
  wbits : N;                   (* word size *)
  Sigma0 : N * N * N;          (* rotations of the large sigmas *)
  Sigma1 : N * N * N;
  sigma0 : N * N * N;          (* two rotations and a shift *)
  sigma1 : N * N * N;
  K : list N;
  H0 : list N;
  outlen : nat                 (* octets of the digest *)
}.

Definition K512 : list N :=
  [
    0x428a2f98d728ae22; 0x7137449123ef65cd;
    0xb5c0fbcfec4d3b2f; 0xe9b5dba58189dbbc;
    0x3956c25bf348b538; 0x59f111f1b605d019;
    0x923f82a4af194f9b; 0xab1c5ed5da6d8118;
    0xd807aa98a3030242; 0x12835b0145706fbe;
    0x243185be4ee4b28c; 0x550c7dc3d5ffb4e2;
    0x72be5d74f27b896f; 0x80deb1fe3b1696b1;
    0x9bdc06a725c71235; 0xc19bf174cf692694;
    0xe49b69c19ef14ad2; 0xefbe4786384f25e3;
    0x0fc19dc68b8cd5b5; 0x240ca1cc77ac9c65;
    0x2de92c6f592b0275; 0x4a7484aa6ea6e483;
    0x5cb0a9dcbd41fbd4; 0x76f988da831153b5;
    0x983e5152ee66dfab; 0xa831c66d2db43210;
    0xb00327c898fb213f; 0xbf597fc7beef0ee4;
    0xc6e00bf33da88fc2; 0xd5a79147930aa725;
    0x06ca6351e003826f; 0x142929670a0e6e70;
    0x27b70a8546d22ffc; 0x2e1b21385c26c926;
    0x4d2c6dfc5ac42aed; 0x53380d139d95b3df;
    0x650a73548baf63de; 0x766a0abb3c77b2a8;
    0x81c2c92e47edaee6; 0x92722c851482353b;
    0xa2bfe8a14cf10364; 0xa81a664bbc423001;
    0xc24b8b70d0f89791; 0xc76c51a30654be30;
    0xd192e819d6ef5218; 0xd69906245565a910;
    0xf40e35855771202a; 0x106aa07032bbd1b8;
    0x19a4c116b8d2d0c8; 0x1e376c085141ab53;
    0x2748774cdf8eeb99; 0x34b0bcb5e19b48a8;
    0x391c0cb3c5c95a63; 0x4ed8aa4ae3418acb;
    0x5b9cca4f7763e373; 0x682e6ff3d6b2b8a3;
    0x748f82ee5defb2fc; 0x78a5636f43172f60;
    0x84c87814a1f0ab72; 0x8cc702081a6439ec;
    0x90befffa23631e28; 0xa4506cebde82bde9;
    0xbef9a3f7b2c67915; 0xc67178f2e372532b;
    0xca273eceea26619c; 0xd186b8c721c0c207;
    0xeada7dd6cde0eb1e; 0xf57d4f7fee6ed178;
    0x06f067aa72176fba; 0x0a637dc5a2c898a6;
    0x113f9804bef90dae; 0x1b710b35131c471b;
    0x28db77f523047d84; 0x32caab7b40c72493;
    0x3c9ebe0a15c9bebc; 0x431d67c49c100d4c;
    0x4cc5d4becb3e42b6; 0x597f299cfc657e2a;
    0x5fcb6fab3ad6faec; 0x6c44198c4a475817
  ]%N.

(** The round constants of SHA-256 are the upper halves of the first 64
    of SHA-512: both are the leading bits of the fractional parts of the
    cube roots of the primes. *)
Definition K256 : list N :=
  map (fun k => N.shiftr k 32) (firstn 64 K512).

Definition H384 : list N :=
  [
    0xcbbb9d5dc1059ed8; 0x629a292a367cd507;
    0x9159015a3070dd17; 0x152fecd8f70e5939;
    0x67332667ffc00b31; 0x8eb44a8768581511;
    0xdb0c2e0d64f98fa7; 0x47b5481dbefa4fa4
  ]%N.

Definition H512 : list N :=
  [
    0x6a09e667f3bcc908; 0xbb67ae8584caa73b;
    0x3c6ef372fe94f82b; 0xa54ff53a5f1d36f1;
    0x510e527fade682d1; 0x9b05688c2b3e6c1f;
    0x1f83d9abfb41bd6b; 0x5be0cd19137e2179
  ]%N.

(** And so for the initial hash values (square roots of the primes). *)
Definition H256 : list N :=
  map (fun h => N.shiftr h 32) H512.

Definition sha256 : variant :=
  {| wbits := 32; Sigma0 := (2, 13, 22); Sigma1 := (6, 11, 25);
     sigma0 := (7, 18, 3); sigma1 := (17, 19, 10);
     K := K256; H0 := H256; outlen := 32 |}.

Definition sha384 : variant :=
  {| wbits := 64; Sigma0 := (28, 34, 39); Sigma1 := (14, 18, 41);
     sigma0 := (1, 8, 7); sigma1 := (19, 61, 6);
     K := K512; H0 := H384; outlen := 48 |}.

Definition sha512 : variant :=
  {| wbits := 64; Sigma0 := (28, 34, 39); Sigma1 := (14, 18, 41);
     sigma0 := (1, 8, 7); sigma1 := (19, 61, 6);
     K := K512; H0 := H512; outlen := 64 |}.

Section Variant.
Variable v : variant.
Let w := wbits v.

Definition big_sigma (r : N * N * N) (x : N) : N :=
  let '(a, b, c) := r in
  N.lxor (N.lxor (rotr w a x) (rotr w b x)) (rotr w c x).

Definition small_sigma (r : N * N * N) (x : N) : N :=
  let '(a, b, c) := r in
  N.lxor (N.lxor (rotr w a x) (rotr w b x)) (N.shiftr x c).

(** The message schedule, newest word first: [k] more words. *)
Fixpoint schedule (k : nat) (ws : list N) : list N :=
  match k with
  | O => ws
  | S k' =>
      let wt := add w (add w (small_sigma (sigma1 v) (nth 1 ws 0))
                             (nth 6 ws 0))
                      (add w (small_sigma (sigma0 v) (nth 14 ws 0))
                             (nth 15 ws 0)) in
      schedule k' (wt :: ws)
  end.

(** The eight working variables. *)
Definition regs : Set := (N * N * N * N * N * N * N * N)%type.

Definition round (s : regs) (kw : N * N) : regs :=
  let '(a, b, c, d, e, f, g, h) := s in
  let T1 := add w (add w (add w h (big_sigma (Sigma1 v) e))
                         (add w (Ch e f g) (fst kw))) (snd kw) in
  let T2 := add w (big_sigma (Sigma0 v) a) (Maj a b c) in
  (add w T1 T2, a, b, c, add w d T1, e, f, g).

Definition add_regs (s t : regs) : regs :=
  let '(a, b, c, d, e, f, g, h) := s in
  let '(a', b', c', d', e', f', g', h') := t in
  (add w a a', add w b b', add w c c', add w d d',
   add w e e', add w f f', add w g g', add w h h').

(** One block, given as its sixteen words. *)
Definition compress (s : regs) (block : list N) : regs :=
  let ws := rev (schedule (length (K v) - 16) (rev block)) in
  add_regs s (fold_left round (combine (K v) ws) s).

Definition word_of_bytes (bs : list byte) : N := gcry_mpi_scan bs.

(** [l] cut in pieces of [n]; [fuel] is at least the number of pieces. *)
Fixpoint chunks {A : Type} (fuel n : nat) (l : list A) : list (list A) :=
  match fuel with
  | O => []
  | S fuel' =>
      match l with
      | [] => []
      | _ => firstn n l :: chunks fuel' n (skipn n l)
      end
  end.

Definition wbytes : nat := N.to_nat (w / 8).
Definition block_bytes : nat := (16 * wbytes)%nat.

(** Padding: a one bit, zeros, and the length in bits in two words. *)
Definition pad (msg : list byte) : list byte :=
  let len := length msg in
  let used := (len + 1 + 2 * wbytes)%nat in
  let zeros := ((block_bytes - used mod block_bytes) mod block_bytes)%nat in
  msg ++ [x80] ++ repeat x00 zeros
      ++ be_bytes (2 * wbytes) (8 * N.of_nat len).

Definition regs_of_list (l : list N) : regs :=
  (nth 0 l 0, nth 1 l 0, nth 2 l 0, nth 3 l 0,
   nth 4 l 0, nth 5 l 0, nth 6 l 0, nth 7 l 0).

Definition list_of_regs (s : regs) : list N :=
  let '(a, b, c, d, e, f, g, h) := s in [a; b; c; d; e; f; g; h].

Definition digest (msg : list byte) : list byte :=
  let padded := pad msg in
  let blocks := chunks (length padded) block_bytes padded in
  let words b := map word_of_bytes (chunks 16 wbytes b) in
  let s := fold_left (fun s b => compress s (words b)) blocks
             (regs_of_list (H0 v)) in
  firstn (outlen v) (flat_map (be_bytes wbytes) (list_of_regs s)).

End Variant.
End SHA2.

Module AES.

Definition byte_of_N (n : N) : byte :=
  match Byte.of_N n with Some b => b | None => x00 end.

Definition bxor (a b : byte) : byte :=
  byte_of_N (N.lxor (Byte.to_N a) (Byte.to_N b)).

(** Octet-wise exclusive or; where [k] ends, [s] is kept. *)
Fixpoint xor_bytes (s k : list byte) : list byte :=
  match s, k with
  | a :: s', b :: k' => bxor a b :: xor_bytes s' k'
  | _, _ => s
  end.

(** Multiplication by x in GF(2^8), modulo x^8 + x^4 + x^3 + x + 1. *)
Definition xtime (b : byte) : byte :=
  let n := (2 * Byte.to_N b)%N in
  if (n <? 256)%N then byte_of_N n
  else byte_of_N (N.lxor (n - 256) 0x1b).

Definition mul2 (b : byte) : byte := xtime b.
Definition mul3 (b : byte) : byte := bxor (xtime b) b.
Definition mul4 (b : byte) : byte := xtime (xtime b).
Definition mul8 (b : byte) : byte := xtime (mul4 b).
Definition mul9 (b : byte) : byte := bxor (mul8 b) b.
Definition mul11 (b : byte) : byte := bxor (bxor (mul8 b) (mul2 b)) b.
Definition mul13 (b : byte) : byte := bxor (bxor (mul8 b) (mul4 b)) b.
Definition mul14 (b : byte) : byte := bxor (bxor (mul8 b) (mul4 b)) (mul2 b).

Definition sbox_table : list byte :=
  [
    x63; x7c; x77; x7b; xf2; x6b; x6f; xc5; x30; x01; x67; x2b; xfe; xd7; xab; x76;
    xca; x82; xc9; x7d; xfa; x59; x47; xf0; xad; xd4; xa2; xaf; x9c; xa4; x72; xc0;
    xb7; xfd; x93; x26; x36; x3f; xf7; xcc; x34; xa5; xe5; xf1; x71; xd8; x31; x15;
    x04; xc7; x23; xc3; x18; x96; x05; x9a; x07; x12; x80; xe2; xeb; x27; xb2; x75;
    x09; x83; x2c; x1a; x1b; x6e; x5a; xa0; x52; x3b; xd6; xb3; x29; xe3; x2f; x84;
    x53; xd1; x00; xed; x20; xfc; xb1; x5b; x6a; xcb; xbe; x39; x4a; x4c; x58; xcf;
    xd0; xef; xaa; xfb; x43; x4d; x33; x85; x45; xf9; x02; x7f; x50; x3c; x9f; xa8;
    x51; xa3; x40; x8f; x92; x9d; x38; xf5; xbc; xb6; xda; x21; x10; xff; xf3; xd2;
    xcd; x0c; x13; xec; x5f; x97; x44; x17; xc4; xa7; x7e; x3d; x64; x5d; x19; x73;
    x60; x81; x4f; xdc; x22; x2a; x90; x88; x46; xee; xb8; x14; xde; x5e; x0b; xdb;
    xe0; x32; x3a; x0a; x49; x06; x24; x5c; xc2; xd3; xac; x62; x91; x95; xe4; x79;
    xe7; xc8; x37; x6d; x8d; xd5; x4e; xa9; x6c; x56; xf4; xea; x65; x7a; xae; x08;
    xba; x78; x25; x2e; x1c; xa6; xb4; xc6; xe8; xdd; x74; x1f; x4b; xbd; x8b; x8a;
    x70; x3e; xb5; x66; x48; x03; xf6; x0e; x61; x35; x57; xb9; x86; xc1; x1d; x9e;
    xe1; xf8; x98; x11; x69; xd9; x8e; x94; x9b; x1e; x87; xe9; xce; x55; x28; xdf;
    x8c; xa1; x89; x0d; xbf; xe6; x42; x68; x41; x99; x2d; x0f; xb0; x54; xbb; x16
  ].

Definition inv_sbox_table : list byte :=
  [
    x52; x09; x6a; xd5; x30; x36; xa5; x38; xbf; x40; xa3; x9e; x81; xf3; xd7; xfb;
    x7c; xe3; x39; x82; x9b; x2f; xff; x87; x34; x8e; x43; x44; xc4; xde; xe9; xcb;
    x54; x7b; x94; x32; xa6; xc2; x23; x3d; xee; x4c; x95; x0b; x42; xfa; xc3; x4e;
    x08; x2e; xa1; x66; x28; xd9; x24; xb2; x76; x5b; xa2; x49; x6d; x8b; xd1; x25;
    x72; xf8; xf6; x64; x86; x68; x98; x16; xd4; xa4; x5c; xcc; x5d; x65; xb6; x92;
    x6c; x70; x48; x50; xfd; xed; xb9; xda; x5e; x15; x46; x57; xa7; x8d; x9d; x84;
    x90; xd8; xab; x00; x8c; xbc; xd3; x0a; xf7; xe4; x58; x05; xb8; xb3; x45; x06;
    xd0; x2c; x1e; x8f; xca; x3f; x0f; x02; xc1; xaf; xbd; x03; x01; x13; x8a; x6b;
    x3a; x91; x11; x41; x4f; x67; xdc; xea; x97; xf2; xcf; xce; xf0; xb4; xe6; x73;
    x96; xac; x74; x22; xe7; xad; x35; x85; xe2; xf9; x37; xe8; x1c; x75; xdf; x6e;
    x47; xf1; x1a; x71; x1d; x29; xc5; x89; x6f; xb7; x62; x0e; xaa; x18; xbe; x1b;
    xfc; x56; x3e; x4b; xc6; xd2; x79; x20; x9a; xdb; xc0; xfe; x78; xcd; x5a; xf4;
    x1f; xdd; xa8; x33; x88; x07; xc7; x31; xb1; x12; x10; x59; x27; x80; xec; x5f;
    x60; x51; x7f; xa9; x19; xb5; x4a; x0d; x2d; xe5; x7a; x9f; x93; xc9; x9c; xef;
    xa0; xe0; x3b; x4d; xae; x2a; xf5; xb0; xc8; xeb; xbb; x3c; x83; x53; x99; x61;
    x17; x2b; x04; x7e; xba; x77; xd6; x26; xe1; x69; x14; x63; x55; x21; x0c; x7d
  ].

(** Every octet. *)
Definition all_bytes : list byte :=
  [
    x00; x01; x02; x03; x04; x05; x06; x07; x08; x09; x0a; x0b; x0c; x0d; x0e; x0f;
    x10; x11; x12; x13; x14; x15; x16; x17; x18; x19; x1a; x1b; x1c; x1d; x1e; x1f;
    x20; x21; x22; x23; x24; x25; x26; x27; x28; x29; x2a; x2b; x2c; x2d; x2e; x2f;
    x30; x31; x32; x33; x34; x35; x36; x37; x38; x39; x3a; x3b; x3c; x3d; x3e; x3f;
    x40; x41; x42; x43; x44; x45; x46; x47; x48; x49; x4a; x4b; x4c; x4d; x4e; x4f;
    x50; x51; x52; x53; x54; x55; x56; x57; x58; x59; x5a; x5b; x5c; x5d; x5e; x5f;
    x60; x61; x62; x63; x64; x65; x66; x67; x68; x69; x6a; x6b; x6c; x6d; x6e; x6f;
    x70; x71; x72; x73; x74; x75; x76; x77; x78; x79; x7a; x7b; x7c; x7d; x7e; x7f;
    x80; x81; x82; x83; x84; x85; x86; x87; x88; x89; x8a; x8b; x8c; x8d; x8e; x8f;
    x90; x91; x92; x93; x94; x95; x96; x97; x98; x99; x9a; x9b; x9c; x9d; x9e; x9f;
    xa0; xa1; xa2; xa3; xa4; xa5; xa6; xa7; xa8; xa9; xaa; xab; xac; xad; xae; xaf;
    xb0; xb1; xb2; xb3; xb4; xb5; xb6; xb7; xb8; xb9; xba; xbb; xbc; xbd; xbe; xbf;
    xc0; xc1; xc2; xc3; xc4; xc5; xc6; xc7; xc8; xc9; xca; xcb; xcc; xcd; xce; xcf;
    xd0; xd1; xd2; xd3; xd4; xd5; xd6; xd7; xd8; xd9; xda; xdb; xdc; xdd; xde; xdf;
    xe0; xe1; xe2; xe3; xe4; xe5; xe6; xe7; xe8; xe9; xea; xeb; xec; xed; xee; xef;
    xf0; xf1; xf2; xf3; xf4; xf5; xf6; xf7; xf8; xf9; xfa; xfb; xfc; xfd; xfe; xff
  ].

Definition sbox (b : byte) : byte :=
  nth (N.to_nat (Byte.to_N b)) sbox_table x00.
Definition inv_sbox (b : byte) : byte :=
  nth (N.to_nat (Byte.to_N b)) inv_sbox_table x00.

Definition sub_bytes : list byte -> list byte := map sbox.
Definition inv_sub_bytes : list byte -> list byte := map inv_sbox.

(** The state is the block in its order of octets: column after column. *)
Definition shift_rows (s : list byte) : list byte :=
  match s with
  | [s0; s1; s2; s3; s4; s5; s6; s7; s8; s9; s10; s11; s12; s13; s14; s15] =>
      [s0; s5; s10; s15; s4; s9; s14; s3; s8; s13; s2; s7; s12; s1; s6; s11]
  | _ => s
  end.

Definition inv_shift_rows (s : list byte) : list byte :=
  match s with
  | [s0; s1; s2; s3; s4; s5; s6; s7; s8; s9; s10; s11; s12; s13; s14; s15] =>
      [s0; s13; s10; s7; s4; s1; s14; s11; s8; s5; s2; s15; s12; s9; s6; s3]
  | _ => s
  end.

Fixpoint mix_columns (s : list byte) : list byte :=
  match s with
  | a :: b :: c :: d :: r =>
      bxor (bxor (mul2 a) (mul3 b)) (bxor c d)
      :: bxor (bxor a (mul2 b)) (bxor (mul3 c) d)
      :: bxor (bxor a b) (bxor (mul2 c) (mul3 d))
      :: bxor (bxor (mul3 a) b) (bxor c (mul2 d))
      :: mix_columns r
  | _ => s
  end.

Fixpoint inv_mix_columns (s : list byte) : list byte :=
  match s with
  | a :: b :: c :: d :: r =>
      bxor (bxor (mul14 a) (mul11 b)) (bxor (mul13 c) (mul9 d))
      :: bxor (bxor (mul9 a) (mul14 b)) (bxor (mul11 c) (mul13 d))
      :: bxor (bxor (mul13 a) (mul9 b)) (bxor (mul14 c) (mul11 d))
      :: bxor (bxor (mul11 a) (mul13 b)) (bxor (mul9 c) (mul14 d))
      :: inv_mix_columns r
  | _ => s
  end.

(** Key expansion. Words are lists of four octets; [ws] holds the words
    made so far, newest first, and [i] is the index of the next one. *)
Definition rot_word (wd : list byte) : list byte :=
  match wd with
  | a :: r => r ++ [a]
  | [] => []
  end.

Fixpoint rcon (j : nat) : byte :=
  match j with
  | O => x01
  | S j' => xtime (rcon j')
  end.

Fixpoint expand (k : nat) (Nk i : nat) (ws : list (list byte))
  : list (list byte) :=
  match k with
  | O => ws
  | S k' =>
      let temp := nth 0 ws [] in
      let temp :=
        if (i mod Nk =? 0)%nat then
          xor_bytes (map sbox (rot_word temp)) [rcon (i / Nk - 1)]
        else if ((6 <? Nk) && (i mod Nk =? 4))%nat then map sbox temp
        else temp in
      expand k' Nk (S i) (xor_bytes (nth (Nk - 1) ws []) temp :: ws)
  end.

(** The round keys of a key of 16, 24 or 32 octets: Nr + 1 of them. *)
Definition round_keys (key : list byte) : list (list byte) :=
  let Nk := (length key / 4)%nat in
  let Nr := (Nk + 6)%nat in
  let w0 := rev (SHA2.chunks Nk 4 key) in
  let ws := rev (expand (4 * (Nr + 1) - Nk) Nk Nk w0) in
  map (@concat byte) (SHA2.chunks (Nr + 1) 4 ws).

Definition enc_round (s rk : list byte) : list byte :=
  xor_bytes (mix_columns (shift_rows (sub_bytes s))) rk.

Definition dec_round (s rk : list byte) : list byte :=
  inv_mix_columns (xor_bytes (inv_sub_bytes (inv_shift_rows s)) rk).

(** The cipher and its inverse on round keys [k0 :: middle ++ [kn]]. *)
Definition cipher (rks : list (list byte)) (block : list byte) : list byte :=
  match rks with
  | [] => block
  | k0 :: rest =>
      let s := xor_bytes block k0 in
      let s := fold_left enc_round (removelast rest) s in
      xor_bytes (shift_rows (sub_bytes s)) (last rest [])
  end.

Definition inv_cipher (rks : list (list byte)) (block : list byte)
  : list byte :=
  match rks with
  | [] => block
  | k0 :: rest =>
      let s := xor_bytes block (last rest []) in
      let s := fold_left dec_round (rev (removelast rest)) s in
      xor_bytes (inv_sub_bytes (inv_shift_rows s)) k0
  end.

Definition encrypt (key block : list byte) : list byte :=
  cipher (round_keys key) block.
Definition decrypt (key block : list byte) : list byte :=
  inv_cipher (round_keys key) block.

End AES.

(** RFC 3394 as libgcrypt's AESWRAP mode runs it. *)
Module KeyWrap.

(** The registers: A, and R[1] .. R[n] as one list of 8-octet blocks. *)
Definition regs : Set := (list byte * list (list byte))%type.

Definition iv : list byte := repeat xa6 8.

(** The steps of the wrap in their order: [t] and the index of the block
    (from 0), for j = 0 .. 5 and i = 1 .. n. *)
Definition steps (n : nat) : list (N * nat) :=
  flat_map (fun j => map (fun i => (N.of_nat (n * j + i + 1), i)) (seq 0 n))
           (seq 0 6).

Fixpoint update {A : Type} (l : list A) (i : nat) (a : A) : list A :=
  match l, i with
  | [], _ => []
  | _ :: r, O => a :: r
  | x :: r, S i' => x :: update r i' a
  end.

Definition wrap_step (rks : list (list byte)) (s : regs) (ti : N * nat)
  : regs :=
  let '(a, r) := s in
  let b := AES.cipher rks (a ++ nth (snd ti) r []) in
  (AES.xor_bytes (firstn 8 b) (be_bytes 8 (fst ti)),
   update r (snd ti) (skipn 8 b)).

Definition unwrap_step (rks : list (list byte)) (s : regs) (ti : N * nat)
  : regs :=
  let '(a, r) := s in
  let b := AES.inv_cipher rks
             (AES.xor_bytes a (be_bytes 8 (fst ti)) ++ nth (snd ti) r []) in
  (firstn 8 b, update r (snd ti) (skipn 8 b)).

Definition bytes_eqb (a b : list byte) : bool :=
  (length a =? length b)%nat
  && forallb (fun p => Byte.eqb (fst p) (snd p)) (combine a b).

(** [do_aeswrap_encrypt]: the return code and the octets written. *)
Definition aeswrap_encrypt (key : list byte) (outbuflen : Z)
    (inbuf : list byte) : gpg_error_t * list byte :=
  let inbuflen := zlen inbuf in
  if outbuflen <? inbuflen + 8 then (GPG_ERR_BUFFER_TOO_SHORT, [])
  else if negb (inbuflen mod 8 =? 0) then (GPG_ERR_INV_ARG, [])
  else
    let n := Z.to_nat (inbuflen / 8) in
    if (n <? 2)%nat then (GPG_ERR_INV_ARG, [])
    else
      let rks := AES.round_keys key in
      let r := SHA2.chunks n 8 inbuf in
      let '(a, r) := fold_left (wrap_step rks) (steps n) (iv, r) in
      (GPG_ERR_NO_ERROR, a ++ concat r).

(** [do_aeswrap_decrypt] *)
Definition aeswrap_decrypt (key : list byte) (outbuflen : Z)
    (inbuf : list byte) : gpg_error_t * list byte :=
  let inbuflen := zlen inbuf in
  if outbuflen + 8 <? inbuflen then (GPG_ERR_BUFFER_TOO_SHORT, [])
  else if negb (inbuflen mod 8 =? 0) then (GPG_ERR_INV_ARG, [])
  else
    let n := Z.to_nat (inbuflen / 8) in
    if (n <? 3)%nat then (GPG_ERR_INV_ARG, [])
    else
      let n := (n - 1)%nat in
      let rks := AES.round_keys key in
      let a := firstn 8 inbuf in
      let r := SHA2.chunks n 8 (skipn 8 inbuf) in
      let '(a, r) := fold_left (unwrap_step rks) (rev (steps n)) (a, r) in
      ((if bytes_eqb a iv then GPG_ERR_NO_ERROR else GPG_ERR_CHECKSUM),
       concat r).

(** The registers are well-formed: A and every R[i] have 8 octets. *)
Definition regs_ok (n : nat) (s : regs) : Prop :=
  length (fst s) = 8%nat
  /\ Forall (fun x => length x = 8%nat) (snd s)
  /\ length (snd s) = n.

End KeyWrap.

(** The backend made of them. *)
Module Reference.

Definition md_read (algo : Z) (msg : list byte) : list byte :=
  if algo =? GCRY_MD_SHA256 then SHA2.digest SHA2.sha256 msg
  else if algo =? GCRY_MD_SHA384 then SHA2.digest SHA2.sha384 msg
  else if algo =? GCRY_MD_SHA512 then SHA2.digest SHA2.sha512 msg
  else [].

Definition md_open (algo : Z) : gpg_error_t :=
  if gcry_md_get_algo_dlen algo =? 0 then GPG_ERR_INV_ARG
  else GPG_ERR_NO_ERROR.

Definition cipher_open (algo : Z) : gpg_error_t :=
  if gcry_cipher_get_algo_keylen algo =? 0 then GPG_ERR_CIPHER_ALGO
  else GPG_ERR_NO_ERROR.

(** The AES key schedule takes a key of 16, 24 or 32 octets. *)
Definition cipher_setkey (algo : Z) (key : list byte) : gpg_error_t :=
  let keylen := zlen key in
  if (keylen =? 16) || (keylen =? 24) || (keylen =? 32)
  then GPG_ERR_NO_ERROR
  else GPG_ERR_INV_KEYLEN.

(** [iobuf_write_size_body_mpi] is GnuPG's own (g10/build-packet.c), but
    not among the sources at hand. A "size+body" MPI holds one octet LEN
    and then LEN octets (the format in which ecdh.c itself makes [*out],
    lines 309-316, and which it expects of what is written for [pkey[2]],
    lines 160-166); it is written as it is. *)
Definition write_size_body_mpi (a : gcry_mpi_t) : gpg_error_t * list byte :=
  let nbytes := (gcry_mpi_get_nbits a + 7) / 8 in
  if nbytes >? 256 then (GPG_ERR_TOO_LARGE, [])
  else
    let buffer := mpi_octets a in
    if (zlen buffer <? 2)
       || negb (Z_of_byte (nth 0 buffer x00) =? zlen buffer - 1)
    then (GPG_ERR_INV_DATA, [])
    else (GPG_ERR_NO_ERROR, buffer).

(** The curves of this GnuPG: NIST P-256, P-384 and P-521, by their OID. *)
Definition curve_bits (oid : list byte) : N :=
  if KeyWrap.bytes_eqb oid [x08; x2a; x86; x48; xce; x3d; x03; x01; x07]
  then 256
  else if KeyWrap.bytes_eqb oid [x05; x2b; x81; x04; x00; x22] then 384
  else if KeyWrap.bytes_eqb oid [x05; x2b; x81; x04; x00; x23] then 521
  else 0.

#[export] Instance backend : Backend := {|
  pubkey_nbits := fun _ pkey => curve_bits (mpi_octets (pkey_0 pkey));
  iobuf_write_size_body_mpi := write_size_body_mpi;
  gcry_md_open := md_open;
  gcry_md_read := md_read;
  gcry_cipher_open := cipher_open;
  gcry_cipher_setkey := cipher_setkey;
  gcry_cipher_encrypt := fun _ => KeyWrap.aeswrap_encrypt;
  gcry_cipher_decrypt := fun _ => KeyWrap.aeswrap_decrypt;
  xtrymalloc := fun _ => true;
  xtrymalloc_secure := fun _ => true
|}.

(** A NIST P-256 key: the curve's OID, its base point G as the public
    point, and the KEK parameters 03 01 08 07. *)
Definition p256_oid : list byte :=
  [x08; x2a; x86; x48; xce; x3d; x03; x01; x07].

Definition p256_G : list byte :=
  [x04;
   x6b; x17; xd1; xf2; xe1; x2c; x42; x47; xf8; xbc; xe6; xe5; x63; xa4;
   x40; xf2; x77; x03; x7d; x81; x2d; xeb; x33; xa0; xf4; xa1; x39; x45;
   xd8; x98; xc2; x96;
   x4f; xe3; x42; xe2; xfe; x1a; x7f; x9b; x8e; xe7; xeb; x4a; x7c; x0f;
   x9e; x16; x2b; xce; x33; x57; x6b; x31; x5e; xce; xcb; xb6; x40; x68;
   x37; xbf; x51; xf5].

(** 2G, standing for a shared point. *)
Definition p256_2G : list byte :=
  [x04;
   x7c; xf2; x7b; x18; x8d; x03; x4f; x7e; x8a; x52; x38; x03; x04; xb5;
   x1a; xc3; xc0; x89; x69; xe2; x77; xf2; x1b; x35; xa6; x0b; x48; xfc;
   x47; x66; x99; x78;
   x07; x77; x55; x10; xdb; x8e; xd0; x40; x29; x3d; x9a; xc6; x9f; x74;
   x30; xdb; xba; x7d; xad; xe6; x3c; xe9; x82; x29; x9e; x04; xb7; x9d;
   x22; x78; x73; xd1].

Definition p256_key : pubkey :=
  {| pkey_0 := gcry_mpi_scan p256_oid;
     pkey_1 := gcry_mpi_scan p256_G;
     pkey_2 := gcry_mpi_scan [x03; x01; x08; x07] |}.

Definition shared_point : gcry_mpi_t := gcry_mpi_scan p256_2G.

Definition zero_fp : list byte := repeat x00 20.

(** A padded session key of 24 octets: 16 octets and 8 of padding 05. *)
Definition session_key : list byte :=
  [x07; x11; x22; x33; x44; x55; x66; x77; x88; x99; xaa; xbb; xcc; xdd;
   xee; xff] ++ repeat x05 8.

End Reference.

(** The vector that the specification gives for the KDF parameters of that
    key and an all-zero fingerprint (its scenario 3). *)
Definition spec_kdf_vector : list byte :=
  [x08; x2a; x86; x48; xce; x3d; x03; x01; x07;
   x12;
   x04; x03; x01; x08; x07;
   x41; x6e; x6f; x6e; x79; x6d; x6f; x75; x73; x20;
   x53; x65; x6e; x64; x65; x72; x20; x20; x20; x20]
  ++ repeat x00 20.

(** What the code assembles for them. *)
Definition code_kdf_vector : list byte :=
  [x08; x2a; x86; x48; xce; x3d; x03; x01; x07;
   x12;
   x03; x01; x08; x07;
   x41; x6e; x6f; x6e; x79; x6d; x6f; x75; x73; x20;
   x53; x65; x6e; x64; x65; x72; x20; x20; x20; x20]
  ++ repeat x00 20.

(** The wrap of [Reference.session_key] under the KEK of
    [Reference.p256_key] and [Reference.shared_point]: the length octet 32
    and the 32 octets of the AES key wrap. *)
Definition wrapped_session_key : list byte :=
  [x20;
   x04; xc9; xd8; xb9; xfd; x10; xb6; xc1; x42; x49; x02; xc7; x98; x43;
   x96; xe7; x9c; x1c; x50; xbc; x17; x93; x7f; xde; xf8; xeb; xb2; x29;
   x97; x69; x66; x77].




(* ================================================================== *)
(** * Further properties: what they are stated with *)

(** What holds of the way a statement sequence leaves the function, if it
    does. *)
Definition leaves_with {A} (P : outcome retval -> Prop) (m : M A) : Prop :=
  match snd m with
  | Stop o => P o
  | Next _ => True
  end.

(** [*out] is set exactly when the return code is 0. *)
Definition out_iff_success (o : outcome retval) : Prop :=
  match o with
  | Returns (rc, out) => rc = GPG_ERR_NO_ERROR <-> out <> None
  | _ => True
  end.

(** The library calls of a run that goes all the way, in their order. *)
Definition all_calls (is_encrypt : bool) : list call :=
  [Call_mpi_print; Call_md_open; Call_md_final; Call_cipher_open;
   Call_cipher_setkey; Call_mpi_print;
   if is_encrypt then Call_cipher_encrypt else Call_cipher_decrypt;
   Call_mpi_scan].

(** [t] is the beginning of [l]. *)
Definition begins {A} (t l : list A) : Prop := exists rest, l = t ++ rest.

(** The calls of [m] are taken from the front of [l] in their order; when
    [m] goes on, [l'] is what is left of [l]. *)
Definition calls_from {A} (l : list call) (m : M A) (l' : list call)
  : Prop :=
  match snd m with
  | Next _ => l = fst m ++ l'
  | Stop _ => begins (fst m) l
  end.

(* ================================================================== *)
(** * [gen_k] and [pk_ecdh_encrypt] (lines 385-475) *)

(** What a pointer points to, once the object may have been released. *)
Inductive pointee (A : Type) : Type :=
| Live (a : A)
| Released.
Arguments Live {A} a.
Arguments Released {A}.

(** What these two functions call and do not define. [BUG ()] ends the
    process as [log_bug] does. *)
Class PkBackend : Type := {
  (** what a [gcry_sexp_t] points to *)
  sexp : Type;
  (** whether cipher debugging is on *)
  DBG_CIPHER : bool;
  (** [gcry_mpi_randomize (k, nbits, GCRY_STRONG_RANDOM)]: the value that
      [k] gets *)
  gcry_mpi_randomize : Z -> gcry_mpi_t;
  (** [gcry_mpi_aprint (GCRYMPI_FMT_HEX, &buffer, NULL, a)] *)
  gcry_mpi_aprint : gcry_mpi_t -> gpg_error_t;
  (** [gcry_sexp_build (&s_pkey, NULL,
      "(public-key(ecdh(c%m)(q%m)(p%m)))", pkey[0], pkey[1], pkey[2])] *)
  gcry_sexp_build_public_key : pubkey -> gpg_error_t * sexp;
  (** [gcry_sexp_build (&s_data, NULL, "%m", k)] *)
  gcry_sexp_build_mpi : gcry_mpi_t -> gpg_error_t * sexp;
  (** [gcry_pk_encrypt (&s_ciph, s_data, s_pkey)] *)
  gcry_pk_encrypt : sexp -> sexp -> gpg_error_t * sexp;
  (** [mpi_from_sexp (sexp, item)] of g10/pkglue.c, on a live
      S-expression *)
  mpi_from_sexp : sexp -> list byte -> outcome gcry_mpi_t
}.

(** Sequencing of outcomes: what does not return ends the caller too. *)
Definition and_then {A C} (o : outcome A) (f : A -> outcome C)
  : outcome C :=
  match o with
  | Returns a => f a
  | AssertionFailed => AssertionFailed
  | LogBug => LogBug
  | UndefinedBehaviour => UndefinedBehaviour
  end.

(** Reading through a pointer: undefined once the object is released. *)
Definition deref {A} (p : pointee A) : outcome A :=
  match p with
  | Live a => Returns a
  | Released => UndefinedBehaviour
  end.

Section PkEncrypt.
Context {B : Backend} {P : PkBackend}.

(** [static gcry_mpi_t gen_k (unsigned nbits)]. [gcry_mpi_snew] does not
    return NULL. *)
Definition gen_k (nbits : Z) : outcome gcry_mpi_t :=
  let k := gcry_mpi_randomize ((nbits - 1) mod 2 ^ 32) in
  if DBG_CIPHER then
    if is_error (gcry_mpi_aprint k) then LogBug        (* BUG () *)
    else Returns k
  else Returns k.

(** What [pk_ecdh_encrypt] hands back: its return code, [resarr[0]] and
    [resarr[1]] ([None]: not written). *)
Definition encrypted : Set :=
  (gpg_error_t * option gcry_mpi_t * option gcry_mpi_t)%type.

(** [int pk_ecdh_encrypt (gcry_mpi_t *resarr,
    const byte pk_fp[MAX_FINGERPRINT_LEN], gcry_mpi_t data,
    gcry_mpi_t *pkey)] *)
Definition pk_ecdh_encrypt (pk_fp : list byte) (data : gcry_mpi_t)
    (pkey : pubkey) : outcome encrypted :=
  let nbits := Z.of_N (pubkey_nbits PUBKEY_ALGO_ECDH pkey) in
  (* Generate an ephemeral key, actually, a scalar. *)
  and_then (gen_k nbits) (fun k =>
  let (rc, s_pkey) := gcry_sexp_build_public_key pkey in
  if is_error rc then LogBug                            (* BUG () *)
  else
    (* Ephemeral scalar goes as data.  *)
    let (rc, s_data) := gcry_sexp_build_mpi k in
    if is_error rc then LogBug                          (* BUG () *)
    else
      (* Pass it to libgcrypt. *)
      let (rc, s_ciph) := gcry_pk_encrypt s_data s_pkey in
      if is_error rc then Returns (rc, None, None)
      else
        let s_ciph := Live s_ciph in
        (* ... and get the shared point *)
        and_then (deref s_ciph) (fun s =>
        and_then (mpi_from_sexp s [x61]) (fun shared =>       (* "a" *)
        let s_ciph := @Released sexp in       (* gcry_sexp_release (s_ciph) *)
        (* Ephemeral public key. *)
        and_then (deref s_ciph) (fun s =>
        and_then (mpi_from_sexp s [x62]) (fun resarr_0 =>     (* "b" *)
        and_then
          (if DBG_CIPHER then
             if is_error (gcry_mpi_aprint resarr_0) then LogBug
             else Returns tt
           else Returns tt) (fun _ =>
        and_then
          (snd (pk_ecdh_encrypt_with_shared_point true shared pk_fp data
                  pkey)) (fun r =>
        Returns (fst r, Some resarr_0, snd r)))))))).

End PkEncrypt.

(* ================================================================== *)
(** * skclist.c, as the same source file carries it (lines 491-601)

    A [STRLIST] is the list of its strings, NULL being the empty one; an
    [SKC_LIST] is the list of its nodes. *)

(** What skclist.c calls and does not define, and the constant of
    errors.h that it uses. [m_alloc] and [m_alloc_clear] do not return
    NULL. *)
Class Keyring : Type := {
  (** what a [PKT_secret_cert] holds *)
  PKT_secret_cert : Type;
  (** its field [pubkey_algo] *)
  pubkey_algo : PKT_secret_cert -> Z;
  (** [get_seckey_byname (skc, name, unlock)]: the code returned and what
      [*skc] then holds; [None] is the NULL name *)
  get_seckey_byname : option (list byte) -> Z -> Z * PKT_secret_cert;
  (** [is_valid_pubkey_algo (algo)], as a C truth value *)
  is_valid_pubkey_algo : Z -> Z;
  G10ERR_NO_USER_ID : Z
}.

Section Skclist.
Context {K : Keyring}.

(** [struct skc_list], its [next] apart. *)
Record skc_node : Type := {
  skc : PKT_secret_cert;
  mark : Z
}.

(** The blocks that are allocated and not freed: secret certificates
    ([m_alloc_clear] / [free_secret_cert]) and list nodes ([m_alloc] /
    [m_free]). *)
Record ledger : Set := {
  live_certs : Z;
  live_nodes : Z
}.

(** [void release_skc_list (SKC_LIST skc_list)] *)
Fixpoint release_skc_list (skc_list : list skc_node) (m : ledger)
  : ledger :=
  match skc_list with
  | [] => m
  | _ :: skc_rover =>
      (* free_secret_cert (skc_list->skc); m_free (skc_list); *)
      release_skc_list skc_rover
        {| live_certs := live_certs m - 1; live_nodes := live_nodes m - 1 |}
  end.

(** The local variables [rc] ([None] until it is assigned) and
    [skc_list], and the ledger. *)
Record locals : Type := {
  rc : option Z;
  skc_list : list skc_node;
  mem : ledger
}.

(** The body that both branches of [build_skc_list] have (lines 548-564
    and 570-586; they differ in the name looked up and in what is
    logged). *)
Definition add_secret_cert (name : option (list byte)) (unlock : Z)
    (st : locals) : locals :=
  (* skc = m_alloc_clear (sizeof *skc); *)
  let m := {| live_certs := live_certs (mem st) + 1;
              live_nodes := live_nodes (mem st) |} in
  let (rc', skc') := get_seckey_byname name unlock in
  if negb (rc' =? 0) then
    (* free_secret_cert (skc); skc = NULL; log_error (...) *)
    {| rc := Some rc'; skc_list := skc_list st;
       mem := {| live_certs := live_certs m - 1;
                 live_nodes := live_nodes m |} |}
  else if negb (is_valid_pubkey_algo (pubkey_algo skc') =? 0) then
    (* r = m_alloc (sizeof *r); r->skc = skc; r->next = skc_list;
       r->mark = 0; skc_list = r; *)
    {| rc := Some rc';
       skc_list := {| skc := skc'; mark := 0 |} :: skc_list st;
       mem := {| live_certs := live_certs m;
                 live_nodes := live_nodes m + 1 |} |}
  else
    (* free_secret_cert (skc); skc = NULL; log_error (...) *)
    {| rc := Some rc'; skc_list := skc_list st;
       mem := {| live_certs := live_certs m - 1;
                 live_nodes := live_nodes m |} |}.

(** The [for] loop over [locusr]. *)
Fixpoint add_secret_certs (locusr : list (list byte)) (unlock : Z)
    (st : locals) : locals :=
  match locusr with
  | [] => st
  | d :: next =>
      add_secret_certs next unlock (add_secret_cert (Some d) unlock st)
  end.

(** [int build_skc_list (STRLIST locusr, SKC_LIST *ret_skc_list,
    int unlock)]: the code returned, [*ret_skc_list] ([None]: not
    written) and the ledger; reading [rc] before it is assigned would be
    undefined. *)
Definition build_skc_list (locusr : list (list byte)) (unlock : Z)
    (m : ledger) : outcome (Z * option (list skc_node) * ledger) :=
  let st := {| rc := None; skc_list := []; mem := m |} in
  let st :=
    match locusr with
    | [] => add_secret_cert None unlock st       (* use the default one *)
    | _ :: _ => add_secret_certs locusr unlock st
    end in
  match rc st with
  | None => UndefinedBehaviour
  | Some rc0 =>
      let rc1 :=
        if (rc0 =? 0) && (match skc_list st with [] => true | _ => false end)
        then G10ERR_NO_USER_ID       (* log_error ("no valid signators") *)
        else rc0 in
      if negb (rc1 =? 0)
      then Returns (rc1, None, release_skc_list (skc_list st) (mem st))
      else Returns (rc1, Some (skc_list st), mem st)
  end.

(** The names as [get_seckey_byname] is asked for them: the NULL name
    when [locusr] is empty. *)
Definition asked (locusr : list (list byte)) : list (option (list byte)) :=
  match locusr with
  | [] => [None]
  | _ :: _ => map Some locusr
  end.

(** The nodes for the names whose key is found and of a valid
    algorithm, in the order of the names. *)
Definition found_certs (locusr : list (option (list byte))) (unlock : Z)
  : list skc_node :=
  flat_map
    (fun name =>
       let (rc', skc') := get_seckey_byname name unlock in
       if (rc' =? 0)
          && negb (is_valid_pubkey_algo (pubkey_algo skc') =? 0)
       then [{| skc := skc'; mark := 0 |}]
       else [])
    locusr.

End Skclist.

(* ================================================================== *)
(** * Instances to run these functions on *)

Module Example.

(** ECDH on NIST P-256 for the ephemeral scalar 1, which needs no curve
    arithmetic: the shared point "a" is the public point itself and the
    ephemeral public key "b" is the base point. Any other scalar is
    refused. An S-expression is the list of its tokens with their
    MPIs. *)
Definition pk_encrypt (s_data s_pkey : list (list byte * gcry_mpi_t))
  : gpg_error_t * list (list byte * gcry_mpi_t) :=
  match s_data, s_pkey with
  | [(_, 1%N)], [_; (_, q); _] =>
      (GPG_ERR_NO_ERROR,
       [([x61], q); ([x62], gcry_mpi_scan Reference.p256_G)])
  | _, _ => (GPG_ERR_INV_DATA, [])
  end.

Fixpoint token (s : list (list byte * gcry_mpi_t)) (item : list byte)
  : outcome gcry_mpi_t :=
  match s with
  | [] => AssertionFailed
  | (name, a) :: r =>
      if KeyWrap.bytes_eqb name item then Returns a else token r item
  end.

(** The backend whose random number generator gives [random]. *)
Definition pk_backend (random : gcry_mpi_t) : PkBackend := {|
  sexp := list (list byte * gcry_mpi_t);
  DBG_CIPHER := false;
  gcry_mpi_randomize := fun _ => random;
  gcry_mpi_aprint := fun _ => GPG_ERR_NO_ERROR;
  gcry_sexp_build_public_key := fun pkey =>
    (GPG_ERR_NO_ERROR,
     [([x63], pkey_0 pkey); ([x71], pkey_1 pkey); ([x70], pkey_2 pkey)]);
  gcry_sexp_build_mpi := fun k => (GPG_ERR_NO_ERROR, [([], k)]);
  gcry_pk_encrypt := pk_encrypt;
  mpi_from_sexp := token
|}.

(** The reference backend with an allocator that finds no secure
    memory, and with a libgcrypt that opens no digest. *)
Definition no_memory : Backend := {|
  pubkey_nbits := @pubkey_nbits Reference.backend;
  iobuf_write_size_body_mpi := @iobuf_write_size_body_mpi Reference.backend;
  gcry_md_open := @gcry_md_open Reference.backend;
  gcry_md_read := @gcry_md_read Reference.backend;
  gcry_cipher_open := @gcry_cipher_open Reference.backend;
  gcry_cipher_setkey := @gcry_cipher_setkey Reference.backend;
  gcry_cipher_encrypt := @gcry_cipher_encrypt Reference.backend;
  gcry_cipher_decrypt := @gcry_cipher_decrypt Reference.backend;
  xtrymalloc := fun _ => true;
  xtrymalloc_secure := fun _ => false
|}.

Definition no_digest : Backend := {|
  pubkey_nbits := @pubkey_nbits Reference.backend;
  iobuf_write_size_body_mpi := @iobuf_write_size_body_mpi Reference.backend;
  gcry_md_open := fun _ => GPG_ERR_INV_ARG;
  gcry_md_read := @gcry_md_read Reference.backend;
  gcry_cipher_open := @gcry_cipher_open Reference.backend;
  gcry_cipher_setkey := @gcry_cipher_setkey Reference.backend;
  gcry_cipher_encrypt := @gcry_cipher_encrypt Reference.backend;
  gcry_cipher_decrypt := @gcry_cipher_decrypt Reference.backend;
  xtrymalloc := fun _ => true;
  xtrymalloc_secure := fun _ => true
|}.

(** Keys like [Reference.p256_key]: one whose KEK parameters name
    SHA-1, one whose curve OID is cut short, and one whose points are in
    the compressed form of 33 octets, with SHA-512 as the KDF hash. *)
Definition sha1_key : pubkey :=
  {| pkey_0 := pkey_0 Reference.p256_key;
     pkey_1 := pkey_1 Reference.p256_key;
     pkey_2 := gcry_mpi_scan [x03; x01; x02; x07] |}.


Definition compressed_G : list byte :=
  x03 :: firstn 32 (tl Reference.p256_G).

Definition compressed_key : pubkey :=
  {| pkey_0 := pkey_0 Reference.p256_key;
     pkey_1 := gcry_mpi_scan compressed_G;
     pkey_2 := gcry_mpi_scan [x03; x01; x0a; x09] |}.

(** A keyring of three secret keys: "alice" (the default key) and "bob"
    of valid algorithms, "carol" of an algorithm that is not valid; any
    other name is not found. errors.h is not among the sources: 15 and 7
    stand for its codes. *)
Definition alice : list byte := [x61; x6c; x69; x63; x65].
Definition bob : list byte := [x62; x6f; x62].
Definition carol : list byte := [x63; x61; x72; x6f; x6c].
Definition dave : list byte := [x64; x61; x76; x65].

Definition keyring : Keyring := {|
  PKT_secret_cert := (Z * list byte)%type;
  pubkey_algo := fst;
  get_seckey_byname := fun name _ =>
    match name with
    | None => (0, (17, alice))
    | Some d =>
        if KeyWrap.bytes_eqb d alice then (0, (17, alice))
        else if KeyWrap.bytes_eqb d bob then (0, (1, bob))
        else if KeyWrap.bytes_eqb d carol then (0, (99, carol))
        else (7, (0, []))
    end;
  is_valid_pubkey_algo := fun algo =>
    if (algo =? 1) || (algo =? 16) || (algo =? 17) then 1 else 0;
  G10ERR_NO_USER_ID := 15
|}.

(** A node for a key of this keyring, with the mark 0. *)
Definition node (algo : Z) (name : list byte) : @skc_node keyring :=
  @Build_skc_node keyring (algo, name) 0.

End Example.

(* ================================================================== *)
(** * Properties *)

(** ** Bytes *)

Lemma Z_of_byte_range (b : byte) : 0 <= Z_of_byte b < 256.
Proof.
  unfold Z_of_byte. pose proof (Byte.to_N_bounded b). lia.
Qed.

Lemma byte_of_Z_of_byte (b : byte) : byte_of_Z (Z_of_byte b) = b.
Proof.
  unfold byte_of_Z, Z_of_byte.
  rewrite Z.mod_small by (pose proof (Byte.to_N_bounded b); lia).
  rewrite N2Z.id, Byte.of_to_N. reflexivity.
Qed.

Lemma Z_of_byte_of_Z (z : Z) : Z_of_byte (byte_of_Z z) = z mod 256.
Proof.
  unfold byte_of_Z, Z_of_byte.
  pose proof (Z.mod_pos_bound z 256 ltac:(lia)) as Hm.
  destruct (Byte.of_N (Z.to_N (z mod 256))) as [b|] eqn:E.
  - apply Byte.to_of_N in E. rewrite E. lia.
  - apply Byte.of_N_None_iff in E. lia.
Qed.

Lemma byte_of_Z_to_N (b : byte) : byte_of_Z (Z.of_N (Byte.to_N b)) = b.
Proof. exact (byte_of_Z_of_byte b). Qed.

Lemma to_N_byte_of_Z (n : N) :
  (n < 256)%N -> Byte.to_N (byte_of_Z (Z.of_N n)) = n.
Proof.
  intros Hn. pose proof (Z_of_byte_of_Z (Z.of_N n)) as H.
  unfold Z_of_byte in H. rewrite Z.mod_small in H by lia. lia.
Qed.

Lemma zlen_app {A} (l1 l2 : list A) : zlen (l1 ++ l2) = zlen l1 + zlen l2.
Proof. unfold zlen. rewrite length_app. lia. Qed.

Lemma zlen_nonneg {A} (l : list A) : 0 <= zlen l.
Proof. unfold zlen. lia. Qed.

(** ** MPI octets *)

Lemma be_bytes_length (n : nat) (a : N) : length (be_bytes n a) = n.
Proof.
  revert a. induction n as [|n IH]; intros a; simpl; [reflexivity|].
  rewrite length_app, IH. simpl. lia.
Qed.

Lemma scan_fold_acc (l : list byte) (acc : N) :
  fold_left (fun acc b => (acc * 256 + Byte.to_N b)%N) l acc
  = (acc * 256 ^ N.of_nat (length l) + gcry_mpi_scan l)%N.
Proof.
  unfold gcry_mpi_scan.
  set (f := fun (acc : N) (b : byte) => (acc * 256 + Byte.to_N b)%N).
  revert acc. induction l as [|b l IH]; intros acc.
  - simpl. lia.
  - cbn [fold_left]. rewrite (IH (f acc b)), (IH (f 0%N b)).
    cbn [length].
    replace (N.of_nat (S (length l))) with (N.succ (N.of_nat (length l)))
      by lia.
    rewrite N.pow_succ_r'. unfold f. lia.
Qed.

Lemma gcry_mpi_scan_app (l1 l2 : list byte) :
  gcry_mpi_scan (l1 ++ l2)
  = (gcry_mpi_scan l1 * 256 ^ N.of_nat (length l2) + gcry_mpi_scan l2)%N.
Proof.
  unfold gcry_mpi_scan at 1. rewrite fold_left_app.
  fold (gcry_mpi_scan l1). apply scan_fold_acc.
Qed.

Lemma gcry_mpi_scan_snoc (l : list byte) (b : byte) :
  gcry_mpi_scan (l ++ [b]) = (gcry_mpi_scan l * 256 + Byte.to_N b)%N.
Proof.
  unfold gcry_mpi_scan. rewrite fold_left_app. reflexivity.
Qed.

Lemma gcry_mpi_scan_bound (l : list byte) :
  (gcry_mpi_scan l < 256 ^ N.of_nat (length l))%N.
Proof.
  induction l as [|b l IH] using rev_ind.
  - reflexivity.
  - rewrite gcry_mpi_scan_snoc, length_app. cbn [length].
    replace (N.of_nat (length l + 1)) with (N.succ (N.of_nat (length l)))
      by lia.
    rewrite N.pow_succ_r'. pose proof (Byte.to_N_bounded b). lia.
Qed.

Lemma be_bytes_scan (l : list byte) :
  be_bytes (length l) (gcry_mpi_scan l) = l.
Proof.
  induction l as [|b l IH] using rev_ind; [reflexivity|].
  rewrite length_app. simpl length. rewrite Nat.add_1_r. simpl be_bytes.
  rewrite gcry_mpi_scan_snoc.
  pose proof (Byte.to_N_bounded b) as Hb.
  replace ((gcry_mpi_scan l * 256 + Byte.to_N b) / 256)%N
    with (gcry_mpi_scan l)
    by (apply N.div_unique with (r := Byte.to_N b); lia).
  replace ((gcry_mpi_scan l * 256 + Byte.to_N b) mod 256)%N
    with (Byte.to_N b)
    by (apply N.mod_unique with (q := gcry_mpi_scan l); lia).
  rewrite IH, byte_of_Z_to_N. reflexivity.
Qed.

Lemma scan_be_bytes (n : nat) (a : N) :
  gcry_mpi_scan (be_bytes n a) = (a mod 256 ^ N.of_nat n)%N.
Proof.
  revert a. induction n as [|n IH]; intros a.
  - simpl. rewrite N.mod_1_r. reflexivity.
  - simpl be_bytes. rewrite gcry_mpi_scan_snoc, IH.
    rewrite to_N_byte_of_Z by (apply N.mod_lt; lia).
    replace (N.of_nat (S n)) with (N.succ (N.of_nat n)) by lia.
    rewrite N.pow_succ_r'.
    rewrite N.Div0.mod_mul_r. lia.
Qed.

Lemma mpi_nbytes_nonneg (a : gcry_mpi_t) : 0 <= mpi_nbytes a.
Proof.
  unfold mpi_nbytes, gcry_mpi_get_nbits. apply Z.div_pos; lia.
Qed.

Lemma mpi_octets_length (a : gcry_mpi_t) : zlen (mpi_octets a) = mpi_nbytes a.
Proof.
  unfold zlen, mpi_octets. rewrite be_bytes_length.
  pose proof (mpi_nbytes_nonneg a). unfold mpi_nbytes in *. lia.
Qed.

Lemma mpi_lt_pow (a : gcry_mpi_t) :
  (a < 256 ^ Z.to_N (mpi_nbytes a))%N.
Proof.
  pose proof (N.size_gt a) as H.
  eapply N.lt_le_trans; [exact H|].
  replace 256%N with (2 ^ 8)%N by reflexivity.
  rewrite <- N.pow_mul_r. apply N.pow_le_mono_r; [lia|].
  unfold mpi_nbytes, gcry_mpi_get_nbits.
  pose proof (Z.div_mod (Z.of_N (N.size a) + 7) 8 ltac:(lia)).
  pose proof (Z.mod_pos_bound (Z.of_N (N.size a) + 7) 8 ltac:(lia)).
  lia.
Qed.

Lemma scan_mpi_octets (a : gcry_mpi_t) : gcry_mpi_scan (mpi_octets a) = a.
Proof.
  unfold mpi_octets. rewrite scan_be_bytes.
  apply N.mod_small. pose proof (mpi_lt_pow a) as H.
  unfold mpi_nbytes in H.
  replace (N.of_nat (Z.to_nat ((gcry_mpi_get_nbits a + 7) / 8)))
    with (Z.to_N ((gcry_mpi_get_nbits a + 7) / 8)) by lia.
  exact H.
Qed.

(** Significant bits of an octet string that starts with a non-zero
    octet. *)
Lemma nbits_scan_cons (b : byte) (l : list byte) :
  b <> x00 ->
  gcry_mpi_get_nbits (gcry_mpi_scan (b :: l))
  = 8 * zlen l + Z.of_N (N.size (Byte.to_N b)).
Proof.
  intros Hb.
  assert (Hb0 : (0 < Byte.to_N b)%N).
  { destruct (N.eq_dec (Byte.to_N b) 0) as [E|E]; [|lia].
    exfalso. apply Hb.
    rewrite <- (byte_of_Z_to_N b), E. reflexivity. }
  unfold gcry_mpi_get_nbits.
  change (b :: l) with ([b] ++ l). rewrite gcry_mpi_scan_app.
  change (gcry_mpi_scan [b]) with (Byte.to_N b).
  set (k := N.of_nat (length l)).
  pose proof (gcry_mpi_scan_bound l) as Hl. fold k in Hl.
  set (r := gcry_mpi_scan l) in *.
  assert (Hpow : (256 ^ k = 2 ^ (8 * k))%N).
  { replace 256%N with (2 ^ 8)%N by reflexivity.
    rewrite <- N.pow_mul_r. reflexivity. }
  rewrite Hpow in *.
  assert (Hpos : (0 < 2 ^ (8 * k))%N) by (apply N.neq_0_lt_0, N.pow_nonzero; lia).
  rewrite !N.size_log2 by nia.
  pose proof (N.log2_spec (Byte.to_N b) Hb0) as [Hlo Hhi].
  set (e := N.log2 (Byte.to_N b)) in *.
  assert (N.log2 (Byte.to_N b * 2 ^ (8 * k) + r) = (e + 8 * k))%N as ->.
  { apply N.log2_unique; [lia|].
    rewrite <- N.add_succ_l, !N.pow_add_r. split; nia. }
  unfold zlen. lia.
Qed.

Lemma mpi_nbytes_scan_cons (b : byte) (l : list byte) :
  b <> x00 -> mpi_nbytes (gcry_mpi_scan (b :: l)) = zlen (b :: l).
Proof.
  intros Hb. unfold mpi_nbytes. rewrite (nbits_scan_cons b l Hb).
  assert (1 <= Z.of_N (N.size (Byte.to_N b)) <= 8).
  { destruct b; try (exfalso; apply Hb; reflexivity);
      vm_compute; split; discriminate. }
  unfold zlen. simpl length. 
  pose proof (Z.div_mod (8 * Z.of_nat (length l) + Z.of_N (N.size (Byte.to_N b)) + 7) 8 ltac:(lia)).
  pose proof (Z.mod_pos_bound (8 * Z.of_nat (length l) + Z.of_N (N.size (Byte.to_N b)) + 7) 8 ltac:(lia)).
  lia.
Qed.

Lemma mpi_octets_scan_cons (b : byte) (l : list byte) :
  b <> x00 -> mpi_octets (gcry_mpi_scan (b :: l)) = b :: l.
Proof.
  intros Hb. unfold mpi_octets.
  pose proof (mpi_nbytes_scan_cons b l Hb) as H. unfold mpi_nbytes in H.
  rewrite H. unfold zlen. rewrite Nat2Z.id. apply be_bytes_scan.
Qed.

(** The first octet of a non-zero MPI's serialization is not zero. *)
Lemma mpi_octets_head (a : gcry_mpi_t) :
  a <> 0%N -> exists b l, mpi_octets a = b :: l /\ b <> x00.
Proof.
  intros Ha.
  destruct (mpi_octets a) as [|b l] eqn:E.
  - exfalso. apply Ha. rewrite <- (scan_mpi_octets a), E. reflexivity.
  - exists b, l. split; [reflexivity|]. intros ->.
    pose proof (mpi_octets_length a) as Hlen. rewrite E in Hlen.
    pose proof (scan_mpi_octets a) as Hs. rewrite E in Hs.
    change (x00 :: l) with ([x00] ++ l) in Hs.
    rewrite gcry_mpi_scan_app in Hs. simpl in Hs.
    pose proof (gcry_mpi_scan_bound l) as Hb.
    (* a < 256^|l| contradicts the minimality of the octet count *)
    assert (Hsz : (N.size a <= 8 * N.of_nat (length l))%N).
    { destruct (N.eq_dec a 0) as [->|Hz]; [simpl; lia|].
      rewrite N.size_log2 by assumption.
      apply N.le_succ_l, N.log2_lt_pow2; [lia|].
      replace 256%N with (2 ^ 8)%N in Hb by reflexivity.
      rewrite <- N.pow_mul_r in Hb. lia. }
    unfold mpi_nbytes, gcry_mpi_get_nbits, zlen in Hlen. simpl length in Hlen.
    pose proof (Z.div_mod (Z.of_N (N.size a) + 7) 8 ltac:(lia)).
    pose proof (Z.mod_pos_bound (Z.of_N (N.size a) + 7) 8 ltac:(lia)).
    lia.
Qed.

(** ** Comparisons *)

Lemma gtb_true (a b : Z) : b < a -> (a >? b) = true.
Proof. intros H. rewrite Z.gtb_ltb. apply Z.ltb_lt. exact H. Qed.

Lemma gtb_false (a b : Z) : a <= b -> (a >? b) = false.
Proof. intros H. rewrite Z.gtb_ltb. apply Z.ltb_ge. exact H. Qed.

Lemma geb_true (a b : Z) : b <= a -> (a >=? b) = true.
Proof. intros H. rewrite Z.geb_leb. apply Z.leb_le. exact H. Qed.

Lemma geb_false (a b : Z) : a < b -> (a >=? b) = false.
Proof. intros H. rewrite Z.geb_leb. apply Z.leb_gt. exact H. Qed.

(** ** Heap buffers *)

Lemma all_written_map_Some (l : list byte) : all_written (map Some l) = Some l.
Proof.
  induction l as [|b l IH]; simpl; [reflexivity|]. rewrite IH. reflexivity.
Qed.

Lemma all_written_inv (cs : list cell) (bs : list byte) :
  all_written cs = Some bs -> cs = map Some bs.
Proof.
  revert bs. induction cs as [|c cs IH]; intros bs H; simpl in H.
  - injection H as <-. reflexivity.
  - destruct c as [b|]; [|discriminate].
    destruct (all_written cs) as [bs'|]; [|discriminate].
    injection H as <-. simpl. rewrite (IH bs' eq_refl). reflexivity.
Qed.

Lemma zlen_map {A C} (f : A -> C) (l : list A) : zlen (map f l) = zlen l.
Proof. unfold zlen. rewrite length_map. reflexivity. Qed.

Lemma zlen_repeat {A} (a : A) (n : nat) : zlen (repeat a n) = Z.of_nat n.
Proof. unfold zlen. rewrite repeat_length. reflexivity. Qed.

Lemma zlen_cons {A} (a : A) (l : list A) : zlen (a :: l) = 1 + zlen l.
Proof. unfold zlen. cbn [length]. lia. Qed.

Lemma zlen_fresh (n : Z) : 0 <= n -> zlen (fresh n) = n.
Proof. intros H. unfold fresh. rewrite zlen_repeat. lia. Qed.

Lemma skipn_app_exact {A} (k : nat) (l1 l2 : list A) :
  length l1 = k -> skipn k (l1 ++ l2) = l2.
Proof.
  intros <-. rewrite skipn_app, skipn_all, Nat.sub_diag. reflexivity.
Qed.

Lemma firstn_app_exact {A} (k : nat) (l1 l2 : list A) :
  length l1 = k -> firstn k (l1 ++ l2) = l1.
Proof.
  intros <-. rewrite firstn_app, firstn_all, Nat.sub_diag.
  simpl. apply app_nil_r.
Qed.

(** Reading where octets were written gives them back. *)
Lemma peek_shape (pre post : list cell) (bs : list byte) (off n : Z) :
  zlen pre = off -> zlen bs = n ->
  peek (pre ++ map Some bs ++ post) off n = Some bs.
Proof.
  intros Hoff Hn. unfold peek.
  rewrite !zlen_app, zlen_map.
  pose proof (zlen_nonneg pre). pose proof (zlen_nonneg bs).
  pose proof (zlen_nonneg post).
  replace ((0 <=? off) && (0 <=? n)
           && (off + n <=? zlen pre + (zlen bs + zlen post))) with true
    by (symmetry; rewrite !andb_true_iff, !Z.leb_le; lia).
  rewrite skipn_app_exact by (unfold zlen in *; lia).
  rewrite firstn_app_exact by (rewrite length_map; unfold zlen in *; lia).
  apply all_written_map_Some.
Qed.

(** Writing replaces just the cells written to. *)
Lemma poke_shape (pre mid post : list cell) (bs : list byte) (off : Z) :
  zlen pre = off -> zlen mid = zlen bs ->
  poke (pre ++ mid ++ post) off bs = Some (pre ++ map Some bs ++ post).
Proof.
  intros Hoff Hmid. unfold poke.
  rewrite !zlen_app.
  pose proof (zlen_nonneg pre). pose proof (zlen_nonneg bs).
  pose proof (zlen_nonneg post).
  replace ((0 <=? off)
           && (off + zlen bs <=? zlen pre + (zlen mid + zlen post))) with true
    by (symmetry; rewrite !andb_true_iff, !Z.leb_le; lia).
  f_equal.
  rewrite firstn_app_exact by (unfold zlen in *; lia).
  rewrite (app_assoc pre mid post).
  rewrite skipn_app_exact
    by (rewrite length_app; unfold zlen in *; lia).
  reflexivity.
Qed.

Lemma peek_prefix (post : list cell) (bs : list byte) (n : Z) :
  zlen bs = n -> peek (map Some bs ++ post) 0 n = Some bs.
Proof. intros H. apply (peek_shape [] post bs 0 n); [reflexivity|exact H]. Qed.

Lemma poke_prefix (mid post : list cell) (bs : list byte) :
  zlen mid = zlen bs -> poke (mid ++ post) 0 bs = Some (map Some bs ++ post).
Proof. intros H. apply (poke_shape [] mid post bs 0); [reflexivity|exact H]. Qed.

Lemma poke_outside (buf : list cell) (bs : list byte) (off : Z) :
  zlen buf < off + zlen bs -> poke buf off bs = None.
Proof.
  intros H. unfold poke.
  replace (off + zlen bs <=? zlen buf) with false
    by (symmetry; apply Z.leb_gt; lia).
  rewrite andb_false_r. reflexivity.
Qed.

Lemma poke_length (buf buf' : list cell) (bs : list byte) (off : Z) :
  poke buf off bs = Some buf' -> zlen buf' = zlen buf.
Proof.
  unfold poke. destruct ((0 <=? off) && (off + zlen bs <=? zlen buf)) eqn:E;
    [|discriminate].
  apply andb_true_iff in E as [E1 E2]. apply Z.leb_le in E1, E2.
  intros H. injection H as <-.
  pose proof (zlen_nonneg bs).
  rewrite !zlen_app, zlen_map. unfold zlen in *.
  rewrite length_firstn, length_skipn. lia.
Qed.

Lemma repeat_split {A} (a : A) (n k : nat) :
  (k <= n)%nat -> repeat a n = repeat a k ++ repeat a (n - k).
Proof.
  intros H. rewrite <- repeat_app. f_equal. lia.
Qed.

Lemma fresh_split (n k : Z) :
  0 <= k <= n -> fresh n = fresh k ++ fresh (n - k).
Proof.
  intros H. unfold fresh.
  rewrite (repeat_split None (Z.to_nat n) (Z.to_nat k)) by lia.
  do 2 f_equal. lia.
Qed.

(** A list cut at [k]. *)
Lemma list_split_at {A} (l : list A) (k : Z) :
  l = firstn (Z.to_nat k) l ++ skipn (Z.to_nat k) l.
Proof. symmetry. apply firstn_skipn. Qed.

Lemma zlen_firstn {A} (l : list A) (k : Z) :
  0 <= k <= zlen l -> zlen (firstn (Z.to_nat k) l) = k.
Proof.
  intros H. unfold zlen in *. rewrite length_firstn. lia.
Qed.

Lemma zlen_skipn {A} (l : list A) (k : Z) :
  0 <= k <= zlen l -> zlen (skipn (Z.to_nat k) l) = zlen l - k.
Proof.
  intros H. unfold zlen in *. rewrite length_skipn. lia.
Qed.

(** One written octet. *)
Lemma peek1_written (post : list cell) (l : list byte) (i : Z) :
  0 <= i < zlen l ->
  peek1 (map Some l ++ post) i = Some (nth (Z.to_nat i) l x00).
Proof.
  intros Hi. unfold peek1.
  assert (Hl : l = firstn (Z.to_nat i) l
                   ++ [nth (Z.to_nat i) l x00] ++ skipn (S (Z.to_nat i)) l).
  { rewrite <- (firstn_skipn (Z.to_nat i) l) at 1. f_equal.
    assert (Hlt : (Z.to_nat i < length l)%nat) by (unfold zlen in Hi; lia).
    revert Hlt. generalize (Z.to_nat i). clear Hi.
    induction l as [|a l IH]; intros k Hk; simpl in Hk; [lia|].
    destruct k as [|k]; [reflexivity|].
    cbn [skipn nth]. apply IH. lia. }
  rewrite Hl at 1. rewrite !map_app, <- !app_assoc.
  rewrite peek_shape; [reflexivity| |reflexivity].
  rewrite zlen_map. apply zlen_firstn. lia.
Qed.

(** ** The monad *)

Lemma bind_Next {A C} (t : list call) (a : A) (f : A -> M C) :
  bind (t, Next a) f = (t ++ fst (f a), snd (f a)).
Proof. unfold bind. destruct (f a). reflexivity. Qed.

Lemma bind_ret {A C} (a : A) (f : A -> M C) : bind (ret a) f = f a.
Proof. unfold bind, ret. destruct (f a). reflexivity. Qed.

Lemma bind_Stop {A C} (t : list call) (o : outcome retval) (f : A -> M C) :
  bind (t, Stop o) f = (t, Stop o).
Proof. reflexivity. Qed.

Lemma bind_calling {C} (c : call) (m : M C) (t : list call) (r : step C) :
  m = (t, r) -> bind (calling c) (fun _ => m) = (c :: t, r).
Proof. intros ->. reflexivity. Qed.

Lemma bind_assoc {A C D} (m : M A) (f : A -> M C) (g : C -> M D) :
  bind (bind m f) g = bind m (fun a => bind (f a) g).
Proof.
  destruct m as [t [a|o]]; simpl; [|reflexivity].
  destruct (f a) as [t' [c|o']]; simpl.
  - destruct (g c) as [t'' r]. rewrite app_assoc. reflexivity.
  - reflexivity.
Qed.

(** ** Lines 117-139: the shared secret *)

Section SharedSecret.
Variables (nbits : Z) (pkey : pubkey) (shared_mpi : gcry_mpi_t).

(** [m]: octets of the shared point; [n]: octets of a coordinate; the
    block allocated has as many octets as the public point. *)
Let s := mpi_octets shared_mpi.
Let m := zlen s.
Let n := (nbits + 7) / 8.
Let allocated := mpi_nbytes (pkey_1 pkey).


Lemma extract_secret_x_ok :
  0 <= nbits -> n < m -> m <= allocated ->
  extract_secret_x nbits pkey shared_mpi
  = ([Call_mpi_print],
     Next (map Some (firstn (Z.to_nat n) (skipn 1 s)
                     ++ repeat x00 (Z.to_nat (m - n)))
           ++ fresh (allocated - m), n)).
Proof.
  intros Hnb Hnm Hma.
  assert (Hm : m = mpi_nbytes shared_mpi) by apply mpi_octets_length.
  assert (Hn0 : 0 <= n) by (apply Z.div_pos; lia).
  unfold extract_secret_x, gcry_mpi_print.
  fold (mpi_nbytes (pkey_1 pkey)). fold (mpi_nbytes shared_mpi).
  fold allocated. fold s. fold m. fold n.
  rewrite gtb_false by lia.
  apply bind_calling. cbn [check_rc is_error gpg_error_eqb negb].
  rewrite bind_ret.
  (* the export *)
  rewrite (fresh_split allocated m) by lia.
  rewrite <- (app_nil_l (fresh m ++ _)).
  rewrite (poke_shape [] (fresh m) (fresh (allocated - m)) s 0)
    by (try reflexivity; rewrite zlen_fresh; lia).
  cbn [defined]. rewrite bind_ret.
  rewrite gtb_true by lia.
  cbn [assert]. rewrite bind_ret.
  (* memmove *)
  unfold memmove.
  assert (Hs : s = firstn 1 s ++ firstn (Z.to_nat n) (skipn 1 s)
                   ++ skipn (Z.to_nat n) (skipn 1 s)).
  { rewrite firstn_skipn, firstn_skipn. reflexivity. }
  assert (Hl1 : zlen (firstn 1 s) = 1).
  { change 1%nat with (Z.to_nat 1). apply zlen_firstn. fold m. lia. }
  assert (Hl2 : zlen (firstn (Z.to_nat n) (skipn 1 s)) = n).
  { apply zlen_firstn. change 1%nat with (Z.to_nat 1).
    rewrite zlen_skipn; fold m; lia. }
  rewrite Hs at 1. rewrite !map_app, <- !app_assoc. cbn [app].
  rewrite peek_shape by (rewrite ?zlen_map; assumption).
  (* the same block, cut at n *)
  assert (Hs' : s = firstn (Z.to_nat n) s ++ skipn (Z.to_nat n) s)
    by (symmetry; apply firstn_skipn).
  rewrite Hs' at 1. rewrite map_app, <- app_assoc.
  rewrite <- (app_nil_l (map Some (firstn _ s) ++ _)).
  rewrite poke_shape
    by (try reflexivity; rewrite zlen_map, zlen_firstn; fold m; lia).
  cbn [defined app]. rewrite bind_ret.
  (* memset *)
  unfold memset.
  rewrite (proj2 (Z.leb_le 0 _)) by (fold m; lia).
  rewrite poke_shape.
  - cbn [defined]. rewrite bind_ret. reflexivity.
  - rewrite zlen_map. exact Hl2.
  - rewrite zlen_map, zlen_repeat, zlen_skipn; fold m; lia.
Qed.

End SharedSecret.

(** ** Lines 149-180: the KEK parameters *)

Lemma Z_of_byte_inj (a b : byte) : Z_of_byte a = Z_of_byte b -> a = b.
Proof.
  intros H. rewrite <- (byte_of_Z_of_byte a), <- (byte_of_Z_of_byte b), H.
  reflexivity.
Qed.

Lemma decode_kek_params_valid (h c : byte) :
  In (Z_of_byte h)
     [DIGEST_ALGO_SHA256; DIGEST_ALGO_SHA384; DIGEST_ALGO_SHA512] ->
  In (Z_of_byte c)
     [CIPHER_ALGO_AES; CIPHER_ALGO_AES192; CIPHER_ALGO_AES256] ->
  decode_kek_params [x03; x01; h; c] = inr (Z_of_byte h, Z_of_byte c).
Proof.
  intros Hh Hc. unfold decode_kek_params.
  cbn [nth zlen length Z.of_nat]. change (Z_of_byte x03) with 3.
  change (Z_of_byte x01) with 1. cbn [Z.eqb Pos.eqb Pos.of_succ_nat
    Pos.succ negb orb].
  simpl in Hh, Hc.
  destruct Hh as [Hh|[Hh|[Hh|[]]]]; destruct Hc as [Hc|[Hc|[Hc|[]]]];
    rewrite <- Hh, <- Hc; reflexivity.
Qed.

Lemma decode_kek_params_inr (blob : list byte) (h c : Z) :
  decode_kek_params blob = inr (h, c) ->
  exists bh bc : byte,
    blob = [x03; x01; bh; bc] /\ h = Z_of_byte bh /\ c = Z_of_byte bc
    /\ In h [DIGEST_ALGO_SHA256; DIGEST_ALGO_SHA384; DIGEST_ALGO_SHA512]
    /\ In c [CIPHER_ALGO_AES; CIPHER_ALGO_AES192; CIPHER_ALGO_AES256].
Proof.
  unfold decode_kek_params. intros H.
  destruct (zlen blob =? 4) eqn:E4; [|discriminate].
  apply Z.eqb_eq in E4.
  destruct blob as [|b0 [|b1 [|bh [|bc [|? ?]]]]];
    try (unfold zlen in E4; simpl in E4; lia).
  cbn [nth negb orb] in H.
  destruct (Z_of_byte b0 =? 3) eqn:E0; [|discriminate].
  destruct (Z_of_byte b1 =? 1) eqn:E1; [|discriminate].
  apply Z.eqb_eq in E0, E1.
  cbn [negb orb] in H.
  assert (b0 = x03) as -> by (apply Z_of_byte_inj; exact E0).
  assert (b1 = x01) as -> by (apply Z_of_byte_inj; exact E1).
  exists bh, bc.
  destruct (Z_of_byte bh =? GCRY_MD_SHA256) eqn:H1;
  destruct (Z_of_byte bh =? GCRY_MD_SHA384) eqn:H2;
  destruct (Z_of_byte bh =? GCRY_MD_SHA512) eqn:H3;
  destruct (Z_of_byte bc =? GCRY_CIPHER_AES128) eqn:C1;
  destruct (Z_of_byte bc =? GCRY_CIPHER_AES192) eqn:C2;
  destruct (Z_of_byte bc =? GCRY_CIPHER_AES256) eqn:C3;
  cbn [negb andb] in H; try discriminate;
  injection H as <- <-;
  rewrite ?Z.eqb_eq in *;
  (split; [reflexivity|]); (split; [reflexivity|]);
  (split; [reflexivity|]); simpl;
  unfold DIGEST_ALGO_SHA256, DIGEST_ALGO_SHA384, DIGEST_ALGO_SHA512,
    CIPHER_ALGO_AES, CIPHER_ALGO_AES192, CIPHER_ALGO_AES256,
    GCRY_MD_SHA256, GCRY_MD_SHA384, GCRY_MD_SHA512,
    GCRY_CIPHER_AES128, GCRY_CIPHER_AES192, GCRY_CIPHER_AES256 in *;
  split; lia.
Qed.

Lemma decode_kek_params_inl (blob : list byte) (rc : gpg_error_t) :
  decode_kek_params blob = inl rc -> rc = GPG_ERR_BAD_PUBKEY.
Proof.
  unfold decode_kek_params.
  repeat match goal with
         | |- context [if ?b then _ else _] => destruct b
         end; intros H; try discriminate; injection H as <-; reflexivity.
Qed.

Lemma dlen_cases (h : Z) :
  In h [DIGEST_ALGO_SHA256; DIGEST_ALGO_SHA384; DIGEST_ALGO_SHA512] ->
  32 <= gcry_md_get_algo_dlen h <= 64.
Proof.
  simpl. intros [<-|[<-|[<-|[]]]]; vm_compute; split; discriminate.
Qed.

Lemma keylen_cases (c : Z) :
  In c [CIPHER_ALGO_AES; CIPHER_ALGO_AES192; CIPHER_ALGO_AES256] ->
  16 <= gcry_cipher_get_algo_keylen c <= 32.
Proof.
  simpl. intros [<-|[<-|[<-|[]]]]; vm_compute; split; discriminate.
Qed.

Lemma peek_fp (pk_fp : list byte) :
  20 <= zlen pk_fp -> peek (map Some pk_fp) 0 20 = Some (firstn 20 pk_fp).
Proof.
  intros H.
  rewrite <- (firstn_skipn 20 pk_fp) at 1. rewrite map_app.
  rewrite <- (app_nil_l (map Some (firstn 20 pk_fp) ++ _)).
  apply peek_shape; [reflexivity|].
  change 20%nat with (Z.to_nat 20). apply zlen_firstn. lia.
Qed.

Section KeyLemmas.
Context {B : Backend}.
Variables (shared_mpi : gcry_mpi_t) (pk_fp : list byte) (pkey : pubkey).
Variables (oid : list byte) (h c : byte).
Hypothesis Hb : backend_ok B.
Hypothesis Hk : key_ok shared_mpi pk_fp pkey oid h c.

Lemma read_kek_params_ok :
  read_kek_params pkey = ret (Z_of_byte h, Z_of_byte c).
Proof.
  unfold read_kek_params. rewrite (ko_kek _ _ _ _ _ _ Hk).
  unfold iobuf_temp_to_buffer, sizeof_kdf_params.
  change (firstn (Z.to_nat 256) [x03; x01; h; c]) with [x03; x01; h; c].
  rewrite (decode_kek_params_valid _ _ (ko_hash _ _ _ _ _ _ Hk) (ko_cipher _ _ _ _ _ _ Hk)).
  reflexivity.
Qed.

Lemma build_kdf_params_ok :
  build_kdf_params pkey pk_fp = ret (kdf_params_of pk_fp oid h c).
Proof.
  unfold build_kdf_params. rewrite (ko_oid _ _ _ _ _ _ Hk).
  cbn [is_error gpg_error_eqb negb]. rewrite (ko_kek _ _ _ _ _ _ Hk).
  rewrite (peek_fp _ (ko_fp _ _ _ _ _ _ Hk)). cbn [defined]. rewrite bind_ret.
  cbn [check_rc is_error gpg_error_eqb negb]. rewrite bind_ret.
  reflexivity.
Qed.

Lemma derive_kek_ok (blk : list cell) :
  blk = map Some (shared_secret shared_mpi pkey
                  ++ repeat x00 (Z.to_nat (mpi_nbytes shared_mpi
                                           - coordinate_size pkey)))
        ++ fresh (mpi_nbytes (pkey_1 pkey) - mpi_nbytes shared_mpi) ->
  derive_kek (Z_of_byte h) (Z_of_byte c) blk (coordinate_size pkey)
    (kdf_params_of pk_fp oid h c)
  = ([Call_md_open; Call_md_final],
     Next (secret_x_after_kdf shared_mpi pk_fp pkey oid h c,
           gcry_cipher_get_algo_keylen (Z_of_byte c))).
Proof.
  intros Eblk.
  pose proof (dlen_cases _ (ko_hash _ _ _ _ _ _ Hk)) as Hd.
  pose proof (keylen_cases _ (ko_cipher _ _ _ _ _ _ Hk)) as Hc.
  pose proof (ko_fits _ _ _ _ _ _ Hk) as Hfits.
  pose proof (ko_framed _ _ _ _ _ _ Hk) as Hfr.
  pose proof (ko_digest _ _ _ _ _ _ Hk) as Hdig.
  pose proof (ko_keylen _ _ _ _ _ _ Hk) as Hkl.
  pose proof (mpi_octets_length shared_mpi) as Hm.
  assert (Hn0 : 0 <= coordinate_size pkey)
    by (unfold coordinate_size; apply Z.div_pos; lia).
  assert (Hss : zlen (shared_secret shared_mpi pkey) = coordinate_size pkey).
  { unfold shared_secret. apply zlen_firstn.
    change 1%nat with (Z.to_nat 1). rewrite zlen_skipn; lia. }
  assert (Hblk : zlen blk = mpi_nbytes (pkey_1 pkey)).
  { rewrite Eblk, zlen_app, zlen_map, zlen_app, Hss, zlen_repeat,
      zlen_fresh; lia. }
  unfold secret_x_after_kdf. rewrite <- Eblk.
  set (dg := kdf_digest shared_mpi pk_fp pkey oid h c).
  assert (Hdl : zlen dg = gcry_md_get_algo_dlen (Z_of_byte h))
    by apply (md_read_length _ Hb).
  unfold derive_kek.
  apply bind_calling.
  rewrite (md_open_ok _ Hb) by lia.
  cbn [is_error gpg_error_eqb negb]. rewrite bind_ret.
  (* gcry_md_write (h, secret_x, secret_x_size) *)
  assert (Hpeek : peek blk 0 (coordinate_size pkey)
                  = Some (shared_secret shared_mpi pkey)).
  { rewrite Eblk, map_app, <- app_assoc.
    rewrite <- (app_nil_l (map Some (shared_secret _ _) ++ _)).
    apply peek_shape; [reflexivity|exact Hss]. }
  rewrite Hpeek. cbn [defined]. rewrite bind_ret.
  apply bind_calling.
  fold (kdf_digest shared_mpi pk_fp pkey oid h c). fold dg.
  rewrite geb_true by lia.
  cbn [assert]. rewrite bind_ret.
  (* memcpy (secret_x, gcry_md_read (h, kdf_hash_algo), dlen) *)
  assert (Hpd : peek (map Some dg) 0 (gcry_md_get_algo_dlen (Z_of_byte h))
                = Some dg).
  { rewrite <- (app_nil_r (map Some dg)).
    rewrite <- (app_nil_l (map Some dg ++ [])).
    apply peek_shape; [reflexivity|exact Hdl]. }
  rewrite Hpd. cbn [defined]. rewrite bind_ret.
  assert (Hpoke : poke blk 0 dg
                  = Some (map Some dg
                          ++ skipn (Z.to_nat (gcry_md_get_algo_dlen
                                                (Z_of_byte h))) blk)).
  { rewrite <- (firstn_skipn
                  (Z.to_nat (gcry_md_get_algo_dlen (Z_of_byte h))) blk) at 1.
    rewrite <- (app_nil_l (firstn _ blk ++ _)).
    apply poke_shape; [reflexivity|].
    rewrite zlen_firstn; lia. }
  rewrite Hpoke. cbn [defined]. rewrite bind_ret.
  rewrite geb_true by lia. cbn [assert]. rewrite bind_ret.
  rewrite (proj2 (Z.leb_le _ _)) by lia.
  cbn [assert]. rewrite bind_ret.
  (* the memset of line 236 writes no octet *)
  set (buf := map Some dg ++ _).
  assert (Hbuf : zlen buf = mpi_nbytes (pkey_1 pkey)).
  { unfold buf. rewrite zlen_app, zlen_map, zlen_skipn; lia. }
  assert (Hset : memset buf (gcry_cipher_get_algo_keylen (Z_of_byte c))
                   (coordinate_size pkey
                    - gcry_cipher_get_algo_keylen (Z_of_byte c)) 0
                 = Some buf).
  { unfold memset. cbn [Z.leb Z.compare Z.to_nat repeat].
    rewrite <- (firstn_skipn (Z.to_nat (gcry_cipher_get_algo_keylen
                                         (Z_of_byte c))) buf) at 1.
    rewrite <- (app_nil_l (skipn _ buf)).
    rewrite poke_shape.
    - cbn [map app]. rewrite firstn_skipn. reflexivity.
    - apply zlen_firstn. lia.
    - reflexivity. }
  rewrite Hset. cbn [defined]. rewrite bind_ret. reflexivity.
Qed.

Lemma kek_of_ok :
  kek_of shared_mpi pk_fp pkey
  = ([Call_mpi_print; Call_md_open; Call_md_final],
     Next (Z_of_byte c, secret_x_after_kdf shared_mpi pk_fp pkey oid h c,
           gcry_cipher_get_algo_keylen (Z_of_byte c))).
Proof.
  pose proof (ko_fits _ _ _ _ _ _ Hk) as Hfits.
  pose proof (ko_framed _ _ _ _ _ _ Hk) as Hfr.
  pose proof (mpi_octets_length shared_mpi) as Hm.
  unfold kek_of.
  rewrite extract_secret_x_ok; fold (coordinate_size pkey);
    rewrite ?Hm; try lia.
  rewrite bind_Next. cbn [fst snd].
  rewrite read_kek_params_ok, bind_ret.
  rewrite build_kdf_params_ok, bind_ret. cbn [fst snd].
  fold (shared_secret shared_mpi pkey).
  rewrite derive_kek_ok by reflexivity.
  rewrite bind_Next. reflexivity.
Qed.

Lemma zlen_kdf_digest :
  zlen (kdf_digest shared_mpi pk_fp pkey oid h c)
  = gcry_md_get_algo_dlen (Z_of_byte h).
Proof. apply (md_read_length _ Hb). Qed.

Lemma zlen_kek_octets :
  zlen (kek_octets shared_mpi pk_fp pkey oid h c)
  = gcry_cipher_get_algo_keylen (Z_of_byte c).
Proof.
  pose proof (dlen_cases _ (ko_hash _ _ _ _ _ _ Hk)) as Hd.
  pose proof (keylen_cases _ (ko_cipher _ _ _ _ _ _ Hk)) as Hc.
  unfold kek_octets. apply zlen_firstn. rewrite zlen_kdf_digest.
  lia.
Qed.

(** The key that [gcry_cipher_setkey] is given. *)
Lemma peek_kek :
  peek (secret_x_after_kdf shared_mpi pk_fp pkey oid h c) 0 (gcry_cipher_get_algo_keylen (Z_of_byte c))
  = Some (kek_octets shared_mpi pk_fp pkey oid h c).
Proof.
  pose proof (dlen_cases _ (ko_hash _ _ _ _ _ _ Hk)) as Hd.
  pose proof (keylen_cases _ (ko_cipher _ _ _ _ _ _ Hk)) as Hc.
  unfold secret_x_after_kdf.
  rewrite <- (firstn_skipn (Z.to_nat (gcry_cipher_get_algo_keylen
                                       (Z_of_byte c)))
                (kdf_digest shared_mpi pk_fp pkey oid h c)) at 1.
  fold (kek_octets shared_mpi pk_fp pkey oid h c).
  rewrite map_app, <- app_assoc.
  rewrite <- (app_nil_l (map Some (kek_octets _ _ _ _ _ _) ++ _)).
  apply peek_shape; [reflexivity|apply zlen_kek_octets].
Qed.

End KeyLemmas.

(** ** Lines 241-379: the wrap and the unwrap *)

Lemma land_7 (x : Z) : 0 <= x -> Z.land x 7 = x mod 8.
Proof.
  intros H. change 7 with (Z.ones 3). rewrite Z.land_ones by lia.
  reflexivity.
Qed.

Ltac mstep :=
  cbn [defined assert check_rc is_error gpg_error_eqb negb];
  first [ rewrite bind_ret | apply bind_calling ].

Section Aeswrap.
Context {B : Backend}.
Variables (kdf_encr_algo : Z) (secret_x : list cell) (secret_x_size : Z).
Variables (key : list byte) (data : gcry_mpi_t).
Hypothesis Hopen : gcry_cipher_open kdf_encr_algo = GPG_ERR_NO_ERROR.
Hypothesis Hkey : peek secret_x 0 secret_x_size = Some key.
Hypothesis Hsetkey : gcry_cipher_setkey kdf_encr_algo key = GPG_ERR_NO_ERROR.

(** [data_buf_size] of line 269. *)
Let size := mpi_nbytes data.

Lemma aeswrap_data_assert (is_encrypt : bool) :
  size mod 8 <> (if is_encrypt then 0 else 1) ->
  aeswrap_data is_encrypt kdf_encr_algo secret_x secret_x_size data
  = ([Call_cipher_open; Call_cipher_setkey], Stop AssertionFailed).
Proof.
  intros Hm. unfold aeswrap_data.
  mstep. rewrite Hopen. mstep. rewrite Hkey. mstep. mstep.
  rewrite Hsetkey. mstep.
  fold (mpi_nbytes data). fold size.
  rewrite land_7 by apply mpi_nbytes_nonneg.
  rewrite (proj2 (Z.eqb_neq _ _)) by exact Hm.
  reflexivity.
Qed.

Lemma gcry_mpi_print_exact :
  gcry_mpi_print size data = (GPG_ERR_NO_ERROR, mpi_octets data).
Proof.
  unfold gcry_mpi_print. fold (mpi_nbytes data). fold size.
  rewrite gtb_false by lia. reflexivity.
Qed.

(** The wrap, lines 279-325, for a size that fits the length octet. *)
Lemma aeswrap_data_encrypt (wrapped : list byte) :
  size mod 8 = 0 -> size + 8 <= 255 ->
  xtrymalloc_secure (1 + 2 * size + 8) = true ->
  gcry_cipher_encrypt kdf_encr_algo key (size + 8) (mpi_octets data)
  = (GPG_ERR_NO_ERROR, wrapped) ->
  zlen wrapped = size + 8 ->
  aeswrap_data true kdf_encr_algo secret_x secret_x_size data
  = ([Call_cipher_open; Call_cipher_setkey; Call_mpi_print;
      Call_cipher_encrypt; Call_mpi_scan],
     Stop (Returns (GPG_ERR_NO_ERROR,
                    Some (gcry_mpi_scan (byte_of_Z (size + 8) :: wrapped))))).
Proof.
  intros Hm Hmax Halloc Henc Hwl.
  pose proof (mpi_nbytes_nonneg data) as Hs0. fold size in Hs0.
  pose proof (mpi_octets_length data) as Hol. fold size in Hol.
  unfold aeswrap_data.
  mstep. rewrite Hopen. mstep. rewrite Hkey. mstep. mstep.
  rewrite Hsetkey. mstep.
  fold (mpi_nbytes data). fold size.
  rewrite land_7 by exact Hs0. rewrite Hm. cbn [Z.eqb]. mstep.
  rewrite Halloc. cbn [negb]. mstep.
  rewrite gcry_mpi_print_exact. mstep.
  (* the data MPI goes to the end of data_buf *)
  rewrite (fresh_split (1 + 2 * size + 8) (1 + size + 8)) by lia.
  replace (1 + 2 * size + 8 - (1 + size + 8)) with size by lia.
  rewrite <- (app_nil_r (fresh size)).
  rewrite (poke_shape (fresh (1 + size + 8)) (fresh size) [] (mpi_octets data))
    by (rewrite zlen_fresh; lia).
  mstep.
  rewrite peek_shape by (try rewrite zlen_fresh; lia).
  mstep. mstep. rewrite Henc.
  (* the wrap goes behind the length octet *)
  rewrite (fresh_split (1 + size + 8) 1) by lia.
  replace (1 + size + 8 - 1) with (size + 8) by lia.
  rewrite <- app_assoc.
  rewrite (poke_shape (fresh 1) (fresh (size + 8)) _ wrapped)
    by (rewrite zlen_fresh; lia).
  mstep.
  (* memset (in, 0, data_buf_size) *)
  unfold memset. rewrite (proj2 (Z.leb_le 0 size)) by exact Hs0.
  rewrite (app_assoc (fresh 1)).
  rewrite (poke_shape (fresh 1 ++ map Some wrapped) (map Some (mpi_octets data))
             [] (repeat (byte_of_Z 0) (Z.to_nat size)))
    by (rewrite ?zlen_app, ?zlen_map, ?zlen_repeat, ?zlen_fresh; lia).
  mstep. mstep.
  (* data_buf[0] = data_buf_size+8 *)
  rewrite <- app_assoc.
  rewrite <- (app_nil_l (fresh 1 ++ _)).
  rewrite (poke_shape [] (fresh 1) _ [byte_of_Z (size + 8)])
    by reflexivity.
  mstep.
  unfold peek1.
  rewrite (peek_shape [] _ [byte_of_Z (size + 8)] 0 1) by reflexivity.
  mstep.
  rewrite Z_of_byte_of_Z, Z.mod_small by lia.
  rewrite (app_assoc (map Some [byte_of_Z (size + 8)])), <- map_app.
  cbn [app].
  rewrite peek_prefix by (rewrite zlen_cons; lia).
  mstep. mstep. reflexivity.
Qed.

(** The unwrap, lines 326-378, up to the check of the length octet. *)
Lemma aeswrap_data_bad_mpi :
  size mod 8 = 1 ->
  xtrymalloc_secure (1 + 2 * size + 8) = true ->
  Z_of_byte (hd x00 (mpi_octets data)) <> size - 1 ->
  aeswrap_data false kdf_encr_algo secret_x secret_x_size data
  = ([Call_cipher_open; Call_cipher_setkey; Call_mpi_print],
     Stop (Returns (GPG_ERR_BAD_MPI, None))).
Proof.
  intros Hm Halloc Hhd.
  pose proof (mpi_nbytes_nonneg data) as Hs0. fold size in Hs0.
  pose proof (mpi_octets_length data) as Hol. fold size in Hol.
  assert (Hs1 : 1 <= size).
  { pose proof (Z.div_mod size 8 ltac:(lia)). lia. }
  destruct (mpi_octets data) as [|b rest] eqn:Eo;
    [unfold zlen in Hol; simpl in Hol; lia|].
  cbn [hd] in Hhd. rewrite zlen_cons in Hol.
  unfold aeswrap_data.
  mstep. rewrite Hopen. mstep. rewrite Hkey. mstep. mstep.
  rewrite Hsetkey. mstep.
  fold (mpi_nbytes data). fold size.
  rewrite land_7 by exact Hs0. rewrite Hm. cbn [Z.eqb Pos.eqb]. mstep.
  rewrite Halloc. cbn [negb]. mstep.
  rewrite gcry_mpi_print_exact, Eo. mstep.
  rewrite (fresh_split (1 + 2 * size + 8) size) by lia.
  rewrite poke_prefix by (rewrite zlen_fresh, zlen_cons; lia).
  mstep. rewrite zlen_cons.
  rewrite (proj2 (Z.eqb_eq _ _)) by lia. cbn [negb].
  unfold peek1. cbn [map app].
  change (Some b :: map Some rest ++ ?r)
    with (map Some [b] ++ (map Some rest ++ r)).
  rewrite peek_prefix by reflexivity.
  mstep.
  rewrite (proj2 (Z.eqb_neq _ _)) by exact Hhd.
  reflexivity.
Qed.


Lemma aeswrap_data_decrypt (b : byte) (wrapped plain : list byte) :
  size mod 8 = 1 ->
  xtrymalloc_secure (1 + 2 * size + 8) = true ->
  mpi_octets data = b :: wrapped ->
  Z_of_byte b = size - 1 ->
  gcry_cipher_decrypt kdf_encr_algo key (size - 1) wrapped
  = (GPG_ERR_NO_ERROR, plain) ->
  zlen plain = size - 1 - 8 ->
  aeswrap_data false kdf_encr_algo secret_x secret_x_size data
  = ([Call_cipher_open; Call_cipher_setkey; Call_mpi_print;
      Call_cipher_decrypt; Call_mpi_scan],
     Stop (Returns (GPG_ERR_NO_ERROR, Some (gcry_mpi_scan plain)))).
Proof.
  intros Hm Halloc Eo Hb0 Hdec Hpl.
  pose proof (mpi_nbytes_nonneg data) as Hs0. fold size in Hs0.
  pose proof (mpi_octets_length data) as Hol. fold size in Hol.
  pose proof (zlen_nonneg plain) as Hp0.
  rewrite Eo, zlen_cons in Hol.
  unfold aeswrap_data.
  mstep. rewrite Hopen. mstep. rewrite Hkey. mstep. mstep.
  rewrite Hsetkey. mstep.
  fold (mpi_nbytes data). fold size.
  rewrite land_7 by exact Hs0. rewrite Hm. cbn [Z.eqb Pos.eqb]. mstep.
  rewrite Halloc. cbn [negb]. mstep.
  rewrite gcry_mpi_print_exact, Eo. mstep.
  rewrite (fresh_split (1 + 2 * size + 8) size) by lia.
  rewrite poke_prefix by (rewrite zlen_fresh, zlen_cons; lia).
  mstep. rewrite zlen_cons.
  rewrite (proj2 (Z.eqb_eq _ _)) by lia. cbn [negb].
  unfold peek1. cbn [map app].
  change (Some b :: map Some wrapped ++ ?r)
    with (map Some [b] ++ (map Some wrapped ++ r)).
  rewrite peek_prefix by reflexivity.
  mstep.
  rewrite (proj2 (Z.eqb_eq _ _)) by exact Hb0. cbn [negb].
  rewrite Hb0.
  rewrite (peek_shape (map Some [b]) _ wrapped 1 (size - 1))
    by (try reflexivity; lia).
  mstep. mstep. rewrite Hdec.
  rewrite (app_assoc (map Some [b])), <- map_app. cbn [app].
  rewrite (fresh_split (1 + 2 * size + 8 - size) (zlen plain)) by lia.
  rewrite (poke_shape (map Some (b :: wrapped)) (fresh (zlen plain)) _
             plain size)
    by (rewrite ?zlen_map, ?zlen_cons, ?zlen_fresh; lia).
  mstep. mstep.
  rewrite peek_shape by (rewrite ?zlen_map, ?zlen_cons; lia).
  mstep. mstep. reflexivity.
Qed.

(** With a matching length octet the unwrap is called, whatever the
    length is. *)
Lemma aeswrap_data_unwrap_called (b : byte) (wrapped : list byte) :
  size mod 8 = 1 ->
  xtrymalloc_secure (1 + 2 * size + 8) = true ->
  mpi_octets data = b :: wrapped ->
  Z_of_byte b = size - 1 ->
  exists t o,
    aeswrap_data false kdf_encr_algo secret_x secret_x_size data
    = ([Call_cipher_open; Call_cipher_setkey; Call_mpi_print;
        Call_cipher_decrypt] ++ t, Stop o).
Proof.
  intros Hm Halloc Eo Hb0.
  pose proof (mpi_nbytes_nonneg data) as Hs0. fold size in Hs0.
  pose proof (mpi_octets_length data) as Hol. fold size in Hol.
  rewrite Eo, zlen_cons in Hol.
  enough (exists X : M unit,
            aeswrap_data false kdf_encr_algo secret_x secret_x_size data
            = ([Call_cipher_open; Call_cipher_setkey; Call_mpi_print;
                Call_cipher_decrypt] ++ fst X, snd X)
            /\ exists t o, X = (t, Stop o)) as (X & -> & t & o & ->)
    by (exists t, o; reflexivity).
  eexists. split.
  - unfold aeswrap_data. cbn [app].
    mstep. rewrite Hopen. mstep. rewrite Hkey. mstep. mstep.
    rewrite Hsetkey. mstep.
    fold (mpi_nbytes data). fold size.
    rewrite land_7 by exact Hs0. rewrite Hm. cbn [Z.eqb Pos.eqb]. mstep.
    rewrite Halloc. cbn [negb]. mstep.
    rewrite gcry_mpi_print_exact, Eo. mstep.
    rewrite (fresh_split (1 + 2 * size + 8) size) by lia.
    rewrite poke_prefix by (rewrite zlen_fresh, zlen_cons; lia).
    mstep. rewrite zlen_cons.
    rewrite (proj2 (Z.eqb_eq _ _)) by lia. cbn [negb].
    unfold peek1. cbn [map app].
    change (Some b :: map Some wrapped ++ ?r)
      with (map Some [b] ++ (map Some wrapped ++ r)).
    rewrite peek_prefix by reflexivity.
    mstep.
    rewrite (proj2 (Z.eqb_eq _ _)) by exact Hb0. cbn [negb].
    rewrite Hb0.
    rewrite (peek_shape (map Some [b]) _ wrapped 1 (size - 1))
      by (try reflexivity; lia).
    mstep. mstep. apply surjective_pairing.
  - cbv beta.
    destruct (gcry_cipher_decrypt kdf_encr_algo key (size - 1) wrapped)
      as [rc plain].
    match goal with
    | |- context [poke ?buf size plain] =>
        destruct (poke buf size plain) as [buf'|]
    end; [|eexists; eexists; reflexivity].
    cbn [defined]. rewrite bind_ret.
    destruct rc; cbn [check_rc is_error gpg_error_eqb negb];
      try (eexists; eexists; reflexivity).
    rewrite bind_ret.
    destruct (peek buf' size (size - 1 - 8)) as [octets|];
      eexists; eexists; reflexivity.
Qed.

End Aeswrap.

(** ** The whole function *)

Lemma length_octet_nonzero (L : Z) :
  16 <= L <= 240 -> byte_of_Z (L + 8) <> x00.
Proof.
  intros HL E. apply (f_equal Z_of_byte) in E.
  rewrite Z_of_byte_of_Z, Z.mod_small in E by lia.
  change (Z_of_byte x00) with 0 in E. lia.
Qed.

Section Whole.
Context {B : Backend}.
Variables (shared_mpi : gcry_mpi_t) (pk_fp : list byte) (pkey : pubkey).
Variables (oid : list byte) (h c : byte).
Hypothesis Hb : backend_ok B.
Hypothesis Hk : key_ok shared_mpi pk_fp pkey oid h c.

(** The KEK as [gcry_cipher_setkey] gets it. *)
Let kek := kek_octets shared_mpi pk_fp pkey oid h c.
Let algo := Z_of_byte c.

Lemma keylen_nonzero : gcry_cipher_get_algo_keylen algo <> 0.
Proof.
  pose proof (keylen_cases _ (ko_cipher _ _ _ _ _ _ Hk)). unfold algo. lia.
Qed.

(** Once the KEK is derived, the function ends as its last block does. *)
Lemma pk_ecdh_with_kek (is_encrypt : bool) (data : gcry_mpi_t)
    (t : list call) (o : outcome retval) :
  aeswrap_data is_encrypt algo (secret_x_after_kdf shared_mpi pk_fp pkey oid h c)
    (gcry_cipher_get_algo_keylen algo) data = (t, Stop o) ->
  pk_ecdh_encrypt_with_shared_point is_encrypt shared_mpi pk_fp data pkey
  = ([Call_mpi_print; Call_md_open; Call_md_final] ++ t, o).
Proof.
  intros H. unfold pk_ecdh_encrypt_with_shared_point.
  rewrite (kek_of_ok shared_mpi pk_fp pkey oid h c Hb Hk).
  rewrite bind_Next. cbn [fst snd]. fold algo. rewrite H. reflexivity.
Qed.

Lemma wrap_result (data : gcry_mpi_t) :
  mpi_nbytes data mod 8 = 0 -> 16 <= mpi_nbytes data <= 240 ->
  (forall n, xtrymalloc_secure n = true) ->
  exists wrapped,
    gcry_cipher_encrypt algo kek (mpi_nbytes data + 8) (mpi_octets data)
    = (GPG_ERR_NO_ERROR, wrapped)
    /\ zlen wrapped = mpi_nbytes data + 8
    /\ pk_ecdh_encrypt_with_shared_point true shared_mpi pk_fp data pkey
       = ([Call_mpi_print; Call_md_open; Call_md_final; Call_cipher_open;
           Call_cipher_setkey; Call_mpi_print; Call_cipher_encrypt;
           Call_mpi_scan],
          Returns (GPG_ERR_NO_ERROR,
                   Some (gcry_mpi_scan
                           (byte_of_Z (mpi_nbytes data + 8) :: wrapped)))).
Proof.
  intros Hm HL Halloc.
  pose proof (mpi_octets_length data) as Hol.
  destruct (wrap_ok _ Hb algo kek (mpi_nbytes data + 8) (mpi_octets data))
    as (wrapped & Henc & Hwl); [rewrite Hol; lia ..|].
  exists wrapped. rewrite Hol in Hwl. split; [exact Henc|]. split; [exact Hwl|].
  apply (pk_ecdh_with_kek true data).
  apply (aeswrap_data_encrypt algo _ _ kek data).
  - apply (cipher_open_ok _ Hb), keylen_nonzero.
  - apply (peek_kek shared_mpi pk_fp pkey oid h c Hb Hk).
  - apply (cipher_setkey_ok _ Hb); [apply keylen_nonzero|].
    apply (zlen_kek_octets shared_mpi pk_fp pkey oid h c Hb Hk).
  - exact Hm.
  - lia.
  - apply Halloc.
  - exact Henc.
  - exact Hwl.
Qed.

End Whole.

(* ================================================================== *)
(** * The reference backend meets the contract *)

(** ** Enumeration of the octets *)

Lemma byte_of_N_to_N (b : byte) : AES.byte_of_N (Byte.to_N b) = b.
Proof. unfold AES.byte_of_N. rewrite Byte.of_to_N. reflexivity. Qed.

Lemma all_bytes_complete (b : byte) : In b AES.all_bytes.
Proof.
  assert (H : existsb (Byte.eqb b) AES.all_bytes = true)
    by (destruct b; vm_compute; reflexivity).
  apply existsb_exists in H as (x & Hin & Heq).
  apply Byte.byte_dec_bl in Heq. subst x. exact Hin.
Qed.

Lemma byte_forall (P : byte -> bool) :
  forallb P AES.all_bytes = true -> forall b, P b = true.
Proof.
  intros H b. rewrite forallb_forall in H. apply H, all_bytes_complete.
Qed.

Lemma byte_forall2 (P : byte -> byte -> bool) :
  forallb (fun a => forallb (P a) AES.all_bytes) AES.all_bytes = true ->
  forall a b, P a b = true.
Proof.
  intros H a. apply byte_forall.
  revert a. apply (byte_forall (fun a => forallb (P a) AES.all_bytes)).
  exact H.
Qed.

Lemma byte_eqb_eq (a b : byte) : Byte.eqb a b = true -> a = b.
Proof. apply Byte.byte_dec_bl. Qed.

(** ** GF(2^8) *)

Module GF.
Import AES.

Lemma bxor_comm (a b : byte) : bxor a b = bxor b a.
Proof. unfold bxor. rewrite N.lxor_comm. reflexivity. Qed.

Lemma to_N_bxor (a b : byte) :
  Byte.to_N (bxor a b) = N.lxor (Byte.to_N a) (Byte.to_N b).
Proof.
  apply N.eqb_eq. revert a b.
  apply (byte_forall2 (fun a b => (Byte.to_N (bxor a b)
                                   =? N.lxor (Byte.to_N a) (Byte.to_N b))%N)).
  vm_compute. reflexivity.
Qed.

Lemma bxor_assoc (a b c : byte) : bxor a (bxor b c) = bxor (bxor a b) c.
Proof.
  unfold bxor at 1 3. rewrite !to_N_bxor, N.lxor_assoc. reflexivity.
Qed.

Lemma bxor_0_l (a : byte) : bxor x00 a = a.
Proof.
  unfold bxor. change (Byte.to_N x00) with 0%N.
  rewrite N.lxor_0_l. apply byte_of_N_to_N.
Qed.

Lemma bxor_0_r (a : byte) : bxor a x00 = a.
Proof. rewrite bxor_comm. apply bxor_0_l. Qed.

Lemma bxor_nilpotent (a : byte) : bxor a a = x00.
Proof. unfold bxor. rewrite N.lxor_nilpotent. reflexivity. Qed.

Lemma bxor_cancel (a b : byte) : bxor (bxor a b) b = a.
Proof.
  rewrite <- bxor_assoc, bxor_nilpotent. apply bxor_0_r.
Qed.

Lemma xtime_xor (a b : byte) : xtime (bxor a b) = bxor (xtime a) (xtime b).
Proof.
  apply byte_eqb_eq. revert a b.
  apply (byte_forall2 (fun a b => Byte.eqb (xtime (bxor a b))
                                    (bxor (xtime a) (xtime b)))).
  vm_compute. reflexivity.
Qed.


Lemma mul4_xor (a b : byte) : mul4 (bxor a b) = bxor (mul4 a) (mul4 b).
Proof. unfold mul4. rewrite !xtime_xor. reflexivity. Qed.

Lemma mul8_xor (a b : byte) : mul8 (bxor a b) = bxor (mul8 a) (mul8 b).
Proof. unfold mul8. rewrite mul4_xor, xtime_xor. reflexivity. Qed.

#[local] Instance bxor_Associative : Associative eq bxor.
Proof. intros a b c. apply bxor_assoc. Qed.

#[local] Instance bxor_Commutative : Commutative eq bxor.
Proof. intros a b. apply bxor_comm. Qed.


Lemma mul9_xor (a b : byte) : mul9 (bxor a b) = bxor (mul9 a) (mul9 b).
Proof.
  unfold mul9, mul2. rewrite ?mul8_xor, ?mul4_xor, ?xtime_xor.
  aac_reflexivity.
Qed.

Lemma mul11_xor (a b : byte) : mul11 (bxor a b) = bxor (mul11 a) (mul11 b).
Proof.
  unfold mul11, mul2. rewrite ?mul8_xor, ?mul4_xor, ?xtime_xor.
  aac_reflexivity.
Qed.

Lemma mul13_xor (a b : byte) : mul13 (bxor a b) = bxor (mul13 a) (mul13 b).
Proof.
  unfold mul13, mul2. rewrite ?mul8_xor, ?mul4_xor, ?xtime_xor.
  aac_reflexivity.
Qed.

Lemma mul14_xor (a b : byte) : mul14 (bxor a b) = bxor (mul14 a) (mul14 b).
Proof.
  unfold mul14, mul2. rewrite ?mul8_xor, ?mul4_xor, ?xtime_xor.
  aac_reflexivity.
Qed.

(** The coefficients of the product of the two matrices. *)

Lemma coeff_00 (x : byte) :
  bxor (bxor (mul14 (mul2 x)) (mul11 x)) (bxor (mul13 x) (mul9 (mul3 x))) = x.
Proof.
  apply byte_eqb_eq. revert x.
  apply (byte_forall (fun x => Byte.eqb (bxor (bxor (mul14 (mul2 x)) (mul11 x)) (bxor (mul13 x) (mul9 (mul3 x)))) x)).
  vm_compute. reflexivity.
Qed.

Lemma coeff_01 (x : byte) :
  bxor (bxor (mul14 (mul3 x)) (mul11 (mul2 x))) (bxor (mul13 x) (mul9 x)) = x00.
Proof.
  apply byte_eqb_eq. revert x.
  apply (byte_forall (fun x => Byte.eqb (bxor (bxor (mul14 (mul3 x)) (mul11 (mul2 x))) (bxor (mul13 x) (mul9 x))) x00)).
  vm_compute. reflexivity.
Qed.

Lemma coeff_02 (x : byte) :
  bxor (bxor (mul14 x) (mul11 (mul3 x))) (bxor (mul13 (mul2 x)) (mul9 x)) = x00.
Proof.
  apply byte_eqb_eq. revert x.
  apply (byte_forall (fun x => Byte.eqb (bxor (bxor (mul14 x) (mul11 (mul3 x))) (bxor (mul13 (mul2 x)) (mul9 x))) x00)).
  vm_compute. reflexivity.
Qed.

Lemma coeff_03 (x : byte) :
  bxor (bxor (mul14 x) (mul11 x)) (bxor (mul13 (mul3 x)) (mul9 (mul2 x))) = x00.
Proof.
  apply byte_eqb_eq. revert x.
  apply (byte_forall (fun x => Byte.eqb (bxor (bxor (mul14 x) (mul11 x)) (bxor (mul13 (mul3 x)) (mul9 (mul2 x)))) x00)).
  vm_compute. reflexivity.
Qed.

Lemma coeff_10 (x : byte) :
  bxor (bxor (mul9 (mul2 x)) (mul14 x)) (bxor (mul11 x) (mul13 (mul3 x))) = x00.
Proof.
  apply byte_eqb_eq. revert x.
  apply (byte_forall (fun x => Byte.eqb (bxor (bxor (mul9 (mul2 x)) (mul14 x)) (bxor (mul11 x) (mul13 (mul3 x)))) x00)).
  vm_compute. reflexivity.
Qed.

Lemma coeff_11 (x : byte) :
  bxor (bxor (mul9 (mul3 x)) (mul14 (mul2 x))) (bxor (mul11 x) (mul13 x)) = x.
Proof.
  apply byte_eqb_eq. revert x.
  apply (byte_forall (fun x => Byte.eqb (bxor (bxor (mul9 (mul3 x)) (mul14 (mul2 x))) (bxor (mul11 x) (mul13 x))) x)).
  vm_compute. reflexivity.
Qed.

Lemma coeff_12 (x : byte) :
  bxor (bxor (mul9 x) (mul14 (mul3 x))) (bxor (mul11 (mul2 x)) (mul13 x)) = x00.
Proof.
  apply byte_eqb_eq. revert x.
  apply (byte_forall (fun x => Byte.eqb (bxor (bxor (mul9 x) (mul14 (mul3 x))) (bxor (mul11 (mul2 x)) (mul13 x))) x00)).
  vm_compute. reflexivity.
Qed.

Lemma coeff_13 (x : byte) :
  bxor (bxor (mul9 x) (mul14 x)) (bxor (mul11 (mul3 x)) (mul13 (mul2 x))) = x00.
Proof.
  apply byte_eqb_eq. revert x.
  apply (byte_forall (fun x => Byte.eqb (bxor (bxor (mul9 x) (mul14 x)) (bxor (mul11 (mul3 x)) (mul13 (mul2 x)))) x00)).
  vm_compute. reflexivity.
Qed.

Lemma coeff_20 (x : byte) :
  bxor (bxor (mul13 (mul2 x)) (mul9 x)) (bxor (mul14 x) (mul11 (mul3 x))) = x00.
Proof.
  apply byte_eqb_eq. revert x.
  apply (byte_forall (fun x => Byte.eqb (bxor (bxor (mul13 (mul2 x)) (mul9 x)) (bxor (mul14 x) (mul11 (mul3 x)))) x00)).
  vm_compute. reflexivity.
Qed.

Lemma coeff_21 (x : byte) :
  bxor (bxor (mul13 (mul3 x)) (mul9 (mul2 x))) (bxor (mul14 x) (mul11 x)) = x00.
Proof.
  apply byte_eqb_eq. revert x.
  apply (byte_forall (fun x => Byte.eqb (bxor (bxor (mul13 (mul3 x)) (mul9 (mul2 x))) (bxor (mul14 x) (mul11 x))) x00)).
  vm_compute. reflexivity.
Qed.

Lemma coeff_22 (x : byte) :
  bxor (bxor (mul13 x) (mul9 (mul3 x))) (bxor (mul14 (mul2 x)) (mul11 x)) = x.
Proof.
  apply byte_eqb_eq. revert x.
  apply (byte_forall (fun x => Byte.eqb (bxor (bxor (mul13 x) (mul9 (mul3 x))) (bxor (mul14 (mul2 x)) (mul11 x))) x)).
  vm_compute. reflexivity.
Qed.

Lemma coeff_23 (x : byte) :
  bxor (bxor (mul13 x) (mul9 x)) (bxor (mul14 (mul3 x)) (mul11 (mul2 x))) = x00.
Proof.
  apply byte_eqb_eq. revert x.
  apply (byte_forall (fun x => Byte.eqb (bxor (bxor (mul13 x) (mul9 x)) (bxor (mul14 (mul3 x)) (mul11 (mul2 x)))) x00)).
  vm_compute. reflexivity.
Qed.

Lemma coeff_30 (x : byte) :
  bxor (bxor (mul11 (mul2 x)) (mul13 x)) (bxor (mul9 x) (mul14 (mul3 x))) = x00.
Proof.
  apply byte_eqb_eq. revert x.
  apply (byte_forall (fun x => Byte.eqb (bxor (bxor (mul11 (mul2 x)) (mul13 x)) (bxor (mul9 x) (mul14 (mul3 x)))) x00)).
  vm_compute. reflexivity.
Qed.

Lemma coeff_31 (x : byte) :
  bxor (bxor (mul11 (mul3 x)) (mul13 (mul2 x))) (bxor (mul9 x) (mul14 x)) = x00.
Proof.
  apply byte_eqb_eq. revert x.
  apply (byte_forall (fun x => Byte.eqb (bxor (bxor (mul11 (mul3 x)) (mul13 (mul2 x))) (bxor (mul9 x) (mul14 x))) x00)).
  vm_compute. reflexivity.
Qed.

Lemma coeff_32 (x : byte) :
  bxor (bxor (mul11 x) (mul13 (mul3 x))) (bxor (mul9 (mul2 x)) (mul14 x)) = x00.
Proof.
  apply byte_eqb_eq. revert x.
  apply (byte_forall (fun x => Byte.eqb (bxor (bxor (mul11 x) (mul13 (mul3 x))) (bxor (mul9 (mul2 x)) (mul14 x))) x00)).
  vm_compute. reflexivity.
Qed.

Lemma coeff_33 (x : byte) :
  bxor (bxor (mul11 x) (mul13 x)) (bxor (mul9 (mul3 x)) (mul14 (mul2 x))) = x.
Proof.
  apply byte_eqb_eq. revert x.
  apply (byte_forall (fun x => Byte.eqb (bxor (bxor (mul11 x) (mul13 x)) (bxor (mul9 (mul3 x)) (mul14 (mul2 x)))) x)).
  vm_compute. reflexivity.
Qed.

(** Exclusive or of four sums of four, column by column. *)
Lemma pairwise (a0 a1 a2 a3 b0 b1 b2 b3 : byte) :
  bxor (bxor (bxor a0 a1) (bxor a2 a3)) (bxor (bxor b0 b1) (bxor b2 b3))
  = bxor (bxor (bxor a0 b0) (bxor a1 b1)) (bxor (bxor a2 b2) (bxor a3 b3)).
Proof. aac_reflexivity. Qed.

Lemma transpose (a0 a1 a2 a3 b0 b1 b2 b3 c0 c1 c2 c3 d0 d1 d2 d3 : byte) :
  bxor (bxor (bxor (bxor a0 a1) (bxor a2 a3))
             (bxor (bxor b0 b1) (bxor b2 b3)))
       (bxor (bxor (bxor c0 c1) (bxor c2 c3))
             (bxor (bxor d0 d1) (bxor d2 d3)))
  = bxor (bxor (bxor (bxor a0 b0) (bxor c0 d0))
               (bxor (bxor a1 b1) (bxor c1 d1)))
         (bxor (bxor (bxor a2 b2) (bxor c2 d2))
               (bxor (bxor a3 b3) (bxor c3 d3))).
Proof.
  rewrite (pairwise a0 a1 a2 a3 b0 b1 b2 b3).
  rewrite (pairwise c0 c1 c2 c3 d0 d1 d2 d3).
  apply pairwise.
Qed.

Lemma mul9_xor4 (p q r s : byte) :
  mul9 (bxor (bxor p q) (bxor r s))
  = bxor (bxor (mul9 p) (mul9 q)) (bxor (mul9 r) (mul9 s)).
Proof. rewrite !mul9_xor. reflexivity. Qed.

Lemma mul11_xor4 (p q r s : byte) :
  mul11 (bxor (bxor p q) (bxor r s))
  = bxor (bxor (mul11 p) (mul11 q)) (bxor (mul11 r) (mul11 s)).
Proof. rewrite !mul11_xor. reflexivity. Qed.

Lemma mul13_xor4 (p q r s : byte) :
  mul13 (bxor (bxor p q) (bxor r s))
  = bxor (bxor (mul13 p) (mul13 q)) (bxor (mul13 r) (mul13 s)).
Proof. rewrite !mul13_xor. reflexivity. Qed.

Lemma mul14_xor4 (p q r s : byte) :
  mul14 (bxor (bxor p q) (bxor r s))
  = bxor (bxor (mul14 p) (mul14 q)) (bxor (mul14 r) (mul14 s)).
Proof. rewrite !mul14_xor. reflexivity. Qed.

Lemma inv_mix_row_0 (a b c d : byte) :
  bxor (bxor (mul14 (bxor (bxor (mul2 a) (mul3 b)) (bxor c d)))
              (mul11 (bxor (bxor a (mul2 b)) (bxor (mul3 c) d))))
        (bxor (mul13 (bxor (bxor a b) (bxor (mul2 c) (mul3 d))))
              (mul9 (bxor (bxor (mul3 a) b) (bxor c (mul2 d)))))
  = a.
Proof.
  rewrite mul9_xor4, mul11_xor4, mul13_xor4, mul14_xor4.
  rewrite transpose.
  rewrite coeff_00, coeff_01, coeff_02, coeff_03.
  rewrite ?bxor_0_l, ?bxor_0_r. reflexivity.
Qed.

Lemma inv_mix_row_1 (a b c d : byte) :
  bxor (bxor (mul9 (bxor (bxor (mul2 a) (mul3 b)) (bxor c d)))
              (mul14 (bxor (bxor a (mul2 b)) (bxor (mul3 c) d))))
        (bxor (mul11 (bxor (bxor a b) (bxor (mul2 c) (mul3 d))))
              (mul13 (bxor (bxor (mul3 a) b) (bxor c (mul2 d)))))
  = b.
Proof.
  rewrite mul9_xor4, mul11_xor4, mul13_xor4, mul14_xor4.
  rewrite transpose.
  rewrite coeff_10, coeff_11, coeff_12, coeff_13.
  rewrite ?bxor_0_l, ?bxor_0_r. reflexivity.
Qed.

Lemma inv_mix_row_2 (a b c d : byte) :
  bxor (bxor (mul13 (bxor (bxor (mul2 a) (mul3 b)) (bxor c d)))
              (mul9 (bxor (bxor a (mul2 b)) (bxor (mul3 c) d))))
        (bxor (mul14 (bxor (bxor a b) (bxor (mul2 c) (mul3 d))))
              (mul11 (bxor (bxor (mul3 a) b) (bxor c (mul2 d)))))
  = c.
Proof.
  rewrite mul9_xor4, mul11_xor4, mul13_xor4, mul14_xor4.
  rewrite transpose.
  rewrite coeff_20, coeff_21, coeff_22, coeff_23.
  rewrite ?bxor_0_l, ?bxor_0_r. reflexivity.
Qed.

Lemma inv_mix_row_3 (a b c d : byte) :
  bxor (bxor (mul11 (bxor (bxor (mul2 a) (mul3 b)) (bxor c d)))
              (mul13 (bxor (bxor a (mul2 b)) (bxor (mul3 c) d))))
        (bxor (mul9 (bxor (bxor a b) (bxor (mul2 c) (mul3 d))))
              (mul14 (bxor (bxor (mul3 a) b) (bxor c (mul2 d)))))
  = d.
Proof.
  rewrite mul9_xor4, mul11_xor4, mul13_xor4, mul14_xor4.
  rewrite transpose.
  rewrite coeff_30, coeff_31, coeff_32, coeff_33.
  rewrite ?bxor_0_l, ?bxor_0_r. reflexivity.
Qed.


(** The same for the product taken the other way round, of the matrix of
    MixColumns with that of InvMixColumns. *)























End GF.

(** ** AES: the inverse cipher undoes the cipher *)

Module AESFacts.
Import AES.

Lemma xor_bytes_length (s k : list byte) :
  length (xor_bytes s k) = length s.
Proof.
  revert k. induction s as [|a s IH]; intros [|b k]; simpl; auto.
Qed.

Lemma xor_bytes_cancel (s k : list byte) :
  xor_bytes (xor_bytes s k) k = s.
Proof.
  revert k. induction s as [|a s IH]; intros [|b k]; simpl;
    try reflexivity.
  rewrite GF.bxor_cancel, IH. reflexivity.
Qed.

Lemma inv_sbox_sbox (b : byte) : inv_sbox (sbox b) = b.
Proof.
  apply byte_eqb_eq. revert b.
  apply (byte_forall (fun b => Byte.eqb (inv_sbox (sbox b)) b)).
  vm_compute. reflexivity.
Qed.

Lemma inv_sub_bytes_sub_bytes (s : list byte) :
  inv_sub_bytes (sub_bytes s) = s.
Proof.
  unfold inv_sub_bytes, sub_bytes. rewrite map_map.
  rewrite (map_ext _ (fun b => b)) by apply inv_sbox_sbox.
  apply map_id.
Qed.

Lemma sub_bytes_length (s : list byte) : length (sub_bytes s) = length s.
Proof. apply length_map. Qed.

Lemma inv_shift_rows_shift_rows (s : list byte) :
  inv_shift_rows (shift_rows s) = s.
Proof.
  do 17 (destruct s as [|? s]; [reflexivity|]). reflexivity.
Qed.

Lemma shift_rows_length (s : list byte) : length (shift_rows s) = length s.
Proof.
  do 17 (destruct s as [|? s]; [reflexivity|]). reflexivity.
Qed.

(** Induction on a list, four elements at a time. *)
Lemma list_ind4 {A} (P : list A -> Prop) :
  P [] -> (forall a, P [a]) -> (forall a b, P [a; b]) ->
  (forall a b c, P [a; b; c]) ->
  (forall a b c d r, P r -> P (a :: b :: c :: d :: r)) ->
  forall l, P l.
Proof.
  intros H0 H1 H2 H3 H4.
  fix IH 1. intros [|a [|b [|c [|d r]]]];
    [exact H0|apply H1|apply H2|apply H3|apply H4; apply IH].
Qed.

Lemma inv_mix_columns_mix_columns (s : list byte) :
  inv_mix_columns (mix_columns s) = s.
Proof.
  induction s as [| | | |a b c d r IH] using list_ind4; try reflexivity.
  cbn [mix_columns inv_mix_columns].
  rewrite GF.inv_mix_row_0, GF.inv_mix_row_1, GF.inv_mix_row_2,
    GF.inv_mix_row_3, IH.
  reflexivity.
Qed.

Lemma mix_columns_length (s : list byte) :
  length (mix_columns s) = length s.
Proof.
  induction s as [| | | |a b c d r IH] using list_ind4; try reflexivity.
  cbn [mix_columns length]. rewrite IH. reflexivity.
Qed.

Lemma dec_round_enc_round (s rk : list byte) :
  dec_round (shift_rows (sub_bytes (enc_round s rk))) rk
  = shift_rows (sub_bytes s).
Proof.
  unfold dec_round, enc_round.
  rewrite inv_shift_rows_shift_rows, inv_sub_bytes_sub_bytes,
    xor_bytes_cancel, inv_mix_columns_mix_columns.
  reflexivity.
Qed.

Lemma dec_rounds_enc_rounds (ks : list (list byte)) (s : list byte) :
  fold_left dec_round (rev ks)
    (shift_rows (sub_bytes (fold_left enc_round ks s)))
  = shift_rows (sub_bytes s).
Proof.
  revert s. induction ks as [|k ks IH] using rev_ind; intros s.
  - reflexivity.
  - rewrite fold_left_app, rev_app_distr. cbn [fold_left rev app].
    rewrite dec_round_enc_round. apply IH.
Qed.

Lemma inv_cipher_cipher (rks : list (list byte)) (block : list byte) :
  inv_cipher rks (cipher rks block) = block.
Proof.
  destruct rks as [|k0 rest]; [reflexivity|].
  unfold inv_cipher, cipher.
  rewrite xor_bytes_cancel, dec_rounds_enc_rounds.
  rewrite inv_shift_rows_shift_rows, inv_sub_bytes_sub_bytes.
  apply xor_bytes_cancel.
Qed.

Lemma enc_round_length (s rk : list byte) :
  length (enc_round s rk) = length s.
Proof.
  unfold enc_round.
  rewrite xor_bytes_length, mix_columns_length, shift_rows_length,
    sub_bytes_length.
  reflexivity.
Qed.

Lemma cipher_length (rks : list (list byte)) (block : list byte) :
  length (cipher rks block) = length block.
Proof.
  destruct rks as [|k0 rest]; [reflexivity|].
  unfold cipher.
  rewrite xor_bytes_length, shift_rows_length, sub_bytes_length.
  assert (H : forall ks s, length (fold_left enc_round ks s) = length s).
  { induction ks as [|k ks IH]; intros s; [reflexivity|].
    cbn [fold_left]. rewrite IH. apply enc_round_length. }
  rewrite H. apply xor_bytes_length.
Qed.

Lemma inv_shift_rows_length (s : list byte) :
  length (inv_shift_rows s) = length s.
Proof.
  do 17 (destruct s as [|? s]; [reflexivity|]). reflexivity.
Qed.

Lemma inv_mix_columns_length (s : list byte) :
  length (inv_mix_columns s) = length s.
Proof.
  induction s as [| | | |a b c d r IH] using list_ind4; try reflexivity.
  cbn [inv_mix_columns length]. rewrite IH. reflexivity.
Qed.

Lemma dec_round_length (s rk : list byte) :
  length (dec_round s rk) = length s.
Proof.
  unfold dec_round, inv_sub_bytes.
  rewrite inv_mix_columns_length, xor_bytes_length, length_map,
    inv_shift_rows_length.
  reflexivity.
Qed.

Lemma inv_cipher_length (rks : list (list byte)) (block : list byte) :
  length (inv_cipher rks block) = length block.
Proof.
  destruct rks as [|k0 rest]; [reflexivity|].
  unfold inv_cipher, inv_sub_bytes.
  rewrite xor_bytes_length, length_map, inv_shift_rows_length.
  assert (H : forall ks s, length (fold_left dec_round ks s) = length s).
  { induction ks as [|k ks IH]; intros s; [reflexivity|].
    cbn [fold_left]. rewrite IH. apply dec_round_length. }
  rewrite H. apply xor_bytes_length.
Qed.

(** And the cipher undoes the inverse cipher. *)









End AESFacts.

(** ** RFC 3394: the unwrap undoes the wrap *)

Module KeyWrapFacts.
Import KeyWrap.

Lemma update_length {A} (l : list A) (i : nat) (a : A) :
  length (update l i a) = length l.
Proof.
  revert i. induction l as [|x l IH]; intros [|i]; simpl; auto.
Qed.

Lemma nth_update {A} (l : list A) (i : nat) (a d : A) :
  (i < length l)%nat -> nth i (update l i a) d = a.
Proof.
  revert i. induction l as [|x l IH]; intros [|i] H; simpl in *;
    try lia; auto. apply IH. lia.
Qed.

Lemma update_update {A} (l : list A) (i : nat) (a b : A) :
  update (update l i a) i b = update l i b.
Proof.
  revert i. induction l as [|x l IH]; intros [|i]; simpl; auto.
  rewrite IH. reflexivity.
Qed.

Lemma update_nth {A} (l : list A) (i : nat) (d : A) :
  update l i (nth i l d) = l.
Proof.
  revert i. induction l as [|x l IH]; intros [|i]; simpl; auto.
  rewrite IH. reflexivity.
Qed.

Lemma Forall_update {A} (P : A -> Prop) (l : list A) (i : nat) (a : A) :
  Forall P l -> P a -> Forall P (update l i a).
Proof.
  intros Hl Ha. revert i.
  induction Hl as [|x l Hx Hl IH]; intros [|i]; simpl; auto.
Qed.

Lemma Forall_nth_default {A} (P : A -> Prop) (l : list A) (i : nat) (d : A) :
  Forall P l -> (i < length l)%nat -> P (nth i l d).
Proof.
  intros Hl. revert i.
  induction Hl as [|x l Hx Hl IH]; intros [|i] H; simpl in *;
    try lia; auto. apply IH. lia.
Qed.

(** Blocks of [k] elements. *)
Lemma chunks_exact {A} (k : nat) (n : nat) (l : list A) :
  (0 < k)%nat -> length l = (n * k)%nat ->
  concat (SHA2.chunks n k l) = l
  /\ Forall (fun x => length x = k) (SHA2.chunks n k l)
  /\ length (SHA2.chunks n k l) = n.
Proof.
  intros Hk. revert l. induction n as [|n IH]; intros l Hl.
  - destruct l; [|simpl in Hl; lia]. repeat split. constructor.
  - cbn [SHA2.chunks]. destruct l as [|a l'] eqn:El; [simpl in Hl; lia|].
    rewrite <- El in *. clear El a l'.
    destruct (IH (skipn k l)) as (Hc & Hf & Hn).
    { rewrite length_skipn. lia. }
    cbn [concat length]. rewrite Hc, firstn_skipn, Hn.
    repeat split. constructor; [|exact Hf].
    rewrite length_firstn. lia.
Qed.

Lemma chunks_concat {A} (k : nat) (r : list (list A)) :
  (0 < k)%nat -> Forall (fun x => length x = k) r ->
  SHA2.chunks (length r) k (concat r) = r.
Proof.
  intros Hk Hr. induction Hr as [|x r Hx Hr IH]; [reflexivity|].
  cbn [length concat SHA2.chunks].
  destruct (x ++ concat r) as [|a l'] eqn:El.
  - apply (f_equal (@length A)) in El. rewrite length_app in El.
    simpl in El. lia.
  - rewrite <- El.
    rewrite firstn_app_exact, skipn_app_exact, IH by exact Hx.
    reflexivity.
Qed.

Lemma length_concat_blocks {A} (k : nat) (r : list (list A)) :
  Forall (fun x => length x = k) r ->
  length (concat r) = (length r * k)%nat.
Proof.
  intros Hr. induction Hr as [|x r Hx Hr IH]; [reflexivity|].
  cbn [concat length]. rewrite length_app, IH, Hx. lia.
Qed.

Section Steps.
Variable rks : list (list byte).
Variable n : nat.

Lemma wrap_step_ok (s : regs) (ti : N * nat) :
  regs_ok n s -> (snd ti < n)%nat -> regs_ok n (wrap_step rks s ti).
Proof.
  destruct s as [a r], ti as [t i]. unfold regs_ok. cbn [fst snd].
  intros (Ha & Hr & Hn) Hi. unfold wrap_step. cbn [fst snd].
  assert (Hb : length (AES.cipher rks (a ++ nth i r [])) = 16%nat).
  { rewrite AESFacts.cipher_length, length_app, Ha.
    rewrite (Forall_nth_default _ r i [] Hr) by lia. reflexivity. }
  repeat split.
  - rewrite AESFacts.xor_bytes_length, length_firstn, Hb. reflexivity.
  - apply Forall_update; [exact Hr|].
    rewrite length_skipn, Hb. reflexivity.
  - rewrite update_length. exact Hn.
Qed.

Lemma unwrap_wrap_step (s : regs) (ti : N * nat) :
  regs_ok n s -> (snd ti < n)%nat ->
  unwrap_step rks (wrap_step rks s ti) ti = s.
Proof.
  destruct s as [a r], ti as [t i]. unfold regs_ok. cbn [fst snd].
  intros (Ha & Hr & Hn) Hi. unfold wrap_step, unwrap_step. cbn [fst snd].
  rewrite AESFacts.xor_bytes_cancel, nth_update by lia.
  rewrite firstn_skipn, AESFacts.inv_cipher_cipher.
  rewrite firstn_app_exact, skipn_app_exact by exact Ha.
  rewrite update_update, update_nth. reflexivity.
Qed.

Lemma unwrap_step_ok (s : regs) (ti : N * nat) :
  regs_ok n s -> (snd ti < n)%nat -> regs_ok n (unwrap_step rks s ti).
Proof.
  destruct s as [a r], ti as [t i]. unfold regs_ok. cbn [fst snd].
  intros (Ha & Hr & Hn) Hi. unfold unwrap_step. cbn [fst snd].
  match goal with
  | |- context [AES.inv_cipher rks ?x] =>
      assert (Hb : length (AES.inv_cipher rks x) = 16%nat)
  end.
  { rewrite AESFacts.inv_cipher_length, length_app,
      AESFacts.xor_bytes_length, Ha.
    rewrite (Forall_nth_default _ r i [] Hr) by lia. reflexivity. }
  repeat split.
  - rewrite length_firstn, Hb. reflexivity.
  - apply Forall_update; [exact Hr|].
    rewrite length_skipn, Hb. reflexivity.
  - rewrite update_length. exact Hn.
Qed.

Lemma unwrap_steps_ok (l : list (N * nat)) (s : regs) :
  regs_ok n s -> Forall (fun ti => (snd ti < n)%nat) l ->
  regs_ok n (fold_left (unwrap_step rks) l s).
Proof.
  intros Hs Hl. revert s Hs.
  induction Hl as [|ti l Hti Hl IH]; intros s Hs; [exact Hs|].
  cbn [fold_left]. apply IH. apply unwrap_step_ok; assumption.
Qed.

Lemma wrap_steps_ok (l : list (N * nat)) (s : regs) :
  regs_ok n s -> Forall (fun ti => (snd ti < n)%nat) l ->
  regs_ok n (fold_left (wrap_step rks) l s).
Proof.
  intros Hs Hl. revert s Hs.
  induction Hl as [|ti l Hti Hl IH]; intros s Hs; [exact Hs|].
  cbn [fold_left]. apply IH. apply wrap_step_ok; assumption.
Qed.

Lemma unwrap_wrap_steps (l : list (N * nat)) (s : regs) :
  regs_ok n s -> Forall (fun ti => (snd ti < n)%nat) l ->
  fold_left (unwrap_step rks) (rev l) (fold_left (wrap_step rks) l s) = s.
Proof.
  revert s. induction l as [|ti l IH] using rev_ind; intros s Hs Hl.
  - reflexivity.
  - apply Forall_app in Hl as [Hl Hti]. inversion Hti as [|? ? Hi _]; subst.
    rewrite fold_left_app, rev_app_distr. cbn [fold_left rev app].
    rewrite unwrap_wrap_step;
      [apply IH; assumption|apply wrap_steps_ok; assumption|exact Hi].
Qed.



End Steps.

Lemma steps_in_range (n : nat) :
  Forall (fun ti => (snd ti < n)%nat) (steps n).
Proof.
  unfold steps. apply Forall_forall. intros [t i] Hin.
  apply in_flat_map in Hin as (j & _ & Hin).
  apply in_map_iff in Hin as (i' & E & Hi'). injection E as _ <-.
  apply in_seq in Hi'. cbn [snd]. lia.
Qed.

Lemma bytes_eqb_refl (a : list byte) : bytes_eqb a a = true.
Proof.
  unfold bytes_eqb. rewrite Nat.eqb_refl. cbn [andb].
  induction a as [|x a IH]; [reflexivity|].
  cbn [combine forallb fst snd]. rewrite IH, andb_true_r.
  destruct x; reflexivity.
Qed.

(** What the wrap wrote. *)
Lemma aeswrap_encrypt_ok (key : list byte) (outbuflen : Z)
    (inbuf : list byte) :
  zlen inbuf mod 8 = 0 -> 16 <= zlen inbuf -> zlen inbuf + 8 <= outbuflen ->
  let n := Z.to_nat (zlen inbuf / 8) in
  let s := fold_left (wrap_step (AES.round_keys key)) (steps n)
             (iv, SHA2.chunks n 8 inbuf) in
  aeswrap_encrypt key outbuflen inbuf
  = (GPG_ERR_NO_ERROR, fst s ++ concat (snd s))
  /\ regs_ok n s
  /\ length inbuf = (n * 8)%nat.
Proof.
  intros Hm Hl Ho n s.
  assert (Hlen : length inbuf = (n * 8)%nat).
  { unfold n. pose proof (Z.div_mod (zlen inbuf) 8 ltac:(lia)) as E.
    rewrite Hm in E. unfold zlen in *. lia. }
  assert (Hn : (2 <= n)%nat).
  { unfold zlen in Hl. lia. }
  destruct (chunks_exact 8 n inbuf ltac:(lia) Hlen) as (Hc & Hf & Hcn).
  assert (Hs : regs_ok n s).
  { apply wrap_steps_ok; [|apply steps_in_range].
    repeat split; assumption. }
  split; [|split; assumption].
  unfold aeswrap_encrypt.
  rewrite (proj2 (Z.ltb_ge _ _)) by lia.
  rewrite (proj2 (Z.eqb_eq _ _) Hm). cbn [negb].
  fold n. rewrite (proj2 (Nat.ltb_ge _ _)) by lia.
  fold s. destruct s as [a r]. reflexivity.
Qed.

Lemma aeswrap_decrypt_encrypt (key : list byte) (outbuflen outbuflen' : Z)
    (inbuf wrapped : list byte) :
  aeswrap_encrypt key outbuflen inbuf = (GPG_ERR_NO_ERROR, wrapped) ->
  zlen wrapped <= outbuflen' + 8 ->
  aeswrap_decrypt key outbuflen' wrapped = (GPG_ERR_NO_ERROR, inbuf).
Proof.
  intros Henc Ho.
  assert (Hpre : zlen inbuf mod 8 = 0 /\ 16 <= zlen inbuf
                 /\ zlen inbuf + 8 <= outbuflen).
  { unfold aeswrap_encrypt in Henc.
    destruct (outbuflen <? zlen inbuf + 8) eqn:E1; [discriminate|].
    destruct (zlen inbuf mod 8 =? 0) eqn:E2; [|discriminate].
    cbn [negb] in Henc.
    destruct (Z.to_nat (zlen inbuf / 8) <? 2)%nat eqn:E3; [discriminate|].
    apply Z.ltb_ge in E1. apply Z.eqb_eq in E2. apply Nat.ltb_ge in E3.
    pose proof (Z.div_mod (zlen inbuf) 8 ltac:(lia)). lia. }
  destruct Hpre as (Hm & Hl & Hob).
  destruct (aeswrap_encrypt_ok key outbuflen inbuf Hm Hl Hob)
    as (E & Hs & Hlen).
  rewrite E in Henc. injection Henc as <-.
  set (n := Z.to_nat (zlen inbuf / 8)) in *.
  set (rks := AES.round_keys key) in *.
  destruct (chunks_exact 8 n inbuf ltac:(lia) Hlen) as (Hc & Hf & Hcn).
  set (s0 := (iv, SHA2.chunks n 8 inbuf)) in *.
  assert (Hs0 : regs_ok n s0) by (repeat split; assumption).
  pose proof (unwrap_wrap_steps rks n (steps n) s0 Hs0 (steps_in_range n))
    as Hback.
  set (s := fold_left (wrap_step rks) (steps n) s0) in *.
  destruct s as [a r] eqn:Es. destruct Hs as (Ha & Hr & Hrn).
  cbn [fst snd] in *.
  assert (Hwl : length (a ++ concat r) = (8 + n * 8)%nat).
  { rewrite length_app, Ha, (length_concat_blocks 8 r Hr), Hrn.
    reflexivity. }
  assert (Hn : (2 <= n)%nat) by (unfold n, zlen in *; lia).
  unfold aeswrap_decrypt.
  assert (Hz : zlen (a ++ concat r) = 8 * (Z.of_nat n + 1))
    by (unfold zlen; lia).
  rewrite (proj2 (Z.ltb_ge _ _)) by lia.
  rewrite Hz.
  replace (8 * (Z.of_nat n + 1) mod 8) with 0
    by (rewrite Z.mul_comm, Z.mod_mul; lia).
  cbn [Z.eqb negb].
  replace (Z.to_nat (8 * (Z.of_nat n + 1) / 8)) with (S n)
    by (rewrite Z.mul_comm, Z.div_mul; lia).
  rewrite (proj2 (Nat.ltb_ge _ _)) by lia.
  replace (S n - 1)%nat with n by lia.
  fold rks.
  rewrite firstn_app_exact, skipn_app_exact by exact Ha.
  assert (Hcr : SHA2.chunks n 8 (concat r) = r).
  { rewrite <- Hrn. apply chunks_concat; [lia|exact Hr]. }
  rewrite Hcr, Hback. unfold s0.
  rewrite bytes_eqb_refl, Hc. reflexivity.
Qed.

Lemma aeswrap_decrypt_bounded (key : list byte) (outbuflen : Z)
    (inbuf : list byte) :
  0 <= outbuflen ->
  zlen (snd (aeswrap_decrypt key outbuflen inbuf)) <= outbuflen.
Proof.
  intros Ho. unfold aeswrap_decrypt.
  destruct (outbuflen + 8 <? zlen inbuf) eqn:E1; [cbn; lia|].
  destruct (zlen inbuf mod 8 =? 0) eqn:E2; [|cbn; lia].
  cbn [negb].
  destruct (Z.to_nat (zlen inbuf / 8) <? 3)%nat eqn:E3; [cbn; lia|].
  apply Z.ltb_ge in E1. apply Z.eqb_eq in E2. apply Nat.ltb_ge in E3.
  set (n := (Z.to_nat (zlen inbuf / 8) - 1)%nat).
  pose proof (Z.div_mod (zlen inbuf) 8 ltac:(lia)) as Hdm.
  rewrite E2 in Hdm.
  assert (Hlen : length (skipn 8 inbuf) = (n * 8)%nat).
  { rewrite length_skipn. unfold n. unfold zlen in *. lia. }
  destruct (chunks_exact 8 n (skipn 8 inbuf) ltac:(lia) Hlen)
    as (Hc & Hf & Hcn).
  assert (Hs0 : regs_ok n (firstn 8 inbuf, SHA2.chunks n 8 (skipn 8 inbuf))).
  { repeat split; try assumption. cbn [fst]. rewrite length_firstn.
    unfold zlen in *. lia. }
  pose proof (unwrap_steps_ok (AES.round_keys key) n (rev (steps n)) _ Hs0)
    as Hs.
  specialize (Hs ltac:(apply Forall_rev, steps_in_range)).
  destruct (fold_left _ _ _) as [a r]. destruct Hs as (_ & Hr & Hrn).
  cbn [fst snd] in *.
  unfold zlen in *. rewrite (length_concat_blocks 8 r Hr), Hrn. unfold n.
  lia.
Qed.




End KeyWrapFacts.

(** ** The digests have their length *)

Lemma sha2_digest_length (v : SHA2.variant) (msg : list byte) :
  (SHA2.outlen v <= 8 * SHA2.wbytes v)%nat ->
  length (SHA2.digest v msg) = SHA2.outlen v.
Proof.
  intros H. unfold SHA2.digest. rewrite length_firstn.
  match goal with
  | |- context [SHA2.list_of_regs ?s] => destruct s as [[[[[[[a b] c] d] e] f] g] i]
  end.
  cbn [SHA2.list_of_regs flat_map]. rewrite !length_app, !be_bytes_length.
  cbn [length]. lia.
Qed.

(** ** The contract *)

Theorem reference_backend_ok : backend_ok Reference.backend.
Proof.
  constructor; cbn [gcry_md_open gcry_md_read gcry_cipher_open
                    gcry_cipher_setkey gcry_cipher_encrypt
                    gcry_cipher_decrypt Reference.backend].
  - intros algo H. unfold Reference.md_open.
    rewrite (proj2 (Z.eqb_neq _ _) H). reflexivity.
  - intros algo msg. unfold Reference.md_read, gcry_md_get_algo_dlen, zlen.
    destruct (algo =? GCRY_MD_SHA256);
      [rewrite sha2_digest_length; [reflexivity|vm_compute; lia]|].
    destruct (algo =? GCRY_MD_SHA384);
      [rewrite sha2_digest_length; [reflexivity|vm_compute; lia]|].
    destruct (algo =? GCRY_MD_SHA512);
      [rewrite sha2_digest_length; [reflexivity|vm_compute; lia]|].
    reflexivity.
  - intros algo H. unfold Reference.cipher_open.
    rewrite (proj2 (Z.eqb_neq _ _) H). reflexivity.
  - intros algo key H E. unfold Reference.cipher_setkey. rewrite E.
    unfold gcry_cipher_get_algo_keylen in *.
    destruct (algo =? GCRY_CIPHER_AES128); [reflexivity|].
    destruct (algo =? GCRY_CIPHER_AES192); [reflexivity|].
    destruct (algo =? GCRY_CIPHER_AES256); [reflexivity|].
    contradiction.
  - intros algo key outsize plain Hm Hl Ho.
    destruct (KeyWrapFacts.aeswrap_encrypt_ok key outsize plain Hm Hl Ho)
      as (E & (Ha & Hr & Hn) & Hlen).
    eexists. split; [exact E|].
    unfold zlen in *. rewrite length_app, Ha,
      (KeyWrapFacts.length_concat_blocks 8 _ Hr), Hn. lia.
  - intros algo key outsize outsize' plain wrapped.
    apply KeyWrapFacts.aeswrap_decrypt_encrypt.
  - intros algo key outsize wrapped.
    apply KeyWrapFacts.aeswrap_decrypt_bounded.
Qed.


(* ================================================================== *)
(** * The claims of the specification *)

(** ** Default KEK parameters *)

Lemma kek_params_loop_select (q : Z) :
  kek_params_loop (S (length kek_params_table)) q 0
    [Some x03; Some x01; None; None]
  = Some (match find (fun row => qbits row >=? q) kek_params_table with
          | Some _ =>
              if 256 >=? q then 0 else if 384 >=? q then 1 else 2
          | None => 2
          end,
          map Some (kek_params_blob (select_kek_row q))).
Proof.
  cbv -[Z.geb].
  destruct (256 >=? q); [reflexivity|].
  destruct (384 >=? q); [reflexivity|].
  destruct (528 >=? q); reflexivity.
Qed.

(** C3. For every [qbits], [pk_ecdh_default_params] hands back (when
    [xtrymalloc] finds the 4 octets, NULL otherwise) the blob
    03 01 hash cipher of the first row of the table 256 / 384 / 528 whose
    threshold is at least [qbits], or of the last row when there is none;
    256 gives SHA-256 with AES-128, 384 gives SHA-384 with AES-256, 521 and
    1024 give SHA-512 with AES-256. *)
Theorem default_params_selection (B : Backend) (q : Z) :
  pk_ecdh_default_params q
  = (if xtrymalloc 4
     then Returns (Some (kek_params_blob (select_kek_row q), 4))
     else Returns None)
  /\ zlen (kek_params_blob (select_kek_row q)) = 4
  /\ kek_params_blob (select_kek_row 256)
     = [x03; x01; byte_of_Z DIGEST_ALGO_SHA256; byte_of_Z CIPHER_ALGO_AES]
  /\ kek_params_blob (select_kek_row 384)
     = [x03; x01; byte_of_Z DIGEST_ALGO_SHA384; byte_of_Z CIPHER_ALGO_AES256]
  /\ kek_params_blob (select_kek_row 521)
     = [x03; x01; byte_of_Z DIGEST_ALGO_SHA512; byte_of_Z CIPHER_ALGO_AES256]
  /\ kek_params_blob (select_kek_row 1024)
     = [x03; x01; byte_of_Z DIGEST_ALGO_SHA512; byte_of_Z CIPHER_ALGO_AES256].
Proof.
  split; [|repeat split].
  unfold pk_ecdh_default_params.
  change (poke (fresh 4) 0 [byte_of_Z 3; byte_of_Z 1])
    with (Some [Some x03; Some x01; None; None]).
  cbv iota. rewrite kek_params_loop_select.
  assert (Hi : (match find (fun row => qbits row >=? q) kek_params_table with
                | Some _ =>
                    if 256 >=? q then 0 else if 384 >=? q then 1 else 2
                | None => 2
                end <? DIM_kek_params_table) = true).
  { destruct (find _ _); [|reflexivity].
    destruct (256 >=? q); [reflexivity|].
    destruct (384 >=? q); reflexivity. }
  rewrite Hi. rewrite zlen_map.
  change (zlen (kek_params_blob (select_kek_row q))) with 4.
  destruct (xtrymalloc 4); [|reflexivity].
  rewrite <- (app_nil_r (map Some _)), peek_prefix by reflexivity.
  reflexivity.
Qed.

(** ** KEK parameters decoding *)

(** C4. Decoding a KEK-parameters blob fails, and then with
    [GPG_ERR_BAD_PUBKEY], exactly when the blob is not of the format
    03 01 hash cipher with an allowed hash and an allowed cipher; 04 01 08 07
    is refused; a valid blob decodes to its octets 2 and 3. *)
Theorem kek_params_decoding (blob : list byte) :
  (decode_kek_params blob = inl GPG_ERR_BAD_PUBKEY
   <-> ~ valid_kek_params blob)
  /\ (forall rc, decode_kek_params blob = inl rc -> rc = GPG_ERR_BAD_PUBKEY)
  /\ (valid_kek_params blob <->
      decode_kek_params blob
      = inr (Z_of_byte (nth 2 blob x00), Z_of_byte (nth 3 blob x00)))
  /\ decode_kek_params [x04; x01; x08; x07] = inl GPG_ERR_BAD_PUBKEY
  /\ kind_of GPG_ERR_BAD_PUBKEY = Some BadPublicKey.
Proof.
  assert (Hv : valid_kek_params blob ->
               decode_kek_params blob
               = inr (Z_of_byte (nth 2 blob x00), Z_of_byte (nth 3 blob x00))).
  { intros (h & c & -> & Hh & Hc). apply decode_kek_params_valid; assumption. }
  assert (Hi : forall h c, decode_kek_params blob = inr (h, c) ->
                           valid_kek_params blob).
  { intros h c H. apply decode_kek_params_inr in H
      as (bh & bc & -> & -> & -> & Hh & Hc).
    exists bh, bc. auto. }
  repeat split.
  - intros H Hval. rewrite (Hv Hval) in H. discriminate.
  - intros Hn. destruct (decode_kek_params blob) as [rc|[h c]] eqn:E.
    + rewrite (decode_kek_params_inl blob rc E). reflexivity.
    + exfalso. apply Hn. exact (Hi h c eq_refl).
  - intros rc. apply decode_kek_params_inl.
  - exact Hv.
  - intros H. exact (Hi _ _ H).
Qed.

(** ** The shared secret *)




(** ** Absent data *)

(** C10. Called without an encrypted-data MPI, [pk_ecdh_decrypt] returns
    [GPG_ERR_BAD_MPI] at once: no library call is made and no result MPI
    is handed back. *)
Theorem decrypt_without_data (B : Backend) (sk_fp : list byte)
    (shared : gcry_mpi_t) (skey : pubkey) :
  pk_ecdh_decrypt sk_fp None shared skey
  = ([], Returns (GPG_ERR_BAD_MPI, None))
  /\ kind_of GPG_ERR_BAD_MPI = Some BadMpi.
Proof. split; reflexivity. Qed.

(** ** The KDF parameters *)

Lemma firstn_short {A} (n : nat) (l : list A) :
  (length l <= n)%nat -> firstn n l = l.
Proof. intros H. apply firstn_all2. exact H. Qed.

(** C2, as the code has it. When both size+body writes succeed, the
    fingerprint has 20 octets and the whole fits the 256 octets of
    [kdf_params], the KDF parameters are: what was written for the curve
    OID, the octet 0x12, what was written for the KEK parameters, the 20
    octets "Anonymous Sender    " and the fingerprint. What is written for
    KEK parameters that passed the decoding is the blob 03 01 hash cipher
    itself, its 03 being the length octet; no further length octet
    precedes it. *)
Theorem kdf_params_layout (B : Backend) (pkey : pubkey)
    (pk_fp oid kek : list byte) :
  iobuf_write_size_body_mpi (pkey_0 pkey) = (GPG_ERR_NO_ERROR, oid) ->
  iobuf_write_size_body_mpi (pkey_2 pkey) = (GPG_ERR_NO_ERROR, kek) ->
  zlen pk_fp = 20 ->
  zlen oid + 1 + zlen kek + 20 + 20 <= sizeof_kdf_params ->
  build_kdf_params pkey pk_fp
  = ret (oid ++ [x12] ++ kek ++ anonymous_sender ++ pk_fp)
  /\ zlen anonymous_sender = 20
  /\ (forall h c, read_kek_params pkey = ret (h, c) ->
                  kek = [x03; x01; byte_of_Z h; byte_of_Z c]).
Proof.
  intros Hoid Hkek Hfp Hfit. split; [|split; [reflexivity|]].
  - unfold build_kdf_params. rewrite Hoid.
    cbn [is_error gpg_error_eqb negb]. rewrite Hkek.
    rewrite (peek_fp pk_fp) by lia. cbn [defined]. rewrite bind_ret.
    cbn [check_rc is_error gpg_error_eqb negb]. rewrite bind_ret.
    rewrite (firstn_short 20 pk_fp) by (unfold zlen in Hfp; lia).
    unfold iobuf_temp_to_buffer. rewrite firstn_short; [reflexivity|].
    unfold sizeof_kdf_params, zlen in *.
    rewrite !length_app. change (length anonymous_sender) with 20%nat.
    cbn [length]. lia.
  - intros h c H. unfold read_kek_params in H. rewrite Hkek in H.
    unfold iobuf_temp_to_buffer in H. rewrite firstn_short in H
      by (unfold sizeof_kdf_params, zlen in *; lia).
    destruct (decode_kek_params kek) as [rc|[h' c']] eqn:E;
      [discriminate|].
    injection H as -> ->.
    apply decode_kek_params_inr in E as (bh & bc & -> & -> & -> & _).
    rewrite !byte_of_Z_of_byte. reflexivity.
Qed.

(** ** The KEK in the secret buffer *)

(** C9, as the code has it. After the KDF block the secret buffer starts
    with the KEK, the first [k] octets of the digest of
    00 00 00 01 || shared secret || KDF parameters, and [secret_x_size] is
    [k]; but the octets behind it are not cleared: up to the digest's
    length they are the further octets of the digest. *)
Theorem kek_in_secret_buffer (B : Backend) (shared_mpi : gcry_mpi_t)
    (pk_fp : list byte) (pkey : pubkey) (oid : list byte) (h c : byte) :
  backend_ok B -> key_ok shared_mpi pk_fp pkey oid h c ->
  let k := gcry_cipher_get_algo_keylen (Z_of_byte c) in
  let digest :=
    gcry_md_read (Z_of_byte h)
      ([x00; x00; x00; x01] ++ shared_secret shared_mpi pkey
       ++ kdf_params_of pk_fp oid h c) in
  exists secret_x,
    kek_of shared_mpi pk_fp pkey
    = ([Call_mpi_print; Call_md_open; Call_md_final],
       Next (Z_of_byte c, secret_x, k))
    /\ peek secret_x 0 k = Some (firstn (Z.to_nat k) digest)
    /\ zlen (firstn (Z.to_nat k) digest) = k
    /\ forall i, k <= i < gcry_md_get_algo_dlen (Z_of_byte h) ->
                 peek1 secret_x i = Some (nth (Z.to_nat i) digest x00).
Proof.
  intros Hb Hk k digest.
  exists (secret_x_after_kdf shared_mpi pk_fp pkey oid h c).
  pose proof (keylen_cases _ (ko_cipher _ _ _ _ _ _ Hk)) as Hc.
  split; [apply (kek_of_ok _ _ _ _ _ _ Hb Hk)|].
  split; [apply (peek_kek _ _ _ _ _ _ Hb Hk)|].
  split; [apply (zlen_kek_octets _ _ _ _ _ _ Hb Hk)|].
  intros i Hi. unfold secret_x_after_kdf.
  apply peek1_written.
  pose proof (zlen_kdf_digest shared_mpi pk_fp pkey oid h c Hb) as Hd.
  change (kdf_digest shared_mpi pk_fp pkey oid h c) with digest in Hd.
  fold k in Hc. lia.
Qed.

(** ** Wrap and unwrap *)

Lemma N2Z_log2 (n : N) : Z.of_N (N.log2 n) = Z.log2 (Z.of_N n).
Proof. destruct n as [|[p|p|]]; reflexivity. Qed.

Lemma log2_length_octet (v : Z) :
  24 <= v <= 248 ->
  4 <= Z.log2 v <= 7 /\ (Z.log2 v = 7 <-> 128 <= v).
Proof.
  intros Hv.
  pose proof (Z.log2_le_mono 24 v ltac:(lia)) as H1.
  pose proof (Z.log2_le_mono v 248 ltac:(lia)) as H2.
  change (Z.log2 24) with 4 in H1. change (Z.log2 248) with 7 in H2.
  split; [lia|]. split.
  - intros E. pose proof (Z.log2_spec v ltac:(lia)) as [Hlo _].
    rewrite E in Hlo. change (2 ^ 7) with 128 in Hlo. exact Hlo.
  - intros H. pose proof (Z.log2_le_mono 128 v H) as H3.
    change (Z.log2 128) with 7 in H3. lia.
Qed.

(** ** One bit of an octet string flipped *)





Section Claims.
Context {B : Backend}.
Variables (shared_mpi : gcry_mpi_t) (pk_fp : list byte) (pkey : pubkey).
Variables (oid : list byte) (h c : byte).
Hypothesis Hb : backend_ok B.
Hypothesis Hk : key_ok shared_mpi pk_fp pkey oid h c.
Hypothesis Halloc : forall n, xtrymalloc_secure n = true.

Let kek := kek_octets shared_mpi pk_fp pkey oid h c.
Let algo := Z_of_byte c.

(** C8, as the code has it. For a padded session key of [L] octets, [L] a
    multiple of 8 from 16 to 240, the wrap makes the MPI whose octets are
    the length octet [L+8] and the [L+8] octets of the AES key wrap,
    [L+9] in all. The bit length of that MPI counts the significant bits
    of the length octet only: it is [8(L+8) + log2(L+8) + 1], between
    [8(L+8)+5] and [8(L+8)+8], and [8 + 8(L+8)] just when [L+8 >= 128]. *)
Theorem wrapped_mpi_format (data : gcry_mpi_t) :
  let L := mpi_nbytes data in
  L mod 8 = 0 -> 16 <= L <= 240 ->
  exists wrapped out,
    gcry_cipher_encrypt algo kek (L + 8) (mpi_octets data)
    = (GPG_ERR_NO_ERROR, wrapped)
    /\ zlen wrapped = L + 8
    /\ snd (pk_ecdh_encrypt_with_shared_point true shared_mpi pk_fp data pkey)
       = Returns (GPG_ERR_NO_ERROR, Some out)
    /\ mpi_octets out = byte_of_Z (L + 8) :: wrapped
    /\ Z_of_byte (byte_of_Z (L + 8)) = L + 8
    /\ zlen (mpi_octets out) = L + 9
    /\ gcry_mpi_get_nbits out = 8 * (L + 8) + Z.log2 (L + 8) + 1
    /\ 8 * (L + 8) + 5 <= gcry_mpi_get_nbits out <= 8 * (L + 8) + 8
    /\ (gcry_mpi_get_nbits out = 8 + 8 * (L + 8) <-> 128 <= L + 8).
Proof.
  intros L Hm HL.
  destruct (wrap_result shared_mpi pk_fp pkey oid h c Hb Hk data Hm HL Halloc)
    as (wrapped & Henc & Hwl & Hrun).
  fold L in Hwl, Henc.
  pose proof (length_octet_nonzero L HL) as Hnz.
  exists wrapped, (gcry_mpi_scan (byte_of_Z (L + 8) :: wrapped)).
  assert (Hbits : gcry_mpi_get_nbits
                    (gcry_mpi_scan (byte_of_Z (L + 8) :: wrapped))
                  = 8 * (L + 8) + Z.log2 (L + 8) + 1).
  { rewrite nbits_scan_cons by exact Hnz. rewrite Hwl.
    assert (Hto : Byte.to_N (byte_of_Z (L + 8)) = Z.to_N (L + 8)).
    { pose proof (Z_of_byte_of_Z (L + 8)) as E. unfold Z_of_byte in E.
      rewrite Z.mod_small in E by lia. lia. }
    rewrite Hto, N.size_log2 by lia.
    rewrite N2Z.inj_succ, N2Z_log2, Z2N.id by lia. lia. }
  pose proof (log2_length_octet (L + 8) ltac:(lia)) as [Hlog Hiff].
  split; [exact Henc|]. split; [exact Hwl|].
  split; [rewrite Hrun; reflexivity|].
  split; [apply mpi_octets_scan_cons; exact Hnz|].
  split; [rewrite Z_of_byte_of_Z, Z.mod_small; lia|].
  split; [rewrite mpi_octets_scan_cons, zlen_cons by exact Hnz; lia|].
  split; [exact Hbits|]. rewrite Hbits.
  split; [lia|]. split; intros; lia.
Qed.

(** C1, as the code has it. For a padded session key of [L] octets, [L] a
    multiple of 8 from 16 to 240 (so that [L+8] fits the length octet),
    unwrapping the MPI that the wrap made, with the same shared point, key
    and fingerprint, gives the session key back. *)
Theorem wrap_unwrap_round_trip (data : gcry_mpi_t) :
  let L := mpi_nbytes data in
  L mod 8 = 0 -> 16 <= L <= 240 ->
  exists wrapped_mpi,
    pk_ecdh_encrypt_with_shared_point true shared_mpi pk_fp data pkey
    = ([Call_mpi_print; Call_md_open; Call_md_final; Call_cipher_open;
        Call_cipher_setkey; Call_mpi_print; Call_cipher_encrypt;
        Call_mpi_scan],
       Returns (GPG_ERR_NO_ERROR, Some wrapped_mpi))
    /\ pk_ecdh_encrypt_with_shared_point false shared_mpi pk_fp wrapped_mpi
         pkey
       = ([Call_mpi_print; Call_md_open; Call_md_final; Call_cipher_open;
           Call_cipher_setkey; Call_mpi_print; Call_cipher_decrypt;
           Call_mpi_scan],
          Returns (GPG_ERR_NO_ERROR, Some data))
    /\ pk_ecdh_decrypt pk_fp (Some wrapped_mpi) shared_mpi pkey
       = pk_ecdh_encrypt_with_shared_point false shared_mpi pk_fp
           wrapped_mpi pkey
    /\ gcry_mpi_scan (mpi_octets data) = data.
Proof.
  intros L Hm HL.
  destruct (wrap_result shared_mpi pk_fp pkey oid h c Hb Hk data Hm HL Halloc)
    as (wrapped & Henc & Hwl & Hrun).
  fold L in Hwl, Henc. fold kek in Henc. fold algo in Henc.
  pose proof (length_octet_nonzero L HL) as Hnz.
  pose proof (mpi_octets_length data) as Hol. fold L in Hol.
  set (w := gcry_mpi_scan (byte_of_Z (L + 8) :: wrapped)) in *.
  assert (Hwo : mpi_octets w = byte_of_Z (L + 8) :: wrapped)
    by (apply mpi_octets_scan_cons; exact Hnz).
  assert (Hwn : mpi_nbytes w = L + 9).
  { rewrite <- mpi_octets_length, Hwo, zlen_cons. lia. }
  exists w. split; [exact Hrun|]. split; [|split; [reflexivity|]].
  - apply (pk_ecdh_with_kek shared_mpi pk_fp pkey oid h c Hb Hk false w).
    replace (Some data) with (Some (gcry_mpi_scan (mpi_octets data)))
      by (rewrite scan_mpi_octets; reflexivity).
    apply (aeswrap_data_decrypt (Z_of_byte c) _ _ kek w)
      with (b := byte_of_Z (L + 8)) (wrapped := wrapped).
    + apply (cipher_open_ok _ Hb).
      apply (keylen_nonzero shared_mpi pk_fp pkey oid h c Hk).
    + apply (peek_kek shared_mpi pk_fp pkey oid h c Hb Hk).
    + apply (cipher_setkey_ok _ Hb).
      * apply (keylen_nonzero shared_mpi pk_fp pkey oid h c Hk).
      * apply (zlen_kek_octets shared_mpi pk_fp pkey oid h c Hb Hk).
    + rewrite Hwn.
      pose proof (Z.div_mod L 8 ltac:(lia)).
      pose proof (Z.div_mod (L + 9) 8 ltac:(lia)).
      pose proof (Z.mod_pos_bound (L + 9) 8 ltac:(lia)). lia.
    + apply Halloc.
    + exact Hwo.
    + rewrite Hwn, Z_of_byte_of_Z, Z.mod_small; lia.
    + rewrite Hwn. replace (L + 9 - 1) with (L + 8) by lia.
      apply (unwrap_wrap _ Hb algo kek (L + 8) (L + 8) _ _ Henc). lia.
    + rewrite Hwn. lia.
  - apply scan_mpi_octets.
Qed.

(** C6, as the code has it. For a decryption input whose octet count [N]
    leaves 1 when divided by 8 (what line 270 asserts): if the leading
    octet is not [N - 1], [GPG_ERR_BAD_MPI] is returned and the AES unwrap
    has not been called; if it is, the AES unwrap is called on the octets
    behind it, however few they are. *)
Theorem unwrap_length_check (data : gcry_mpi_t) :
  let N := mpi_nbytes data in
  N mod 8 = 1 ->
  (Z_of_byte (hd x00 (mpi_octets data)) <> N - 1 ->
   pk_ecdh_decrypt pk_fp (Some data) shared_mpi pkey
   = ([Call_mpi_print; Call_md_open; Call_md_final; Call_cipher_open;
       Call_cipher_setkey; Call_mpi_print],
      Returns (GPG_ERR_BAD_MPI, None)))
  /\ (Z_of_byte (hd x00 (mpi_octets data)) = N - 1 ->
      exists t o,
        pk_ecdh_decrypt pk_fp (Some data) shared_mpi pkey
        = ([Call_mpi_print; Call_md_open; Call_md_final; Call_cipher_open;
            Call_cipher_setkey; Call_mpi_print; Call_cipher_decrypt] ++ t,
           o)).
Proof.
  intros N Hm.
  assert (Hopen : gcry_cipher_open algo = GPG_ERR_NO_ERROR).
  { apply (cipher_open_ok _ Hb).
    apply (keylen_nonzero shared_mpi pk_fp pkey oid h c Hk). }
  assert (Hset : gcry_cipher_setkey algo kek = GPG_ERR_NO_ERROR).
  { apply (cipher_setkey_ok _ Hb).
    - apply (keylen_nonzero shared_mpi pk_fp pkey oid h c Hk).
    - apply (zlen_kek_octets shared_mpi pk_fp pkey oid h c Hb Hk). }
  pose proof (peek_kek shared_mpi pk_fp pkey oid h c Hb Hk) as Hpeek.
  split.
  - intros Hhd. cbn [pk_ecdh_decrypt].
    apply (pk_ecdh_with_kek shared_mpi pk_fp pkey oid h c Hb Hk false data).
    apply (aeswrap_data_bad_mpi algo _ _ kek data Hopen Hpeek Hset Hm
             (Halloc _) Hhd).
  - intros Hhd. cbn [pk_ecdh_decrypt].
    pose proof (mpi_octets_length data) as Hol.
    destruct (mpi_octets data) as [|b wrapped] eqn:Eo.
    + exfalso. unfold zlen in Hol. cbn [length] in Hol. fold N in Hol.
      pose proof (Z.div_mod N 8 ltac:(lia)). lia.
    + cbn [hd] in Hhd.
      destruct (aeswrap_data_unwrap_called algo _ _ kek data Hopen Hpeek Hset
                  b wrapped Hm (Halloc _) Eo Hhd) as (t & o & Hrun).
      exists t, o.
      apply (pk_ecdh_with_kek shared_mpi pk_fp pkey oid h c Hb Hk false data).
      exact Hrun.
Qed.





End Claims.

(* ================================================================== *)
(** * The claims on a NIST P-256 key with the reference backend *)

Import Reference.

Lemma p256_key_ok :
  key_ok shared_point zero_fp p256_key p256_oid x08 x07.
Proof.
  constructor.
  - vm_compute. discriminate.
  - vm_compute. reflexivity.
  - vm_compute. reflexivity.
  - vm_compute. reflexivity.
  - vm_compute. tauto.
  - vm_compute. tauto.
  - vm_compute. discriminate.
  - vm_compute. discriminate.
  - vm_compute. discriminate.
Qed.

Lemma always_memory : forall n, xtrymalloc_secure n = true.
Proof. reflexivity. Qed.

(** The round trip of C1 on the 24-octet session key. *)
Lemma wrap_unwrap_round_trip_witness :
  mpi_nbytes (gcry_mpi_scan session_key) mod 8 = 0
  /\ 16 <= mpi_nbytes (gcry_mpi_scan session_key) <= 240
  /\ exists wrapped_mpi,
       snd (pk_ecdh_encrypt_with_shared_point true shared_point zero_fp
              (gcry_mpi_scan session_key) p256_key)
       = Returns (GPG_ERR_NO_ERROR, Some wrapped_mpi)
       /\ snd (pk_ecdh_decrypt zero_fp (Some wrapped_mpi) shared_point
                 p256_key)
          = Returns (GPG_ERR_NO_ERROR, Some (gcry_mpi_scan session_key)).
Proof.
  assert (H1 : mpi_nbytes (gcry_mpi_scan session_key) mod 8 = 0)
    by (vm_compute; reflexivity).
  assert (H2 : 16 <= mpi_nbytes (gcry_mpi_scan session_key) <= 240)
    by (vm_compute; split; discriminate).
  split; [exact H1|]. split; [exact H2|].
  destruct (wrap_unwrap_round_trip shared_point zero_fp p256_key p256_oid
              x08 x07 reference_backend_ok p256_key_ok always_memory
              (gcry_mpi_scan session_key) H1 H2)
    as (w & Hw & Hd & Hp & _).
  exists w. rewrite Hw, Hp, Hd. split; reflexivity.
Defined.

(** C1 fails for a session key of 248 octets: the length octet wraps
    around to 0, the MPI made is 0, and unwrapping it trips the assertion
    of line 270. *)
Lemma round_trip_counterexample :
  key_ok shared_point zero_fp p256_key p256_oid x08 x07
  /\ mpi_octets (gcry_mpi_scan (repeat x05 248)) = repeat x05 248
  /\ 248 mod 8 = 0
  /\ snd (pk_ecdh_encrypt_with_shared_point true shared_point zero_fp
            (gcry_mpi_scan (repeat x05 248)) p256_key)
     = Returns (GPG_ERR_NO_ERROR, Some 0%N)
  /\ snd (pk_ecdh_encrypt_with_shared_point false shared_point zero_fp
            0%N p256_key)
     = AssertionFailed.
Proof.
  split; [exact p256_key_ok|].
  split; [vm_compute; reflexivity|].
  split; [reflexivity|].
  split; vm_compute; reflexivity.
Qed.

(** C2 on the P-256 key: the writes succeed, the fingerprint has its 20
    octets, all fits, and the KDF parameters are the 54 octets of
    [code_kdf_vector]. *)
Lemma kdf_params_layout_witness :
  iobuf_write_size_body_mpi (pkey_0 p256_key) = (GPG_ERR_NO_ERROR, p256_oid)
  /\ iobuf_write_size_body_mpi (pkey_2 p256_key)
     = (GPG_ERR_NO_ERROR, [x03; x01; x08; x07])
  /\ zlen zero_fp = 20
  /\ build_kdf_params p256_key zero_fp = ret code_kdf_vector
  /\ zlen code_kdf_vector = 54.
Proof.
  assert (H1 : iobuf_write_size_body_mpi (pkey_0 p256_key)
               = (GPG_ERR_NO_ERROR, p256_oid)) by (vm_compute; reflexivity).
  assert (H2 : iobuf_write_size_body_mpi (pkey_2 p256_key)
               = (GPG_ERR_NO_ERROR, [x03; x01; x08; x07]))
    by (vm_compute; reflexivity).
  assert (H3 : zlen zero_fp = 20) by reflexivity.
  assert (H4 : zlen p256_oid + 1 + zlen [x03; x01; x08; x07] + 20 + 20
               <= sizeof_kdf_params) by (vm_compute; discriminate).
  split; [exact H1|]. split; [exact H2|]. split; [exact H3|].
  destruct (kdf_params_layout backend p256_key zero_fp p256_oid
              [x03; x01; x08; x07] H1 H2 H3 H4) as (Hb & _ & _).
  split; [rewrite Hb; reflexivity|reflexivity].
Defined.

Lemma firstn_length_lt {A} (n : nat) (l : list A) :
  (length (firstn n l) < n)%nat -> firstn n l = l.
Proof.
  intros H. rewrite length_firstn in H. apply firstn_all2. lia.
Qed.

(** C2 fails on its vector. With the P-256 key the code assembles
    [code_kdf_vector], which is not the vector of the specification: the
    KEK parameters follow the octet 0x12 at once. And whatever the backend
    writes for a size+body MPI, once the KEK parameters have been decoded
    the KDF parameters are never the vector of the specification. *)
Lemma kdf_vector_counterexample :
  build_kdf_params p256_key zero_fp = ret code_kdf_vector
  /\ code_kdf_vector <> spec_kdf_vector
  /\ zlen spec_kdf_vector = 55
  /\ forall (B : Backend) (pkey : pubkey) (pk_fp : list byte) (h c : Z)
            (v : list byte),
       read_kek_params pkey = ret (h, c) ->
       build_kdf_params pkey pk_fp = ret v ->
       v <> spec_kdf_vector.
Proof.
  split; [vm_compute; reflexivity|].
  split; [intros E; apply (f_equal (@length byte)) in E; discriminate E|].
  split; [reflexivity|].
  intros B pkey pk_fp h c v Hread Hbuild Ev.
  unfold read_kek_params in Hread.
  destruct (iobuf_write_size_body_mpi (pkey_2 pkey)) as [rc2 ob] eqn:E2.
  destruct (decode_kek_params (iobuf_temp_to_buffer ob sizeof_kdf_params))
    as [rc|[h' c']] eqn:Ed; [discriminate Hread|].
  apply decode_kek_params_inr in Ed as (bh & bc & Eob & _).
  unfold iobuf_temp_to_buffer in Eob.
  assert (Hob : ob = [x03; x01; bh; bc]).
  { rewrite <- Eob. symmetry. apply firstn_length_lt. rewrite Eob.
    vm_compute. lia. }
  subst ob. clear Eob.
  unfold build_kdf_params in Hbuild.
  destruct (iobuf_write_size_body_mpi (pkey_0 pkey)) as [rc1 f1] eqn:E1.
  destruct (is_error rc1) eqn:Er1.
  { destruct (peek (map Some pk_fp) 0 20); [|discriminate Hbuild].
    cbn [defined] in Hbuild. rewrite bind_ret in Hbuild.
    unfold check_rc in Hbuild. rewrite Er1 in Hbuild.
    discriminate Hbuild. }
  rewrite E2 in Hbuild.
  destruct (peek (map Some pk_fp) 0 20) as [f5|] eqn:E5;
    [|discriminate Hbuild].
  assert (Hf5 : length f5 = 20%nat).
  { unfold peek in E5.
    destruct ((0 <=? 0) && (0 <=? 20) && (0 + 20 <=? zlen (map Some pk_fp)))
      eqn:Eb; [|discriminate E5].
    apply all_written_inv in E5. apply (f_equal (@length cell)) in E5.
    rewrite length_map, length_firstn, length_skipn in E5.
    apply andb_true_iff in Eb as [_ Eb]. apply Z.leb_le in Eb.
    unfold zlen in Eb.
    change (Z.to_nat 20) with 20%nat in E5.
    change (Z.to_nat 0) with 0%nat in E5. lia. }
  cbn [defined] in Hbuild. rewrite bind_ret in Hbuild.
  unfold check_rc in Hbuild.
  destruct (is_error rc2); [discriminate Hbuild|].
  rewrite bind_ret in Hbuild. injection Hbuild as Hv.
  unfold iobuf_temp_to_buffer in Hv. rewrite Ev in Hv. clear Ev.
  assert (Hlen := f_equal (@length byte) Hv).
  change (length spec_kdf_vector) with 55%nat in Hlen.
  rewrite length_firstn, length_app in Hlen.
  change (Z.to_nat sizeof_kdf_params) with 256%nat in *.
  cbn [length] in Hlen. rewrite Hf5 in Hlen.
  assert (Hf1 : length f1 = 10%nat) by lia.
  rewrite firstn_all2 in Hv
    by (rewrite length_app; cbn [length]; rewrite Hf5; lia).
  apply (f_equal (fun l => nth 10 l x00)) in Hv.
  rewrite app_nth2 in Hv by lia.
  rewrite Hf1 in Hv. discriminate Hv.
Qed.



(** C8 on the 24-octet session key: the wrap has 32 octets, the length
    octet is 32, and the MPI is [wrapped_session_key]. *)
Lemma wrapped_mpi_format_witness :
  mpi_nbytes (gcry_mpi_scan session_key) mod 8 = 0
  /\ 16 <= mpi_nbytes (gcry_mpi_scan session_key) <= 240
  /\ exists wrapped out,
       zlen wrapped = 32
       /\ snd (pk_ecdh_encrypt_with_shared_point true shared_point zero_fp
                 (gcry_mpi_scan session_key) p256_key)
          = Returns (GPG_ERR_NO_ERROR, Some out)
       /\ mpi_octets out = x20 :: wrapped
       /\ zlen (mpi_octets out) = 33.
Proof.
  assert (H1 : mpi_nbytes (gcry_mpi_scan session_key) mod 8 = 0)
    by (vm_compute; reflexivity).
  assert (H2 : 16 <= mpi_nbytes (gcry_mpi_scan session_key) <= 240)
    by (vm_compute; split; discriminate).
  split; [exact H1|]. split; [exact H2|].
  destruct (wrapped_mpi_format shared_point zero_fp p256_key p256_oid
              x08 x07 reference_backend_ok p256_key_ok always_memory
              (gcry_mpi_scan session_key) H1 H2)
    as (wrapped & out & _ & Hl & Hrun & Ho & _ & Hn & _).
  assert (HL : mpi_nbytes (gcry_mpi_scan session_key) = 24)
    by (vm_compute; reflexivity).
  rewrite HL in Hl, Ho, Hn.
  exists wrapped, out.
  split; [exact Hl|]. split; [exact Hrun|]. split; [exact Ho|exact Hn].
Defined.

(** C8 fails on the bit length. For the 24-octet session key the MPI made
    is [wrapped_session_key], 33 octets that start with the length octet
    32 = 0x20; its bit length is 262, not 8 + 8 * 32 = 264: the two leading
    zero bits of the length octet are not counted. *)
Lemma wrapped_bit_length_counterexample :
  mpi_nbytes (gcry_mpi_scan session_key) = 24
  /\ snd (pk_ecdh_encrypt_with_shared_point true shared_point zero_fp
            (gcry_mpi_scan session_key) p256_key)
     = Returns (GPG_ERR_NO_ERROR, Some (gcry_mpi_scan wrapped_session_key))
  /\ mpi_octets (gcry_mpi_scan wrapped_session_key) = wrapped_session_key
  /\ gcry_mpi_get_nbits (gcry_mpi_scan wrapped_session_key) = 262
  /\ 262 <> 8 + 8 * (24 + 8).
Proof.
  split; [vm_compute; reflexivity|].
  split; [vm_compute; reflexivity|].
  split; [vm_compute; reflexivity|].
  split; [vm_compute; reflexivity|discriminate].
Qed.

(** C6 on 17 octets that start with 0x11: the length octet is not 16, and
    [GPG_ERR_BAD_MPI] comes back before the unwrap. *)
Lemma unwrap_length_check_witness :
  mpi_nbytes (gcry_mpi_scan (x11 :: repeat x01 16)) mod 8 = 1
  /\ Z_of_byte (hd x00 (mpi_octets (gcry_mpi_scan (x11 :: repeat x01 16))))
     <> mpi_nbytes (gcry_mpi_scan (x11 :: repeat x01 16)) - 1
  /\ pk_ecdh_decrypt zero_fp (Some (gcry_mpi_scan (x11 :: repeat x01 16)))
       shared_point p256_key
     = ([Call_mpi_print; Call_md_open; Call_md_final; Call_cipher_open;
         Call_cipher_setkey; Call_mpi_print],
        Returns (GPG_ERR_BAD_MPI, None)).
Proof.
  assert (H1 : mpi_nbytes (gcry_mpi_scan (x11 :: repeat x01 16)) mod 8 = 1)
    by (vm_compute; reflexivity).
  assert (H2 : Z_of_byte
                 (hd x00 (mpi_octets (gcry_mpi_scan (x11 :: repeat x01 16))))
               <> mpi_nbytes (gcry_mpi_scan (x11 :: repeat x01 16)) - 1)
    by (vm_compute; discriminate).
  split; [exact H1|]. split; [exact H2|].
  destruct (unwrap_length_check shared_point zero_fp p256_key p256_oid
              x08 x07 reference_backend_ok p256_key_ok always_memory
              (gcry_mpi_scan (x11 :: repeat x01 16)) H1) as [Hbad _].
  exact (Hbad H2).
Defined.

(** C6 fails twice. An input of 0x12 octets whose length octet is 0x10
    does not come back with [GPG_ERR_BAD_MPI]: 18 leaves 2 when divided by
    8, and the assertion of line 270 stops the program before line 332
    compares anything (so it does with 0x12 octets behind the length
    octet, 19 in all). And an input whose length octet is 16, less than
    24, with 17 octets in all, is not turned away before the unwrap: the
    AES unwrap is called, and the code returned is the backend's. *)
Lemma length_check_counterexample :
  mpi_octets (gcry_mpi_scan (x10 :: repeat x01 17)) = x10 :: repeat x01 17
  /\ zlen (x10 :: repeat x01 17) = 18
  /\ pk_ecdh_decrypt zero_fp (Some (gcry_mpi_scan (x10 :: repeat x01 17)))
       shared_point p256_key
     = ([Call_mpi_print; Call_md_open; Call_md_final; Call_cipher_open;
         Call_cipher_setkey],
        AssertionFailed)
  /\ pk_ecdh_decrypt zero_fp (Some (gcry_mpi_scan (x10 :: repeat x01 18)))
       shared_point p256_key
     = ([Call_mpi_print; Call_md_open; Call_md_final; Call_cipher_open;
         Call_cipher_setkey],
        AssertionFailed)
  /\ mpi_octets (gcry_mpi_scan (x10 :: repeat x01 16)) = x10 :: repeat x01 16
  /\ zlen (repeat x01 16) = 16
  /\ pk_ecdh_decrypt zero_fp (Some (gcry_mpi_scan (x10 :: repeat x01 16)))
       shared_point p256_key
     = ([Call_mpi_print; Call_md_open; Call_md_final; Call_cipher_open;
         Call_cipher_setkey; Call_mpi_print; Call_cipher_decrypt],
        Returns (GPG_ERR_INV_ARG, None)).
Proof.
  split; [vm_compute; reflexivity|].
  split; [reflexivity|].
  split; [vm_compute; reflexivity|].
  split; [vm_compute; reflexivity|].
  split; [vm_compute; reflexivity|].
  split; [reflexivity|].
  vm_compute; reflexivity.
Qed.



(** C9 on the P-256 key: SHA-256 and AES-128, so the KEK has 16 octets
    and the digest 32. The octet behind the KEK is octet 16 of the digest,
    0x4b, not zero. *)
Lemma kek_in_secret_buffer_witness :
  backend_ok backend
  /\ key_ok shared_point zero_fp p256_key p256_oid x08 x07
  /\ exists secret_x,
       kek_of shared_point zero_fp p256_key
       = ([Call_mpi_print; Call_md_open; Call_md_final],
          Next (7, secret_x, 16))
       /\ peek1 secret_x 16 = Some x4b
       /\ peek1 secret_x 16 <> Some x00.
Proof.
  split; [exact reference_backend_ok|]. split; [exact p256_key_ok|].
  destruct (kek_in_secret_buffer backend shared_point zero_fp p256_key
              p256_oid x08 x07 reference_backend_ok p256_key_ok)
    as (secret_x & Hrun & _ & _ & Htail).
  exists secret_x. split; [exact Hrun|].
  assert (Hi : gcry_cipher_get_algo_keylen (Z_of_byte x07) <= 16
               < gcry_md_get_algo_dlen (Z_of_byte x08))
    by (vm_compute; split; [discriminate|reflexivity]).
  pose proof (Htail 16 Hi) as H16.
  assert (Hd : nth (Z.to_nat 16)
                 (gcry_md_read (Z_of_byte x08)
                    ([x00; x00; x00; x01]
                     ++ shared_secret shared_point p256_key
                     ++ kdf_params_of zero_fp p256_oid x08 x07)) x00
               = x4b) by (vm_compute; reflexivity).
  rewrite Hd in H16.
  split; [exact H16|]. rewrite H16. discriminate.
Defined.

(* ================================================================== *)
(** * Further properties of [pk_ecdh_encrypt_with_shared_point] *)

(** ** How the function can end *)

Section LeavesWith.
Context {A : Type} (P : outcome retval -> Prop).

Lemma leaves_with_bind {A' : Type} (m : M A') (f : A' -> M A) :
  leaves_with P m -> (forall a, leaves_with P (f a)) ->
  leaves_with P (bind m f).
Proof.
  unfold leaves_with, bind. destruct m as [t [a|o]]; cbn [snd].
  - intros _ H. specialize (H a). destruct (f a) as [t' r]. exact H.
  - intros H _. exact H.
Qed.

Lemma leaves_with_ret (a : A) : leaves_with P (ret a).
Proof. exact I. Qed.

Lemma leaves_with_calling (c : call) : leaves_with P (calling c).
Proof. exact I. Qed.

Lemma leaves_with_defined (o : option A) :
  P UndefinedBehaviour -> leaves_with P (defined o).
Proof. intros H. destruct o; [exact I|exact H]. Qed.

Lemma leaves_with_assert (b : bool) :
  P AssertionFailed -> leaves_with P (assert b).
Proof. intros H. destruct b; [exact I|exact H]. Qed.

Lemma leaves_with_check_rc (rc : gpg_error_t) :
  (is_error rc = true -> P (Returns (rc, None))) ->
  leaves_with P (check_rc rc).
Proof.
  intros H. unfold check_rc. destruct (is_error rc); [exact (H eq_refl)|exact I].
Qed.

Lemma leaves_with_run (m : M unit) :
  leaves_with P m -> P UndefinedBehaviour -> P (snd (run m)).
Proof.
  unfold leaves_with, run. destruct m as [t [a|o]]; cbn [snd]; auto.
Qed.

End LeavesWith.

Lemma is_error_true (rc : gpg_error_t) :
  is_error rc = true -> rc <> GPG_ERR_NO_ERROR.
Proof. intros H ->. discriminate H. Qed.

Lemma out_iff_success_error (rc : gpg_error_t) :
  is_error rc = true -> out_iff_success (Returns (rc, None)).
Proof.
  intros H. cbn. split; [intros E; exfalso; exact (is_error_true rc H E)|].
  intros E. exfalso. apply E. reflexivity.
Qed.

Lemma out_iff_success_result (result : gcry_mpi_t) :
  out_iff_success (Returns (GPG_ERR_NO_ERROR, Some result)).
Proof. cbn. split; [discriminate|reflexivity]. Qed.

Ltac leaves_step :=
  lazymatch goal with
  | |- leaves_with _ (bind _ _) => apply leaves_with_bind; [|intros ?]
  | |- leaves_with _ (calling _) => apply leaves_with_calling
  | |- leaves_with _ (ret _) => apply leaves_with_ret
  | |- leaves_with _ (defined _) => apply leaves_with_defined; exact I
  | |- leaves_with _ (assert _) => apply leaves_with_assert; exact I
  | |- leaves_with _ (check_rc _) =>
      apply leaves_with_check_rc; apply out_iff_success_error
  | |- leaves_with _ (return_ _) => apply out_iff_success_error; reflexivity
  | |- leaves_with _ (return_out _ _) => apply out_iff_success_result
  | |- leaves_with _ log_bug => exact I
  | |- leaves_with _ (let (_, _) := ?p in _) => destruct p
  | |- leaves_with _ (if ?b then _ else _) => destruct b
  end.

Section OutIffSuccess.
Context {B : Backend}.

Lemma extract_secret_x_out (nbits : Z) (pkey : pubkey) (s : gcry_mpi_t) :
  leaves_with out_iff_success (extract_secret_x nbits pkey s).
Proof.
  unfold extract_secret_x.
  repeat leaves_step.
Qed.

Lemma read_kek_params_out (pkey : pubkey) :
  leaves_with out_iff_success (read_kek_params pkey).
Proof.
  unfold read_kek_params. leaves_step.
  destruct (decode_kek_params _) as [rc|algos] eqn:E; [|leaves_step].
  rewrite (decode_kek_params_inl _ _ E). leaves_step.
Qed.

Lemma build_kdf_params_out (pkey : pubkey) (pk_fp : list byte) :
  leaves_with out_iff_success (build_kdf_params pkey pk_fp).
Proof. unfold build_kdf_params. repeat leaves_step. Qed.

Lemma derive_kek_out (h c : Z) (secret_x : list cell) (n : Z)
    (kdf_params : list byte) :
  leaves_with out_iff_success (derive_kek h c secret_x n kdf_params).
Proof. unfold derive_kek. repeat leaves_step. Qed.

Lemma aeswrap_data_out (is_encrypt : bool) (algo : Z) (secret_x : list cell)
    (n : Z) (data : gcry_mpi_t) :
  leaves_with out_iff_success (aeswrap_data is_encrypt algo secret_x n data).
Proof. unfold aeswrap_data. repeat leaves_step. Qed.

Lemma kek_of_out (shared_mpi : gcry_mpi_t) (pk_fp : list byte)
    (pkey : pubkey) :
  leaves_with out_iff_success (kek_of shared_mpi pk_fp pkey).
Proof.
  unfold kek_of.
  leaves_step; [apply extract_secret_x_out|].
  leaves_step; [apply read_kek_params_out|].
  leaves_step; [apply build_kdf_params_out|].
  leaves_step; [apply derive_kek_out|].
  leaves_step.
Qed.

(** X1. However [pk_ecdh_encrypt_with_shared_point] returns, in either
    direction and with whatever backend, [*out] is set exactly when the
    code returned is 0; and so for [pk_ecdh_decrypt], with or without
    data. *)
Theorem out_set_iff_success (is_encrypt : bool) (shared_mpi : gcry_mpi_t)
    (pk_fp : list byte) (data : gcry_mpi_t) (pkey : pubkey) :
  out_iff_success
    (snd (pk_ecdh_encrypt_with_shared_point is_encrypt shared_mpi pk_fp
            data pkey))
  /\ forall d : option gcry_mpi_t,
       out_iff_success (snd (pk_ecdh_decrypt pk_fp d shared_mpi pkey)).
Proof.
  assert (H : forall e d,
             out_iff_success
               (snd (pk_ecdh_encrypt_with_shared_point e shared_mpi pk_fp
                       d pkey))).
  { intros e d. unfold pk_ecdh_encrypt_with_shared_point.
    apply leaves_with_run; [|exact I].
    leaves_step; [apply kek_of_out|apply aeswrap_data_out]. }
  split; [apply H|].
  intros [d|]; [apply H|].
  cbn. split; [discriminate|intros E; exfalso; apply E; reflexivity].
Qed.

End OutIffSuccess.

(** ** The order of the library calls *)

Lemma begins_nil {A} (l : list A) : begins [] l.
Proof. exists l. reflexivity. Qed.

Lemma begins_app {A} (t t' l' : list A) :
  begins t' l' -> begins (t ++ t') (t ++ l').
Proof. intros [rest ->]. exists rest. apply app_assoc. Qed.

Lemma begins_In {A} (t l : list A) (x : A) :
  begins t l -> In x t -> In x l.
Proof. intros [rest ->] H. apply in_or_app. left. exact H. Qed.

Lemma calls_from_bind {A A'} (l l' l'' : list call) (m : M A')
    (f : A' -> M A) :
  calls_from l m l' -> (forall a, calls_from l' (f a) l'') ->
  calls_from l (bind m f) l''.
Proof.
  unfold calls_from, bind. destruct m as [t [a|o]]; cbn [fst snd].
  - intros -> H. specialize (H a). destruct (f a) as [t' [b|o]];
      cbn [fst snd] in *.
    + rewrite H. apply app_assoc.
    + apply begins_app. exact H.
  - intros H _. exact H.
Qed.

Lemma calls_from_calling (c : call) (l : list call) :
  calls_from (c :: l) (calling c) l.
Proof. reflexivity. Qed.

Lemma calls_from_ret {A} (a : A) (l : list call) : calls_from l (ret a) l.
Proof. reflexivity. Qed.

Lemma calls_from_defined {A} (o : option A) (l : list call) :
  calls_from l (defined o) l.
Proof. destruct o; [reflexivity|apply begins_nil]. Qed.

Lemma calls_from_assert (b : bool) (l : list call) :
  calls_from l (assert b) l.
Proof. destruct b; [reflexivity|apply begins_nil]. Qed.

Lemma calls_from_check_rc (rc : gpg_error_t) (l : list call) :
  calls_from l (check_rc rc) l.
Proof.
  unfold check_rc. destruct (is_error rc); [apply begins_nil|reflexivity].
Qed.

Lemma calls_from_begins {A} (l l' : list call) (m : M A) :
  calls_from l m l' -> begins (fst m) l.
Proof.
  unfold calls_from. destruct m as [t [a|o]]; cbn [fst snd];
    [intros ->; exists l'; reflexivity|intros H; exact H].
Qed.

Ltac calls_step :=
  lazymatch goal with
  | |- calls_from _ (bind _ _) _ => eapply calls_from_bind; [|intros ?]
  | |- calls_from _ (calling _) _ => apply calls_from_calling
  | |- calls_from _ (ret _) _ => apply calls_from_ret
  | |- calls_from _ (defined _) _ => apply calls_from_defined
  | |- calls_from _ (assert _) _ => apply calls_from_assert
  | |- calls_from _ (check_rc _) _ => apply calls_from_check_rc
  | |- calls_from _ (return_ _) _ => apply begins_nil
  | |- calls_from _ (return_out _ _) _ => apply begins_nil
  | |- calls_from _ log_bug _ => apply begins_nil
  | |- calls_from _ (let (_, _) := ?p in _) _ => destruct p
  | |- calls_from _ (if ?b then _ else _) _ => destruct b
  end.

Section CallOrder.
Context {B : Backend}.

Lemma extract_secret_x_calls (nbits : Z) (pkey : pubkey) (s : gcry_mpi_t)
    (l : list call) :
  calls_from (Call_mpi_print :: l) (extract_secret_x nbits pkey s) l.
Proof. unfold extract_secret_x. repeat calls_step. Qed.

Lemma read_kek_params_calls (pkey : pubkey) (l : list call) :
  calls_from l (read_kek_params pkey) l.
Proof.
  unfold read_kek_params. calls_step.
  destruct (decode_kek_params _); calls_step.
Qed.

Lemma build_kdf_params_calls (pkey : pubkey) (pk_fp : list byte)
    (l : list call) :
  calls_from l (build_kdf_params pkey pk_fp) l.
Proof. unfold build_kdf_params. repeat calls_step. Qed.

Lemma derive_kek_calls (h c : Z) (secret_x : list cell) (n : Z)
    (kdf_params : list byte) (l : list call) :
  calls_from (Call_md_open :: Call_md_final :: l)
    (derive_kek h c secret_x n kdf_params) l.
Proof. unfold derive_kek. repeat calls_step. Qed.

Lemma aeswrap_data_calls (is_encrypt : bool) (algo : Z)
    (secret_x : list cell) (n : Z) (data : gcry_mpi_t) :
  calls_from
    [Call_cipher_open; Call_cipher_setkey; Call_mpi_print;
     if is_encrypt then Call_cipher_encrypt else Call_cipher_decrypt;
     Call_mpi_scan]
    (aeswrap_data is_encrypt algo secret_x n data) [].
Proof. unfold aeswrap_data. destruct is_encrypt; repeat calls_step. Qed.

Lemma kek_of_calls (shared_mpi : gcry_mpi_t) (pk_fp : list byte)
    (pkey : pubkey) (l : list call) :
  calls_from (Call_mpi_print :: Call_md_open :: Call_md_final :: l)
    (kek_of shared_mpi pk_fp pkey) l.
Proof.
  unfold kek_of.
  calls_step; [apply extract_secret_x_calls|].
  calls_step; [apply read_kek_params_calls|].
  calls_step; [apply build_kdf_params_calls|].
  calls_step; [apply derive_kek_calls|].
  calls_step.
Qed.

(** X2. Whatever the input and the backend, the library calls that
    [pk_ecdh_encrypt_with_shared_point] makes are a beginning of the
    sequence export, md_open, md_final, cipher_open, cipher_setkey,
    export, wrap or unwrap, scan: no call is made twice or out of its
    turn, the cipher is not used before its key is set, nothing is
    unwrapped when encrypting and nothing wrapped when decrypting. *)
Theorem calls_in_order (is_encrypt : bool) (shared_mpi : gcry_mpi_t)
    (pk_fp : list byte) (data : gcry_mpi_t) (pkey : pubkey) :
  begins
    (fst (pk_ecdh_encrypt_with_shared_point is_encrypt shared_mpi pk_fp
            data pkey))
    (all_calls is_encrypt)
  /\ ~ In Call_cipher_decrypt
         (fst (pk_ecdh_encrypt_with_shared_point true shared_mpi pk_fp
                 data pkey))
  /\ ~ In Call_cipher_encrypt
         (fst (pk_ecdh_encrypt_with_shared_point false shared_mpi pk_fp
                 data pkey)).
Proof.
  assert (H : forall e,
             begins
               (fst (pk_ecdh_encrypt_with_shared_point e shared_mpi pk_fp
                       data pkey))
               (all_calls e)).
  { intros e. unfold pk_ecdh_encrypt_with_shared_point.
    match goal with
    | |- begins (fst (run ?m)) _ =>
        replace (fst (run m)) with (fst m)
          by (destruct m as [t [a|o]]; reflexivity);
        apply (calls_from_begins _ [] m)
    end.
    calls_step; [apply kek_of_calls|apply aeswrap_data_calls]. }
  split; [apply H|]. split.
  - intros Hin. apply (begins_In _ _ _ (H true)) in Hin.
    cbn in Hin. intuition discriminate.
  - intros Hin. apply (begins_In _ _ _ (H false)) in Hin.
    cbn in Hin. intuition discriminate.
Qed.

End CallOrder.

(** ** Where the function stops short *)

Lemma not_valid_kek_params (blob : list byte) :
  ~ valid_kek_params blob ->
  decode_kek_params blob = inl GPG_ERR_BAD_PUBKEY.
Proof.
  intros Hn. destruct (decode_kek_params blob) as [rc|[h c]] eqn:E.
  - rewrite (decode_kek_params_inl blob rc E). reflexivity.
  - exfalso. apply Hn.
    apply decode_kek_params_inr in E as (bh & bc & -> & -> & -> & Hh & Hc).
    exists bh, bc. auto.
Qed.

Section StopsShort.
Context {B : Backend}.
Variables (shared_mpi : gcry_mpi_t) (pk_fp : list byte) (pkey : pubkey).

(** The shared point has more octets than a coordinate and no more than
    the public point: lines 117-139 go through. *)
Hypothesis Hframed : coordinate_size pkey < mpi_nbytes shared_mpi.
Hypothesis Hfits : mpi_nbytes shared_mpi <= mpi_nbytes (pkey_1 pkey).

(** The block that holds the shared secret after line 134. *)
Let blk : list cell :=
  map Some (shared_secret shared_mpi pkey
            ++ repeat x00 (Z.to_nat (mpi_nbytes shared_mpi
                                     - coordinate_size pkey)))
  ++ fresh (mpi_nbytes (pkey_1 pkey) - mpi_nbytes shared_mpi).

Lemma extract_secret_x_framed :
  extract_secret_x (Z.of_N (pubkey_nbits PUBKEY_ALGO_ECDH pkey)) pkey
    shared_mpi
  = ([Call_mpi_print], Next (blk, coordinate_size pkey)).
Proof.
  pose proof (mpi_octets_length shared_mpi) as Hm.
  rewrite extract_secret_x_ok; fold (coordinate_size pkey);
    rewrite ?Hm; try lia.
  reflexivity.
Qed.

Lemma zlen_shared_secret :
  zlen (shared_secret shared_mpi pkey) = coordinate_size pkey.
Proof.
  pose proof (mpi_octets_length shared_mpi) as Hm.
  assert (Hn0 : 0 <= coordinate_size pkey)
    by (unfold coordinate_size; apply Z.div_pos; lia).
  unfold shared_secret. apply zlen_firstn.
  change 1%nat with (Z.to_nat 1). rewrite zlen_skipn; lia.
Qed.

Lemma zlen_blk : zlen blk = mpi_nbytes (pkey_1 pkey).
Proof.
  assert (Hn0 : 0 <= coordinate_size pkey)
    by (unfold coordinate_size; apply Z.div_pos; lia).
  unfold blk. rewrite zlen_app, zlen_map, zlen_app, zlen_shared_secret,
    zlen_repeat, zlen_fresh; lia.
Qed.

Lemma peek_blk :
  peek blk 0 (coordinate_size pkey) = Some (shared_secret shared_mpi pkey).
Proof.
  unfold blk. rewrite map_app, <- app_assoc.
  rewrite <- (app_nil_l (map Some (shared_secret _ _) ++ _)).
  apply peek_shape; [reflexivity|apply zlen_shared_secret].
Qed.

(** X3. When what is written for [pkey[2]] is not 03 01 hash cipher with
    an allowed hash and cipher, the function returns
    [GPG_ERR_BAD_PUBKEY] in either direction, with no result and before
    any digest or cipher call: only the shared point has been exported.
    The return code of that write plays no part. *)
Theorem bad_kek_params_rejected (is_encrypt : bool) (data : gcry_mpi_t) :
  ~ valid_kek_params
      (iobuf_temp_to_buffer (snd (iobuf_write_size_body_mpi (pkey_2 pkey)))
         sizeof_kdf_params) ->
  pk_ecdh_encrypt_with_shared_point is_encrypt shared_mpi pk_fp data pkey
  = ([Call_mpi_print], Returns (GPG_ERR_BAD_PUBKEY, None)).
Proof.
  intros Hn. unfold pk_ecdh_encrypt_with_shared_point, kek_of.
  rewrite extract_secret_x_framed, bind_Next. cbn [fst snd].
  unfold read_kek_params.
  destruct (iobuf_write_size_body_mpi (pkey_2 pkey)) as [rc2 ob].
  cbn [snd] in Hn. rewrite (not_valid_kek_params _ Hn).
  reflexivity.
Qed.

Variables (oid : list byte) (h c : byte).

(** The KEK parameters are written without error and are valid. *)
Hypothesis Hkek : iobuf_write_size_body_mpi (pkey_2 pkey)
                  = (GPG_ERR_NO_ERROR, [x03; x01; h; c]).
Hypothesis Hh : In (Z_of_byte h)
                  [DIGEST_ALGO_SHA256; DIGEST_ALGO_SHA384;
                   DIGEST_ALGO_SHA512].
Hypothesis Hc : In (Z_of_byte c)
                  [CIPHER_ALGO_AES; CIPHER_ALGO_AES192; CIPHER_ALGO_AES256].
Hypothesis Hfp : 20 <= zlen pk_fp.

Lemma read_kek_params_valid :
  read_kek_params pkey = ret (Z_of_byte h, Z_of_byte c).
Proof.
  unfold read_kek_params. rewrite Hkek.
  unfold iobuf_temp_to_buffer, sizeof_kdf_params.
  change (firstn (Z.to_nat 256) [x03; x01; h; c]) with [x03; x01; h; c].
  rewrite (decode_kek_params_valid _ _ Hh Hc). reflexivity.
Qed.


Hypothesis Hoid : iobuf_write_size_body_mpi (pkey_0 pkey)
                  = (GPG_ERR_NO_ERROR, oid).

Lemma build_kdf_params_valid :
  build_kdf_params pkey pk_fp = ret (kdf_params_of pk_fp oid h c).
Proof.
  unfold build_kdf_params. rewrite Hoid.
  cbn [is_error gpg_error_eqb negb]. rewrite Hkek.
  rewrite (peek_fp _ Hfp). cbn [defined]. rewrite bind_ret.
  cbn [check_rc is_error gpg_error_eqb negb]. rewrite bind_ret.
  reflexivity.
Qed.

Lemma kek_of_derive :
  kek_of shared_mpi pk_fp pkey
  = bind (calling Call_mpi_print)
      (fun _ =>
         kek <- derive_kek (Z_of_byte h) (Z_of_byte c) blk
                  (coordinate_size pkey) (kdf_params_of pk_fp oid h c) ;;
         ret (Z_of_byte c, fst kek, snd kek)).
Proof.
  unfold kek_of.
  rewrite extract_secret_x_framed, bind_Next. cbn [fst snd].
  rewrite read_kek_params_valid, bind_ret.
  rewrite build_kdf_params_valid, bind_ret. cbn [fst snd].
  unfold bind at 3, calling.
  match goal with
  | |- (_, _) = (let (t', r) := ?m in _) => destruct m as [t' r]
  end.
  reflexivity.
Qed.

(** X9. When [gcry_md_open] refuses the hash of valid KEK parameters,
    the function does not return an error: it ends in [log_bug], which
    stops the process, right after that call. *)
Theorem md_open_failure_is_fatal (is_encrypt : bool) (data : gcry_mpi_t) :
  is_error (gcry_md_open (Z_of_byte h)) = true ->
  pk_ecdh_encrypt_with_shared_point is_encrypt shared_mpi pk_fp data pkey
  = ([Call_mpi_print; Call_md_open], LogBug).
Proof.
  intros Hopen. unfold pk_ecdh_encrypt_with_shared_point.
  rewrite kek_of_derive. unfold derive_kek. rewrite Hopen.
  reflexivity.
Qed.

(** X7. When the digest of valid KEK parameters is longer than the
    block allocated for the shared secret, which is as long as the
    public point [pkey[1]], the [memcpy] of line 226 writes past the end
    of that block; nothing in the function guards against it. *)
Theorem digest_overflows_block (is_encrypt : bool) (data : gcry_mpi_t) :
  gcry_md_open (Z_of_byte h) = GPG_ERR_NO_ERROR ->
  (forall msg,
     zlen (gcry_md_read (Z_of_byte h) msg)
     = gcry_md_get_algo_dlen (Z_of_byte h)) ->
  mpi_nbytes (pkey_1 pkey) < gcry_md_get_algo_dlen (Z_of_byte h) ->
  pk_ecdh_encrypt_with_shared_point is_encrypt shared_mpi pk_fp data pkey
  = ([Call_mpi_print; Call_md_open; Call_md_final], UndefinedBehaviour).
Proof.
  intros Hopen Hlen Hover.
  pose proof (dlen_cases _ Hh) as Hd.
  unfold pk_ecdh_encrypt_with_shared_point.
  rewrite kek_of_derive. unfold derive_kek. rewrite Hopen.
  cbn [is_error gpg_error_eqb negb]. rewrite bind_ret.
  rewrite peek_blk. cbn [defined]. rewrite bind_ret.
  rewrite geb_true by lia. cbn [assert]. rewrite bind_ret.
  match goal with
  | |- context [gcry_md_read ?a ?msg] => set (dg := gcry_md_read a msg)
  end.
  assert (Hpd : peek (map Some dg) 0 (gcry_md_get_algo_dlen (Z_of_byte h))
                = Some dg).
  { rewrite <- (app_nil_r (map Some dg)).
    rewrite <- (app_nil_l (map Some dg ++ [])).
    apply peek_shape; [reflexivity|apply Hlen]. }
  rewrite Hpd. cbn [defined]. rewrite bind_ret.
  rewrite poke_outside by (rewrite zlen_blk; unfold dg; rewrite Hlen; lia).
  reflexivity.
Qed.

End StopsShort.

Section AfterKek.
Context {B : Backend}.
Variables (shared_mpi : gcry_mpi_t) (pk_fp : list byte) (pkey : pubkey).
Variables (oid : list byte) (h c : byte).
Hypothesis Hb : backend_ok B.
Hypothesis Hk : key_ok shared_mpi pk_fp pkey oid h c.

(** X4. A [data] MPI whose octet count is not a multiple of 8 when
    encrypting, or not one more than a multiple of 8 when decrypting,
    does not get an error code: the assertion of line 270 stops the
    process, once the KEK is derived and set. When decrypting, [data]
    is what the message holds. *)
Theorem data_length_is_asserted (is_encrypt : bool) (data : gcry_mpi_t) :
  mpi_nbytes data mod 8 <> (if is_encrypt then 0 else 1) ->
  pk_ecdh_encrypt_with_shared_point is_encrypt shared_mpi pk_fp data pkey
  = ([Call_mpi_print; Call_md_open; Call_md_final; Call_cipher_open;
      Call_cipher_setkey],
     AssertionFailed).
Proof.
  intros Hm.
  apply (pk_ecdh_with_kek shared_mpi pk_fp pkey oid h c Hb Hk is_encrypt
           data [Call_cipher_open; Call_cipher_setkey]).
  apply (aeswrap_data_assert (Z_of_byte c) _ _
           (kek_octets shared_mpi pk_fp pkey oid h c) data).
  - apply (cipher_open_ok _ Hb).
    apply (keylen_nonzero shared_mpi pk_fp pkey oid h c Hk).
  - apply (peek_kek shared_mpi pk_fp pkey oid h c Hb Hk).
  - apply (cipher_setkey_ok _ Hb).
    + apply (keylen_nonzero shared_mpi pk_fp pkey oid h c Hk).
    + apply (zlen_kek_octets shared_mpi pk_fp pkey oid h c Hb Hk).
  - exact Hm.
Qed.

(** X5. When [xtrymalloc_secure] finds no memory for [data_buf], the
    function returns [GPG_ERR_ENOMEM] with no result, the cipher handle
    opened and keyed but neither the export of [data] nor the wrap or
    unwrap done. *)
Theorem no_memory_for_data_buf (is_encrypt : bool) (data : gcry_mpi_t) :
  mpi_nbytes data mod 8 = (if is_encrypt then 0 else 1) ->
  xtrymalloc_secure (1 + 2 * mpi_nbytes data + 8) = false ->
  pk_ecdh_encrypt_with_shared_point is_encrypt shared_mpi pk_fp data pkey
  = ([Call_mpi_print; Call_md_open; Call_md_final; Call_cipher_open;
      Call_cipher_setkey],
     Returns (GPG_ERR_ENOMEM, None))
  /\ kind_of GPG_ERR_ENOMEM = Some OutOfMemory.
Proof.
  intros Hm Hmem. split; [|reflexivity].
  apply (pk_ecdh_with_kek shared_mpi pk_fp pkey oid h c Hb Hk is_encrypt
           data [Call_cipher_open; Call_cipher_setkey]).
  unfold aeswrap_data.
  mstep. rewrite (cipher_open_ok _ Hb)
    by apply (keylen_nonzero shared_mpi pk_fp pkey oid h c Hk).
  mstep. rewrite (peek_kek shared_mpi pk_fp pkey oid h c Hb Hk).
  mstep. mstep.
  rewrite (cipher_setkey_ok _ Hb)
    by (try apply (keylen_nonzero shared_mpi pk_fp pkey oid h c Hk);
        apply (zlen_kek_octets shared_mpi pk_fp pkey oid h c Hb Hk)).
  mstep.
  fold (mpi_nbytes data).
  rewrite land_7 by apply mpi_nbytes_nonneg.
  rewrite Hm, Z.eqb_refl. cbn [assert]. rewrite bind_ret.
  rewrite Hmem. reflexivity.
Qed.

End AfterKek.

(** X6. Of the fingerprint only the first 20 octets are used: two
    fingerprints that agree on them give the same run, calls and
    outcome, in either direction. *)
Theorem fingerprint_first_20 (B : Backend) (is_encrypt : bool)
    (shared_mpi : gcry_mpi_t) (pk_fp pk_fp' : list byte)
    (data : gcry_mpi_t) (pkey : pubkey) :
  20 <= zlen pk_fp -> 20 <= zlen pk_fp' ->
  firstn 20 pk_fp = firstn 20 pk_fp' ->
  pk_ecdh_encrypt_with_shared_point is_encrypt shared_mpi pk_fp data pkey
  = pk_ecdh_encrypt_with_shared_point is_encrypt shared_mpi pk_fp' data
      pkey.
Proof.
  intros H1 H2 E.
  assert (Hb : build_kdf_params pkey pk_fp = build_kdf_params pkey pk_fp').
  { unfold build_kdf_params.
    rewrite (peek_fp pk_fp H1), (peek_fp pk_fp' H2), E. reflexivity. }
  unfold pk_ecdh_encrypt_with_shared_point, kek_of. rewrite Hb.
  reflexivity.
Qed.

(** ** The KDF parameters name their fields *)

Lemma app_eq_length {A} (l1 l1' l2 l2' : list A) :
  length l1 = length l1' -> l1 ++ l2 = l1' ++ l2' ->
  l1 = l1' /\ l2 = l2'.
Proof.
  revert l1'. induction l1 as [|x l1 IH]; intros [|x' l1'] Hl E;
    try discriminate Hl.
  - split; [reflexivity|exact E].
  - cbn [app] in E. injection E as -> E. injection Hl as Hl.
    destruct (IH l1' Hl E) as [-> ->]. split; reflexivity.
Qed.

(** X10. The KDF parameters tell their inputs apart: when two keys and
    fingerprints give the same KDF parameters (the OIDs written in the
    size+body form, their first octet counting the octets behind it, and
    short enough for the buffer), then the curve OIDs, the KDF hash, the
    KEK cipher and the fingerprints are the same. *)
Theorem kdf_params_unambiguous (B : Backend) (pkey pkey' : pubkey)
    (pk_fp pk_fp' oid oid' : list byte) (h c h' c' : byte) :
  iobuf_write_size_body_mpi (pkey_0 pkey) = (GPG_ERR_NO_ERROR, oid) ->
  iobuf_write_size_body_mpi (pkey_0 pkey') = (GPG_ERR_NO_ERROR, oid') ->
  iobuf_write_size_body_mpi (pkey_2 pkey)
  = (GPG_ERR_NO_ERROR, [x03; x01; h; c]) ->
  iobuf_write_size_body_mpi (pkey_2 pkey')
  = (GPG_ERR_NO_ERROR, [x03; x01; h'; c']) ->
  Z_of_byte (hd x00 oid) = zlen oid - 1 ->
  Z_of_byte (hd x00 oid') = zlen oid' - 1 ->
  zlen oid <= 211 -> zlen oid' <= 211 ->
  zlen pk_fp = 20 -> zlen pk_fp' = 20 ->
  build_kdf_params pkey pk_fp = build_kdf_params pkey' pk_fp' ->
  oid = oid' /\ h = h' /\ c = c' /\ pk_fp = pk_fp'.
Proof.
  intros Ho Ho' Hk Hk' Hf Hf' Hl Hl' Hp Hp' E.
  assert (H20 : 20 <= zlen pk_fp) by lia.
  assert (H20' : 20 <= zlen pk_fp') by lia.
  rewrite (build_kdf_params_valid pk_fp pkey oid h c Hk H20 Ho) in E.
  rewrite (build_kdf_params_valid pk_fp' pkey' oid' h' c' Hk' H20' Ho') in E.
  injection E as E. unfold kdf_params_of in E.
  rewrite (firstn_all2 (n := 20) pk_fp) in E by (unfold zlen in Hp; lia).
  rewrite (firstn_all2 (n := 20) pk_fp') in E by (unfold zlen in Hp'; lia).
  rewrite !firstn_all2 in E
    by (rewrite !length_app; change (length anonymous_sender) with 20%nat;
        cbn [length]; unfold zlen in *; lia).
  assert (Hhd : hd x00 oid = hd x00 oid').
  { destruct oid as [|b r]; [cbn in Hf; lia|].
    destruct oid' as [|b' r']; [cbn in Hf'; lia|].
    cbn [app] in E. injection E as -> _. reflexivity. }
  assert (Hlen : length oid = length oid').
  { rewrite Hhd in Hf. unfold zlen in *. lia. }
  destruct (app_eq_length _ _ _ _ Hlen E) as [-> E'].
  cbn [app] in E'. injection E' as -> -> ->. auto.
Qed.

(* ================================================================== *)
(** * Further properties of [pk_ecdh_default_params] *)

Lemma pk_ecdh_default_params_blob (B : Backend) (q : Z) :
  pk_ecdh_default_params q
  = if xtrymalloc 4
    then Returns (Some (kek_params_blob (select_kek_row q), 4))
    else Returns None.
Proof.
  unfold pk_ecdh_default_params.
  change (poke (fresh 4) 0 [byte_of_Z 3; byte_of_Z 1])
    with (Some [Some x03; Some x01; None; None]).
  cbv iota. rewrite kek_params_loop_select.
  assert (Hi : (match find (fun row => qbits row >=? q) kek_params_table with
                | Some _ =>
                    if 256 >=? q then 0 else if 384 >=? q then 1 else 2
                | None => 2
                end <? DIM_kek_params_table) = true).
  { destruct (find _ _); [|reflexivity].
    destruct (256 >=? q); [reflexivity|].
    destruct (384 >=? q); reflexivity. }
  rewrite Hi. rewrite zlen_map.
  change (zlen (kek_params_blob (select_kek_row q))) with 4.
  destruct (xtrymalloc 4); [|reflexivity].
  rewrite <- (app_nil_r (map Some _)), peek_prefix by reflexivity.
  reflexivity.
Qed.

(** The three rows, by the thresholds. *)
Lemma select_kek_row_cases (q : Z) :
  (q <= 256 /\ select_kek_row q
               = {| qbits := 256; openpgp_hash_id := DIGEST_ALGO_SHA256;
                    openpgp_cipher_id := CIPHER_ALGO_AES |})
  \/ (256 < q <= 384
      /\ select_kek_row q
         = {| qbits := 384; openpgp_hash_id := DIGEST_ALGO_SHA384;
              openpgp_cipher_id := CIPHER_ALGO_AES256 |})
  \/ (384 < q
      /\ select_kek_row q
         = {| qbits := 528; openpgp_hash_id := DIGEST_ALGO_SHA512;
              openpgp_cipher_id := CIPHER_ALGO_AES256 |}).
Proof.
  unfold select_kek_row, kek_params_table. cbn [find qbits].
  destruct (256 >=? q) eqn:E1.
  { left. rewrite Z.geb_leb in E1. apply Z.leb_le in E1. auto. }
  rewrite Z.geb_leb in E1. apply Z.leb_gt in E1.
  destruct (384 >=? q) eqn:E2.
  { right. left. rewrite Z.geb_leb in E2. apply Z.leb_le in E2. auto. }
  rewrite Z.geb_leb in E2. apply Z.leb_gt in E2.
  right. right. split; [exact E2|].
  destruct (528 >=? q); reflexivity.
Qed.

(** X11. The default KEK parameters pass the checks that
    [pk_ecdh_encrypt_with_shared_point] makes on KEK parameters, for
    every [qbits]: they decode to a hash and a cipher, the digest has at
    least 32 octets and is no shorter than the key, and for a curve of
    128 bits or more the key is no longer than a coordinate, so that no
    assertion of the KDF block (lines 224-233) can fail on them. *)
Theorem default_params_pass_the_checks (B : Backend) (q : Z)
    (blob : list byte) (n : Z) :
  pk_ecdh_default_params q = Returns (Some (blob, n)) ->
  exists h c,
    decode_kek_params blob = inr (h, c)
    /\ n = zlen blob
    /\ 32 <= gcry_md_get_algo_dlen h
    /\ gcry_cipher_get_algo_keylen c <= gcry_md_get_algo_dlen h
    /\ (128 <= q -> gcry_cipher_get_algo_keylen c <= (q + 7) / 8).
Proof.
  rewrite pk_ecdh_default_params_blob.
  destruct (xtrymalloc 4); [|discriminate].
  intros H. injection H as <- <-.
  destruct (select_kek_row_cases q) as [[Hq ->]|[[Hq ->]|[Hq ->]]].
  - exists DIGEST_ALGO_SHA256, CIPHER_ALGO_AES.
    repeat split; try (vm_compute; discriminate).
    intros H. change (gcry_cipher_get_algo_keylen CIPHER_ALGO_AES) with 16.
    apply Z.div_le_lower_bound; lia.
  - exists DIGEST_ALGO_SHA384, CIPHER_ALGO_AES256.
    repeat split; try (vm_compute; discriminate).
    intros H. change (gcry_cipher_get_algo_keylen CIPHER_ALGO_AES256) with 32.
    apply Z.div_le_lower_bound; lia.
  - exists DIGEST_ALGO_SHA512, CIPHER_ALGO_AES256.
    repeat split; try (vm_compute; discriminate).
    intros H. change (gcry_cipher_get_algo_keylen CIPHER_ALGO_AES256) with 32.
    apply Z.div_le_lower_bound; lia.
Qed.

(** X12. The default KEK parameters never get weaker as the curve gets
    larger: for [q <= q'] the digest and the cipher key chosen for [q']
    are at least as long as those chosen for [q]. *)
Theorem default_params_monotone (B : Backend) (q q' : Z)
    (blob blob' : list byte) (n n' : Z) :
  q <= q' ->
  pk_ecdh_default_params q = Returns (Some (blob, n)) ->
  pk_ecdh_default_params q' = Returns (Some (blob', n')) ->
  exists h c h' c',
    decode_kek_params blob = inr (h, c)
    /\ decode_kek_params blob' = inr (h', c')
    /\ gcry_md_get_algo_dlen h <= gcry_md_get_algo_dlen h'
    /\ gcry_cipher_get_algo_keylen c <= gcry_cipher_get_algo_keylen c'.
Proof.
  intros Hq. rewrite !pk_ecdh_default_params_blob.
  destruct (xtrymalloc 4); [|discriminate].
  intros H H'. injection H as <- <-. injection H' as <- <-.
  destruct (select_kek_row_cases q) as [[H1 ->]|[[H1 ->]|[H1 ->]]];
    destruct (select_kek_row_cases q') as [[H2 ->]|[[H2 ->]|[H2 ->]]];
    try lia;
    do 4 eexists;
    (split; [reflexivity|split; [reflexivity|]]);
    vm_compute; split; discriminate.
Qed.

(* ================================================================== *)
(** * [pk_ecdh_encrypt] *)

Lemma is_error_false (rc : gpg_error_t) :
  is_error rc = false -> rc = GPG_ERR_NO_ERROR.
Proof. destruct rc; try discriminate. reflexivity. Qed.

Section PkEncryptFacts.
Context {B : Backend} {P : PkBackend}.
Variables (pk_fp : list byte) (data : gcry_mpi_t) (pkey : pubkey).

(** X13. [pk_ecdh_encrypt] never returns success: when it returns, the
    code is an error that [gcry_pk_encrypt] gave for the ephemeral scalar
    and the key, and neither [resarr[0]] nor [resarr[1]] has been
    written. *)
Theorem pk_ecdh_encrypt_returns_only_errors (code : gpg_error_t)
    (resarr_0 resarr_1 : option gcry_mpi_t) :
  pk_ecdh_encrypt pk_fp data pkey = Returns (code, resarr_0, resarr_1) ->
  is_error code = true /\ resarr_0 = None /\ resarr_1 = None
  /\ exists k s_pkey s_data s,
       gen_k (Z.of_N (pubkey_nbits PUBKEY_ALGO_ECDH pkey)) = Returns k
       /\ gcry_sexp_build_public_key pkey = (GPG_ERR_NO_ERROR, s_pkey)
       /\ gcry_sexp_build_mpi k = (GPG_ERR_NO_ERROR, s_data)
       /\ gcry_pk_encrypt s_data s_pkey = (code, s).
Proof.
  unfold pk_ecdh_encrypt.
  destruct (gen_k _) as [k| | |] eqn:Ek; cbn [and_then];
    try discriminate.
  destruct (gcry_sexp_build_public_key pkey) as [rc1 s_pkey].
  destruct (is_error rc1) eqn:E1; [discriminate|].
  destruct (gcry_sexp_build_mpi k) as [rc2 s_data] eqn:Ed.
  destruct (is_error rc2) eqn:E2; [discriminate|].
  destruct (gcry_pk_encrypt s_data s_pkey) as [rc3 s_ciph] eqn:Ee.
  destruct (is_error rc3) eqn:E3.
  - intros H. injection H as <- <- <-.
    split; [exact E3|]. split; [reflexivity|]. split; [reflexivity|].
    apply is_error_false in E1, E2. subst rc1 rc2.
    exists k, s_pkey, s_data, s_ciph. rewrite Ed, Ee.
    repeat split.
  - cbn [deref and_then].
    destruct (mpi_from_sexp s_ciph [x61]); cbn [and_then]; discriminate.
Qed.

(** X14. Once [gcry_pk_encrypt] has succeeded and the shared point "a"
    has been taken from its result, [pk_ecdh_encrypt] reads the
    ephemeral public key "b" from that same S-expression after having
    released it (lines 455-457): the behaviour is undefined, and
    [pk_ecdh_encrypt_with_shared_point] is not reached in a defined
    state. *)
Theorem pk_ecdh_encrypt_reads_released (k shared : gcry_mpi_t)
    (s_pkey s_data s_ciph : sexp) :
  gen_k (Z.of_N (pubkey_nbits PUBKEY_ALGO_ECDH pkey)) = Returns k ->
  gcry_sexp_build_public_key pkey = (GPG_ERR_NO_ERROR, s_pkey) ->
  gcry_sexp_build_mpi k = (GPG_ERR_NO_ERROR, s_data) ->
  gcry_pk_encrypt s_data s_pkey = (GPG_ERR_NO_ERROR, s_ciph) ->
  mpi_from_sexp s_ciph [x61] = Returns shared ->
  pk_ecdh_encrypt pk_fp data pkey = UndefinedBehaviour.
Proof.
  intros Hk Hp Hd He Ha. unfold pk_ecdh_encrypt.
  rewrite Hk. cbn [and_then]. rewrite Hp. cbn [is_error gpg_error_eqb negb].
  rewrite Hd. cbn [is_error gpg_error_eqb negb].
  rewrite He. cbn [is_error gpg_error_eqb negb deref and_then].
  rewrite Ha. reflexivity.
Qed.

End PkEncryptFacts.

(* ================================================================== *)
(** * [release_skc_list] and [build_skc_list] *)

Lemma last_cons {A} (l : list A) (x d : A) : last (x :: l) d = last l x.
Proof.
  revert x d. induction l as [|y l IH]; intros x d; [reflexivity|].
  change (last (x :: y :: l) d) with (last (y :: l) d).
  rewrite (IH y d), (IH y x). reflexivity.
Qed.

Lemma last_map_f {A C} (f : A -> C) (l : list A) (d : A) :
  last (map f l) (f d) = f (last l d).
Proof.
  induction l as [|x l IH]; [reflexivity|].
  change (map f (x :: l)) with (f x :: map f l).
  rewrite !last_cons. clear IH. revert x.
  induction l as [|y l IH]; intros x; [reflexivity|].
  change (map f (y :: l)) with (f y :: map f l).
  rewrite !last_cons. apply IH.
Qed.

Section SkclistFacts.
Context {K : Keyring}.
Variable unlock : Z.

Lemma release_skc_list_ledger (l : list skc_node) (m : ledger) :
  release_skc_list l m
  = {| live_certs := live_certs m - zlen l;
       live_nodes := live_nodes m - zlen l |}.
Proof.
  revert m. induction l as [|x l IH]; intros m.
  - cbn [release_skc_list]. unfold zlen. cbn [length Z.of_nat].
    rewrite !Z.sub_0_r. destruct m; reflexivity.
  - cbn [release_skc_list]. rewrite IH. cbn [live_certs live_nodes].
    rewrite zlen_cons. f_equal; lia.
Qed.

(** One name: what [add_secret_cert] does to the locals. *)
Lemma add_secret_cert_found (name : option (list byte)) (st : locals) :
  add_secret_cert name unlock st
  = {| rc := Some (fst (get_seckey_byname name unlock));
       skc_list := rev (found_certs [name] unlock) ++ skc_list st;
       mem := {| live_certs := live_certs (mem st)
                               + zlen (found_certs [name] unlock);
                 live_nodes := live_nodes (mem st)
                               + zlen (found_certs [name] unlock) |} |}.
Proof.
  unfold add_secret_cert, found_certs. cbn [flat_map].
  destruct (get_seckey_byname name unlock) as [rc' skc']. cbn [fst].
  destruct (rc' =? 0); cbn [negb andb];
    [destruct (is_valid_pubkey_algo (pubkey_algo skc') =? 0); cbn [negb]|];
    cbn [app rev live_certs live_nodes];
    rewrite ?zlen_cons; change (zlen (@nil skc_node)) with 0;
    (f_equal; try reflexivity; f_equal; lia).
Qed.

Lemma found_certs_app (l1 l2 : list (option (list byte))) :
  found_certs (l1 ++ l2) unlock
  = found_certs l1 unlock ++ found_certs l2 unlock.
Proof. unfold found_certs. apply flat_map_app. Qed.

(** The loop: the code is that of the last name, the nodes are those
    found, the last one first. *)
Lemma add_secret_certs_found (locusr : list (list byte)) (st : locals) :
  add_secret_certs locusr unlock st
  = {| rc := match locusr with
             | [] => rc st
             | d :: next =>
                 Some (fst (get_seckey_byname (Some (last next d)) unlock))
             end;
       skc_list := rev (found_certs (map Some locusr) unlock) ++ skc_list st;
       mem := {| live_certs :=
                   live_certs (mem st)
                   + zlen (found_certs (map Some locusr) unlock);
                 live_nodes :=
                   live_nodes (mem st)
                   + zlen (found_certs (map Some locusr) unlock) |} |}.
Proof.
  revert st. induction locusr as [|d next IH]; intros st.
  - cbn [add_secret_certs map]. unfold found_certs, zlen.
    cbn [flat_map rev app length Z.of_nat]. rewrite !Z.add_0_r.
    destruct st as [r l [c n]]; reflexivity.
  - cbn [add_secret_certs]. rewrite IH, add_secret_cert_found.
    cbn [rc skc_list mem live_certs live_nodes map].
    change (Some d :: map Some next) with ([Some d] ++ map Some next).
    rewrite found_certs_app, rev_app_distr, <- app_assoc, zlen_app.
    f_equal.
    + destruct next as [|d' next']; [reflexivity|].
      rewrite last_cons. reflexivity.
    + f_equal; lia.
Qed.

Lemma build_skc_list_found (locusr : list (list byte)) (m : ledger) :
  build_skc_list locusr unlock m
  = let rc0 := fst (get_seckey_byname (last (asked locusr) None) unlock) in
    let found := found_certs (asked locusr) unlock in
    let rc1 :=
      if (rc0 =? 0) && (match found with [] => true | _ => false end)
      then G10ERR_NO_USER_ID else rc0 in
    if negb (rc1 =? 0) then Returns (rc1, None, m)
    else Returns (rc1, Some (rev found),
                  {| live_certs := live_certs m + zlen found;
                     live_nodes := live_nodes m + zlen found |}).
Proof.
  unfold build_skc_list.
  assert (Hnil : forall l : list skc_node,
             match rev l ++ [] with [] => true | _ :: _ => false end
             = match l with [] => true | _ :: _ => false end).
  { intros l. rewrite app_nil_r. destruct l as [|x l]; [reflexivity|].
    cbn [rev]. destruct (rev l); reflexivity. }
  destruct locusr as [|d next].
  - rewrite add_secret_cert_found. cbn [rc skc_list mem asked last].
    cbn zeta. rewrite Hnil.
    destruct (negb _); [|rewrite app_nil_r; reflexivity].
    rewrite release_skc_list_ledger. cbn [live_certs live_nodes].
    rewrite app_nil_r. unfold zlen. rewrite length_rev.
    destruct m as [c n]. cbn [live_certs live_nodes].
    repeat f_equal; lia.
  - rewrite add_secret_certs_found. cbn [rc skc_list mem]. cbn zeta.
    rewrite Hnil.
    assert (Hlast : last (asked (d :: next)) None = Some (last next d)).
    { unfold asked. change (map Some (d :: next))
        with (Some d :: map Some next).
      rewrite last_cons. apply last_map_f. }
    rewrite Hlast. unfold asked.
    destruct (negb _); [|rewrite app_nil_r; reflexivity].
    rewrite release_skc_list_ledger. cbn [live_certs live_nodes].
    rewrite app_nil_r. unfold zlen. rewrite length_rev.
    destruct m as [c n]. cbn [live_certs live_nodes].
    repeat f_equal; lia.
Qed.

Lemma asked_last (d : list byte) (next : list (list byte)) :
  last (asked (d :: next)) None = Some (last (d :: next) []).
Proof.
  unfold asked. change (map Some (d :: next)) with (Some d :: map Some next).
  rewrite !last_cons. apply last_map_f.
Qed.

Lemma found_certs_marks (l : list (option (list byte))) :
  Forall (fun n => mark n = 0) (found_certs l unlock).
Proof.
  unfold found_certs. induction l as [|name l IH]; [constructor|].
  cbn [flat_map]. apply Forall_app. split; [|exact IH].
  destruct (get_seckey_byname name unlock) as [rc' skc'].
  destruct (_ && _); repeat constructor.
Qed.

(** X15. [build_skc_list] always returns, [rc] being assigned before
    it is read, and it keeps the books of memory: with a code other than
    0 nothing is handed out and every secret certificate and list node
    allocated on the way has been freed; with 0 the list is handed out,
    every node of it has the mark 0, and what is still allocated is one
    certificate and one node for each of its nodes. *)
Theorem build_skc_list_balance (locusr : list (list byte)) (m : ledger) :
  exists code out m',
    build_skc_list locusr unlock m = Returns (code, out, m')
    /\ (code <> 0 -> out = None /\ m' = m)
    /\ (code = 0 ->
        exists l,
          out = Some l
          /\ Forall (fun n => mark n = 0) l
          /\ live_certs m' = live_certs m + zlen l
          /\ live_nodes m' = live_nodes m + zlen l).
Proof.
  rewrite build_skc_list_found. cbn zeta.
  set (found := found_certs (asked locusr) unlock).
  match goal with
  | |- context [negb (?c =? 0)] => set (rc1 := c)
  end.
  destruct (rc1 =? 0) eqn:E; cbn [negb].
  - apply Z.eqb_eq in E. do 3 eexists. split; [reflexivity|].
    split; [intros H; exfalso; exact (H E)|].
    intros _. exists (rev found). split; [reflexivity|].
    split; [apply Forall_rev; apply found_certs_marks|].
    unfold zlen. rewrite length_rev. cbn [live_certs live_nodes].
    split; reflexivity.
  - apply Z.eqb_neq in E. do 3 eexists. split; [reflexivity|].
    split; [intros _; split; reflexivity|].
    intros H. exfalso. exact (E H).
Qed.

(** X16. With names given, the code of the last name looked up being 0
    and at least one key found and of a valid algorithm,
    [build_skc_list] returns 0 and hands out the keys found, the one of
    the last name first, each with the mark 0; names whose key is not
    found or not valid are passed over. *)
Theorem build_skc_list_of_names (locusr : list (list byte)) (m : ledger) :
  locusr <> [] ->
  fst (get_seckey_byname (Some (last locusr [])) unlock) = 0 ->
  found_certs (map Some locusr) unlock <> [] ->
  build_skc_list locusr unlock m
  = Returns (0, Some (rev (found_certs (map Some locusr) unlock)),
             {| live_certs :=
                  live_certs m + zlen (found_certs (map Some locusr) unlock);
                live_nodes :=
                  live_nodes m
                  + zlen (found_certs (map Some locusr) unlock) |}).
Proof.
  intros Hne H0 Hf. rewrite build_skc_list_found. cbn zeta.
  destruct locusr as [|d next]; [contradiction|].
  rewrite asked_last, H0. change (asked (d :: next)) with (map Some (d :: next)).
  destruct (found_certs (map Some (d :: next)) unlock) as [|x l] eqn:E;
    [contradiction|].
  reflexivity.
Qed.

(** X17. The code of the last name decides: when the lookup of the last
    name fails, [build_skc_list] returns its code and hands out nothing,
    whatever keys were found for the names before it; they are
    released. (A failure for a name that is not the last is only
    logged.) *)
Theorem build_skc_list_last_name_fails (locusr : list (list byte))
    (m : ledger) (code : Z) :
  locusr <> [] ->
  fst (get_seckey_byname (Some (last locusr [])) unlock) = code ->
  code <> 0 ->
  build_skc_list locusr unlock m = Returns (code, None, m).
Proof.
  intros Hne Hc Hn. rewrite build_skc_list_found. cbn zeta.
  destruct locusr as [|d next]; [contradiction|].
  rewrite asked_last, Hc.
  rewrite (proj2 (Z.eqb_neq code 0) Hn). cbn [andb].
  rewrite (proj2 (Z.eqb_neq code 0) Hn). reflexivity.
Qed.

(** X18. When the last lookup gives the code 0 and no key is both found
    and of a valid algorithm (also when the default key is not),
    [build_skc_list] returns [G10ERR_NO_USER_ID] and hands out
    nothing. *)
Theorem build_skc_list_no_valid_signator (locusr : list (list byte))
    (m : ledger) :
  G10ERR_NO_USER_ID <> 0 ->
  fst (get_seckey_byname (last (asked locusr) None) unlock) = 0 ->
  found_certs (asked locusr) unlock = [] ->
  build_skc_list locusr unlock m = Returns (G10ERR_NO_USER_ID, None, m).
Proof.
  intros Hn H0 Hf. rewrite build_skc_list_found. cbn zeta.
  rewrite H0, Hf. cbn [Z.eqb andb].
  rewrite (proj2 (Z.eqb_neq _ 0) Hn). reflexivity.
Qed.

(** X19. Without names the default key is looked up, with the NULL
    name: a failure is returned as it is; a key found and of a valid
    algorithm is handed out alone, with the mark 0. *)
Theorem build_skc_list_default (m : ledger) (code : Z)
    (key : PKT_secret_cert) :
  get_seckey_byname None unlock = (code, key) ->
  (code <> 0 -> build_skc_list [] unlock m = Returns (code, None, m))
  /\ (code = 0 -> is_valid_pubkey_algo (pubkey_algo key) <> 0 ->
      build_skc_list [] unlock m
      = Returns (0, Some [{| skc := key; mark := 0 |}],
                 {| live_certs := live_certs m + 1;
                    live_nodes := live_nodes m + 1 |})).
Proof.
  intros Hg. rewrite build_skc_list_found. cbn zeta.
  unfold asked, found_certs. cbn [last flat_map]. rewrite Hg. cbn [fst].
  split.
  - intros Hn. rewrite (proj2 (Z.eqb_neq code 0) Hn). cbn [andb negb].
    rewrite (proj2 (Z.eqb_neq code 0) Hn). reflexivity.
  - intros -> Hv. rewrite (proj2 (Z.eqb_neq _ 0) Hv). reflexivity.
Qed.

(** X20. What [build_skc_list] hands out, [release_skc_list] gives
    back: after it the ledger is as it was before the list was built. *)
Theorem release_after_build (locusr : list (list byte)) (m m' : ledger)
    (l : list skc_node) :
  build_skc_list locusr unlock m = Returns (0, Some l, m') ->
  release_skc_list l m' = m.
Proof.
  rewrite build_skc_list_found. cbn zeta.
  destruct (negb _); [discriminate|].
  intros H. injection H as _ <- <-.
  rewrite release_skc_list_ledger. cbn [live_certs live_nodes].
  unfold zlen. rewrite length_rev. destruct m as [c n].
  cbn [live_certs live_nodes]. f_equal; lia.
Qed.

End SkclistFacts.

(* ================================================================== *)
(** * The further properties on concrete keys *)

Lemma no_memory_ok : backend_ok Example.no_memory.
Proof.
  destruct reference_backend_ok as [H1 H2 H3 H4 H5 H6 H7].
  constructor; assumption.
Qed.

Lemma p256_key_ok_no_memory :
  key_ok (B := Example.no_memory) shared_point zero_fp p256_key p256_oid
    x08 x07.
Proof.
  constructor.
  - vm_compute. discriminate.
  - vm_compute. reflexivity.
  - vm_compute. reflexivity.
  - vm_compute. reflexivity.
  - vm_compute. tauto.
  - vm_compute. tauto.
  - vm_compute. discriminate.
  - vm_compute. discriminate.
  - vm_compute. discriminate.
Qed.

(** X3 on [Example.sha1_key], whose KEK parameters 03 01 02 07 name
    SHA-1. *)
Lemma bad_kek_params_rejected_witness :
  coordinate_size Example.sha1_key < mpi_nbytes shared_point
  /\ mpi_nbytes shared_point <= mpi_nbytes (pkey_1 Example.sha1_key)
  /\ ~ valid_kek_params
         (iobuf_temp_to_buffer
            (snd (iobuf_write_size_body_mpi (pkey_2 Example.sha1_key)))
            sizeof_kdf_params)
  /\ pk_ecdh_encrypt_with_shared_point true shared_point zero_fp
       (gcry_mpi_scan session_key) Example.sha1_key
     = ([Call_mpi_print], Returns (GPG_ERR_BAD_PUBKEY, None)).
Proof.
  assert (H1 : coordinate_size Example.sha1_key < mpi_nbytes shared_point)
    by (vm_compute; reflexivity).
  assert (H2 : mpi_nbytes shared_point
               <= mpi_nbytes (pkey_1 Example.sha1_key))
    by (vm_compute; discriminate).
  assert (H3 : ~ valid_kek_params
                   (iobuf_temp_to_buffer
                      (snd (iobuf_write_size_body_mpi
                              (pkey_2 Example.sha1_key)))
                      sizeof_kdf_params)).
  { intros (h & c & E & Hh & _). vm_compute in E. injection E as <- _.
    vm_compute in Hh. intuition discriminate. }
  split; [exact H1|]. split; [exact H2|]. split; [exact H3|].
  exact (bad_kek_params_rejected shared_point zero_fp Example.sha1_key
           H1 H2 true (gcry_mpi_scan session_key) H3).
Defined.

(** X4 on an encrypted session key of 18 octets. *)
Lemma data_length_is_asserted_witness :
  mpi_nbytes (gcry_mpi_scan (x10 :: repeat x01 17)) mod 8 <> 1
  /\ pk_ecdh_encrypt_with_shared_point false shared_point zero_fp
       (gcry_mpi_scan (x10 :: repeat x01 17)) p256_key
     = ([Call_mpi_print; Call_md_open; Call_md_final; Call_cipher_open;
         Call_cipher_setkey],
        AssertionFailed).
Proof.
  assert (H : mpi_nbytes (gcry_mpi_scan (x10 :: repeat x01 17)) mod 8 <> 1)
    by (vm_compute; discriminate).
  split; [exact H|].
  exact (data_length_is_asserted shared_point zero_fp p256_key p256_oid
           x08 x07 reference_backend_ok p256_key_ok false
           (gcry_mpi_scan (x10 :: repeat x01 17)) H).
Defined.

(** X5 with the allocator of [Example.no_memory]. *)
Lemma no_memory_for_data_buf_witness :
  mpi_nbytes (gcry_mpi_scan session_key) mod 8 = 0
  /\ @xtrymalloc_secure Example.no_memory
       (1 + 2 * mpi_nbytes (gcry_mpi_scan session_key) + 8) = false
  /\ @pk_ecdh_encrypt_with_shared_point Example.no_memory true
       shared_point zero_fp (gcry_mpi_scan session_key) p256_key
     = ([Call_mpi_print; Call_md_open; Call_md_final; Call_cipher_open;
         Call_cipher_setkey],
        Returns (GPG_ERR_ENOMEM, None)).
Proof.
  assert (H1 : mpi_nbytes (gcry_mpi_scan session_key) mod 8 = 0)
    by (vm_compute; reflexivity).
  assert (H2 : @xtrymalloc_secure Example.no_memory
                 (1 + 2 * mpi_nbytes (gcry_mpi_scan session_key) + 8)
               = false) by reflexivity.
  split; [exact H1|]. split; [exact H2|].
  exact (proj1 (@no_memory_for_data_buf Example.no_memory shared_point
                  zero_fp p256_key p256_oid x08 x07 no_memory_ok
                  p256_key_ok_no_memory true (gcry_mpi_scan session_key)
                  H1 H2)).
Defined.

(** X6 on the all-zero fingerprint and the same with an octet 01 behind
    it. *)
Lemma fingerprint_first_20_witness :
  20 <= zlen zero_fp /\ 20 <= zlen (zero_fp ++ [x01])
  /\ firstn 20 zero_fp = firstn 20 (zero_fp ++ [x01])
  /\ pk_ecdh_encrypt_with_shared_point true shared_point zero_fp
       (gcry_mpi_scan session_key) p256_key
     = pk_ecdh_encrypt_with_shared_point true shared_point
         (zero_fp ++ [x01]) (gcry_mpi_scan session_key) p256_key.
Proof.
  assert (H1 : 20 <= zlen zero_fp) by (vm_compute; discriminate).
  assert (H2 : 20 <= zlen (zero_fp ++ [x01])) by (vm_compute; discriminate).
  assert (H3 : firstn 20 zero_fp = firstn 20 (zero_fp ++ [x01]))
    by reflexivity.
  split; [exact H1|]. split; [exact H2|]. split; [exact H3|].
  exact (fingerprint_first_20 backend true shared_point zero_fp
           (zero_fp ++ [x01]) (gcry_mpi_scan session_key) p256_key
           H1 H2 H3).
Defined.

(** X7 on [Example.compressed_key]: points of 33 octets and SHA-512,
    whose digest has 64. *)
Lemma digest_overflows_block_witness :
  coordinate_size Example.compressed_key
  < mpi_nbytes (gcry_mpi_scan Example.compressed_G)
  /\ mpi_nbytes (gcry_mpi_scan Example.compressed_G)
     <= mpi_nbytes (pkey_1 Example.compressed_key)
  /\ iobuf_write_size_body_mpi (pkey_2 Example.compressed_key)
     = (GPG_ERR_NO_ERROR, [x03; x01; x0a; x09])
  /\ iobuf_write_size_body_mpi (pkey_0 Example.compressed_key)
     = (GPG_ERR_NO_ERROR, p256_oid)
  /\ gcry_md_open (Z_of_byte x0a) = GPG_ERR_NO_ERROR
  /\ mpi_nbytes (pkey_1 Example.compressed_key)
     < gcry_md_get_algo_dlen (Z_of_byte x0a)
  /\ pk_ecdh_encrypt_with_shared_point true
       (gcry_mpi_scan Example.compressed_G) zero_fp
       (gcry_mpi_scan session_key) Example.compressed_key
     = ([Call_mpi_print; Call_md_open; Call_md_final], UndefinedBehaviour).
Proof.
  assert (H1 : coordinate_size Example.compressed_key
               < mpi_nbytes (gcry_mpi_scan Example.compressed_G))
    by (vm_compute; reflexivity).
  assert (H2 : mpi_nbytes (gcry_mpi_scan Example.compressed_G)
               <= mpi_nbytes (pkey_1 Example.compressed_key))
    by (vm_compute; discriminate).
  assert (H3 : iobuf_write_size_body_mpi (pkey_2 Example.compressed_key)
               = (GPG_ERR_NO_ERROR, [x03; x01; x0a; x09]))
    by (vm_compute; reflexivity).
  assert (H4 : In (Z_of_byte x0a)
                 [DIGEST_ALGO_SHA256; DIGEST_ALGO_SHA384;
                  DIGEST_ALGO_SHA512]) by (vm_compute; tauto).
  assert (H5 : In (Z_of_byte x09)
                 [CIPHER_ALGO_AES; CIPHER_ALGO_AES192; CIPHER_ALGO_AES256])
    by (vm_compute; tauto).
  assert (H6 : 20 <= zlen zero_fp) by (vm_compute; discriminate).
  assert (H7 : iobuf_write_size_body_mpi (pkey_0 Example.compressed_key)
               = (GPG_ERR_NO_ERROR, p256_oid)) by (vm_compute; reflexivity).
  assert (H8 : gcry_md_open (Z_of_byte x0a) = GPG_ERR_NO_ERROR)
    by reflexivity.
  assert (H9 : mpi_nbytes (pkey_1 Example.compressed_key)
               < gcry_md_get_algo_dlen (Z_of_byte x0a))
    by (vm_compute; reflexivity).
  split; [exact H1|]. split; [exact H2|]. split; [exact H3|].
  split; [exact H7|]. split; [exact H8|]. split; [exact H9|].
  exact (digest_overflows_block (gcry_mpi_scan Example.compressed_G)
           zero_fp Example.compressed_key H1 H2 p256_oid x0a x09
           H3 H4 H5 H6 H7 true (gcry_mpi_scan session_key) H8
           (md_read_length _ reference_backend_ok (Z_of_byte x0a)) H9).
Defined.


(** X9 with the libgcrypt of [Example.no_digest]. *)
Lemma md_open_failure_is_fatal_witness :
  is_error (@gcry_md_open Example.no_digest (Z_of_byte x08)) = true
  /\ @pk_ecdh_encrypt_with_shared_point Example.no_digest true
       shared_point zero_fp (gcry_mpi_scan session_key) p256_key
     = ([Call_mpi_print; Call_md_open], LogBug).
Proof.
  assert (H1 : @coordinate_size Example.no_digest p256_key
               < mpi_nbytes shared_point) by (vm_compute; reflexivity).
  assert (H2 : mpi_nbytes shared_point <= mpi_nbytes (pkey_1 p256_key))
    by (vm_compute; discriminate).
  assert (H3 : @iobuf_write_size_body_mpi Example.no_digest
                 (pkey_2 p256_key)
               = (GPG_ERR_NO_ERROR, [x03; x01; x08; x07]))
    by (vm_compute; reflexivity).
  assert (H4 : In (Z_of_byte x08)
                 [DIGEST_ALGO_SHA256; DIGEST_ALGO_SHA384;
                  DIGEST_ALGO_SHA512]) by (vm_compute; tauto).
  assert (H5 : In (Z_of_byte x07)
                 [CIPHER_ALGO_AES; CIPHER_ALGO_AES192; CIPHER_ALGO_AES256])
    by (vm_compute; tauto).
  assert (H6 : 20 <= zlen zero_fp) by (vm_compute; discriminate).
  assert (H7 : @iobuf_write_size_body_mpi Example.no_digest
                 (pkey_0 p256_key)
               = (GPG_ERR_NO_ERROR, p256_oid)) by (vm_compute; reflexivity).
  assert (H8 : is_error (@gcry_md_open Example.no_digest (Z_of_byte x08))
               = true) by reflexivity.
  split; [exact H8|].
  exact (@md_open_failure_is_fatal Example.no_digest shared_point zero_fp
           p256_key H1 H2 p256_oid x08 x07 H3 H4 H5 H6 H7 true
           (gcry_mpi_scan session_key) H8).
Defined.

(** X10 on [Reference.p256_key], twice. *)
Lemma kdf_params_unambiguous_witness :
  iobuf_write_size_body_mpi (pkey_0 p256_key) = (GPG_ERR_NO_ERROR, p256_oid)
  /\ iobuf_write_size_body_mpi (pkey_2 p256_key)
     = (GPG_ERR_NO_ERROR, [x03; x01; x08; x07])
  /\ Z_of_byte (hd x00 p256_oid) = zlen p256_oid - 1
  /\ zlen p256_oid <= 211
  /\ zlen zero_fp = 20
  /\ (p256_oid = p256_oid /\ x08 = x08 /\ x07 = x07 /\ zero_fp = zero_fp).
Proof.
  assert (H1 : iobuf_write_size_body_mpi (pkey_0 p256_key)
               = (GPG_ERR_NO_ERROR, p256_oid)) by (vm_compute; reflexivity).
  assert (H2 : iobuf_write_size_body_mpi (pkey_2 p256_key)
               = (GPG_ERR_NO_ERROR, [x03; x01; x08; x07]))
    by (vm_compute; reflexivity).
  assert (H3 : Z_of_byte (hd x00 p256_oid) = zlen p256_oid - 1)
    by reflexivity.
  assert (H4 : zlen p256_oid <= 211) by (vm_compute; discriminate).
  assert (H5 : zlen zero_fp = 20) by reflexivity.
  split; [exact H1|]. split; [exact H2|]. split; [exact H3|].
  split; [exact H4|]. split; [exact H5|].
  exact (kdf_params_unambiguous backend p256_key p256_key zero_fp zero_fp
           p256_oid p256_oid x08 x07 x08 x07 H1 H1 H2 H2 H3 H3 H4 H4 H5 H5
           eq_refl).
Defined.

(** X11 and X12 on 256 and 521 bits. *)
Lemma default_params_pass_the_checks_witness :
  pk_ecdh_default_params 256 = Returns (Some ([x03; x01; x08; x07], 4))
  /\ exists h c,
       decode_kek_params [x03; x01; x08; x07] = inr (h, c)
       /\ 4 = zlen [x03; x01; x08; x07]
       /\ 32 <= gcry_md_get_algo_dlen h
       /\ gcry_cipher_get_algo_keylen c <= gcry_md_get_algo_dlen h
       /\ (128 <= 256 -> gcry_cipher_get_algo_keylen c <= (256 + 7) / 8).
Proof.
  assert (H : pk_ecdh_default_params 256
              = Returns (Some ([x03; x01; x08; x07], 4))) by reflexivity.
  split; [exact H|].
  exact (default_params_pass_the_checks backend 256 [x03; x01; x08; x07] 4
           H).
Defined.

Lemma default_params_monotone_witness :
  256 <= 521
  /\ pk_ecdh_default_params 256 = Returns (Some ([x03; x01; x08; x07], 4))
  /\ pk_ecdh_default_params 521 = Returns (Some ([x03; x01; x0a; x09], 4))
  /\ exists h c h' c',
       decode_kek_params [x03; x01; x08; x07] = inr (h, c)
       /\ decode_kek_params [x03; x01; x0a; x09] = inr (h', c')
       /\ gcry_md_get_algo_dlen h <= gcry_md_get_algo_dlen h'
       /\ gcry_cipher_get_algo_keylen c <= gcry_cipher_get_algo_keylen c'.
Proof.
  assert (H1 : 256 <= 521) by discriminate.
  assert (H2 : pk_ecdh_default_params 256
               = Returns (Some ([x03; x01; x08; x07], 4))) by reflexivity.
  assert (H3 : pk_ecdh_default_params 521
               = Returns (Some ([x03; x01; x0a; x09], 4))) by reflexivity.
  split; [exact H1|]. split; [exact H2|]. split; [exact H3|].
  exact (default_params_monotone backend 256 521 [x03; x01; x08; x07]
           [x03; x01; x0a; x09] 4 4 H1 H2 H3).
Defined.

(** X13 with a random number generator that gives the scalar 0, which
    [Example.pk_encrypt] refuses. *)
Lemma pk_ecdh_encrypt_returns_only_errors_witness :
  @pk_ecdh_encrypt backend (Example.pk_backend 0%N) zero_fp
    (gcry_mpi_scan session_key) p256_key
  = Returns (GPG_ERR_INV_DATA, None, None)
  /\ is_error GPG_ERR_INV_DATA = true.
Proof.
  assert (H : @pk_ecdh_encrypt backend (Example.pk_backend 0%N) zero_fp
                (gcry_mpi_scan session_key) p256_key
              = Returns (GPG_ERR_INV_DATA, None, None)) by reflexivity.
  split; [exact H|].
  exact (proj1 (@pk_ecdh_encrypt_returns_only_errors backend
                  (Example.pk_backend 0%N) zero_fp
                  (gcry_mpi_scan session_key) p256_key GPG_ERR_INV_DATA
                  None None H)).
Defined.

(** X14 with the scalar 1: the shared point is the public point. *)
Lemma pk_ecdh_encrypt_reads_released_witness :
  @gen_k (Example.pk_backend 1%N)
    (Z.of_N (pubkey_nbits PUBKEY_ALGO_ECDH p256_key))
  = Returns 1%N
  /\ @gcry_pk_encrypt (Example.pk_backend 1%N) [([], 1%N)]
       [([x63], pkey_0 p256_key); ([x71], pkey_1 p256_key);
        ([x70], pkey_2 p256_key)]
     = (GPG_ERR_NO_ERROR,
        [([x61], pkey_1 p256_key); ([x62], gcry_mpi_scan p256_G)])
  /\ @pk_ecdh_encrypt backend (Example.pk_backend 1%N) zero_fp
       (gcry_mpi_scan session_key) p256_key
     = UndefinedBehaviour.
Proof.
  assert (H1 : @gen_k (Example.pk_backend 1%N)
                 (Z.of_N (pubkey_nbits PUBKEY_ALGO_ECDH p256_key))
               = Returns 1%N) by reflexivity.
  assert (H2 : @gcry_pk_encrypt (Example.pk_backend 1%N) [([], 1%N)]
                 [([x63], pkey_0 p256_key); ([x71], pkey_1 p256_key);
                  ([x70], pkey_2 p256_key)]
               = (GPG_ERR_NO_ERROR,
                  [([x61], pkey_1 p256_key);
                   ([x62], gcry_mpi_scan p256_G)])) by reflexivity.
  split; [exact H1|]. split; [exact H2|].
  exact (@pk_ecdh_encrypt_reads_released backend (Example.pk_backend 1%N)
           zero_fp (gcry_mpi_scan session_key) p256_key 1%N
           (pkey_1 p256_key) _ _ _ H1 eq_refl eq_refl H2 eq_refl).
Defined.

(** X16 on the names alice, dave, bob: dave has no key and is passed
    over. *)
Lemma build_skc_list_of_names_witness :
  [Example.alice; Example.dave; Example.bob] <> []
  /\ fst (@get_seckey_byname Example.keyring
            (Some (last [Example.alice; Example.dave; Example.bob] [])) 0)
     = 0
  /\ @build_skc_list Example.keyring
       [Example.alice; Example.dave; Example.bob] 0
       {| live_certs := 0; live_nodes := 0 |}
     = Returns (0,
                Some [ Example.node 1 Example.bob;
                       Example.node 17 Example.alice ],
                {| live_certs := 2; live_nodes := 2 |}).
Proof.
  assert (H1 : [Example.alice; Example.dave; Example.bob] <> [])
    by discriminate.
  assert (H2 : fst (@get_seckey_byname Example.keyring
                      (Some (last [Example.alice; Example.dave; Example.bob]
                               [])) 0) = 0) by reflexivity.
  assert (H3 : @found_certs Example.keyring
                 (map Some [Example.alice; Example.dave; Example.bob]) 0
               <> []) by (vm_compute; discriminate).
  split; [exact H1|]. split; [exact H2|].
  exact (@build_skc_list_of_names Example.keyring 0
           [Example.alice; Example.dave; Example.bob]
           {| live_certs := 0; live_nodes := 0 |} H1 H2 H3).
Defined.

(** X17 on the names alice, bob, dave: the keys of alice and bob are
    found, and released when dave is not. *)
Lemma build_skc_list_last_name_fails_witness :
  fst (@get_seckey_byname Example.keyring
         (Some (last [Example.alice; Example.bob; Example.dave] [])) 0)
  = 7
  /\ @build_skc_list Example.keyring
       [Example.alice; Example.bob; Example.dave] 0
       {| live_certs := 0; live_nodes := 0 |}
     = Returns (7, None, {| live_certs := 0; live_nodes := 0 |}).
Proof.
  assert (H1 : [Example.alice; Example.bob; Example.dave] <> [])
    by discriminate.
  assert (H2 : fst (@get_seckey_byname Example.keyring
                      (Some (last [Example.alice; Example.bob; Example.dave]
                               [])) 0) = 7) by reflexivity.
  assert (H3 : 7 <> 0) by discriminate.
  split; [exact H2|].
  exact (@build_skc_list_last_name_fails Example.keyring 0
           [Example.alice; Example.bob; Example.dave]
           {| live_certs := 0; live_nodes := 0 |} 7 H1 H2 H3).
Defined.

(** X18 on the name carol, whose key is of no valid algorithm. *)
Lemma build_skc_list_no_valid_signator_witness :
  @G10ERR_NO_USER_ID Example.keyring <> 0
  /\ @found_certs Example.keyring (asked [Example.carol]) 0 = []
  /\ @build_skc_list Example.keyring [Example.carol] 0
       {| live_certs := 0; live_nodes := 0 |}
     = Returns (15, None, {| live_certs := 0; live_nodes := 0 |}).
Proof.
  assert (H1 : @G10ERR_NO_USER_ID Example.keyring <> 0) by discriminate.
  assert (H2 : fst (@get_seckey_byname Example.keyring
                      (last (asked [Example.carol]) None) 0) = 0)
    by reflexivity.
  assert (H3 : @found_certs Example.keyring (asked [Example.carol]) 0 = [])
    by reflexivity.
  split; [exact H1|]. split; [exact H3|].
  exact (@build_skc_list_no_valid_signator Example.keyring 0
           [Example.carol] {| live_certs := 0; live_nodes := 0 |}
           H1 H2 H3).
Defined.

(** X19 on the default key of [Example.keyring], the one of alice. *)
Lemma build_skc_list_default_witness :
  @get_seckey_byname Example.keyring None 0 = (0, (17, Example.alice))
  /\ @build_skc_list Example.keyring [] 0
       {| live_certs := 0; live_nodes := 0 |}
     = Returns (0, Some [Example.node 17 Example.alice],
                {| live_certs := 0 + 1; live_nodes := 0 + 1 |}).
Proof.
  assert (H1 : @get_seckey_byname Example.keyring None 0
               = (0, (17, Example.alice))) by reflexivity.
  split; [exact H1|].
  apply (proj2 (@build_skc_list_default Example.keyring 0
                  {| live_certs := 0; live_nodes := 0 |} 0
                  (17, Example.alice) H1)).
  - reflexivity.
  - discriminate.
Defined.

(** X20 on the names alice and bob. *)
Lemma release_after_build_witness :
  @build_skc_list Example.keyring [Example.alice; Example.bob] 0
    {| live_certs := 0; live_nodes := 0 |}
  = Returns (0,
             Some [ Example.node 1 Example.bob;
                    Example.node 17 Example.alice ],
             {| live_certs := 2; live_nodes := 2 |})
  /\ @release_skc_list Example.keyring
       [ Example.node 1 Example.bob;
         Example.node 17 Example.alice ]
       {| live_certs := 2; live_nodes := 2 |}
     = {| live_certs := 0; live_nodes := 0 |}.
Proof.
  assert (H : @build_skc_list Example.keyring [Example.alice; Example.bob] 0
                {| live_certs := 0; live_nodes := 0 |}
              = Returns (0,
                         Some [ Example.node 1 Example.bob;
                                Example.node 17 Example.alice ],
                         {| live_certs := 2; live_nodes := 2 |}))
    by reflexivity.
  split; [exact H|].
  exact (@release_after_build Example.keyring 0
           [Example.alice; Example.bob] _ _ _ H).
Defined.
